(** * Streaming session controller of the chat front end

    A shallow embedding of the two TypeScript modules that make up the
    streaming path of the chat client:

    - [lib/api.ts]  : [RealChatAPI.sendMessageStream], the read loop that
      turns the bytes of an event-stream response into [StreamChunk]s
      (frame decoding and event interpretation);
    - [hooks/use-chat.ts] : [useChat], the React hook that owns the
      transcript ([messages]), the loading flag, the error banner and the
      reference to the active stream tracker.

    JavaScript strings are sequences of UTF-16 code units; they are modelled
    as [list Z].  Byte chunks ([Uint8Array]) are [list Z] as well.  Platform
    services that are not part of the repository ([JSON.parse], [Date.now],
    [fetch]) are inputs of the model. *)

From Stdlib Require Import ZArith List String Ascii Bool Lia DecimalString.
From stdpp Require Import list gmap.
Import ListNotations.

(** ** JavaScript strings *)

Module JS.

Abbreviation jsstring := (list Z).

(** A source-code string literal (all literals of the two modules are ASCII). *)
Definition js (s : string) : jsstring :=
  map (fun a => Z.of_N (N_of_ascii a)) (list_ascii_of_string s).
Arguments js s%_string.

Definition LF : Z := 10.

Definition jsstring_eqb (a b : jsstring) : bool :=
  bool_decide (a = b).

(** [s.startsWith(p)] *)
Fixpoint startsWith (p s : jsstring) : bool :=
  match p, s with
  | [], _ => true
  | _ :: _, [] => false
  | c :: p', d :: s' => (c =? d)%Z && startsWith p' s'
  end.

(** [s.slice(n)] for a non-negative literal [n]. *)
Definition slice_from (n : nat) (s : jsstring) : jsstring := drop n s.

(** White space and line terminators stripped by [String.prototype.trim]. *)
Definition isTrimmable (c : Z) : bool :=
  ((9 <=? c) && (c <=? 13) || (c =? 32) || (c =? 160) || (c =? 5760)
   || (8192 <=? c) && (c <=? 8202) || (c =? 8232) || (c =? 8233)
   || (c =? 8239) || (c =? 8287) || (c =? 12288) || (c =? 65279))%Z.

Fixpoint trimStart (s : jsstring) : jsstring :=
  match s with
  | c :: r => if isTrimmable c then trimStart r else s
  | [] => []
  end.

Definition trimEnd (s : jsstring) : jsstring := rev (trimStart (rev s)).

(** [s.trim()] *)
Definition trim (s : jsstring) : jsstring := trimEnd (trimStart s).

(** [s.split("\n")]: the pieces between line feeds; never empty. *)
Fixpoint split_LF (s : jsstring) : list jsstring :=
  match s with
  | [] => [[]]
  | c :: r =>
      if (c =? LF)%Z then [] :: split_LF r
      else match split_LF r with
           | x :: xs => (c :: x) :: xs
           | [] => [[c]]
           end
  end.

(** Number of line feeds in a string, or of 0x0A bytes in a byte chunk. *)
Definition count_LF (s : list Z) : nat := count_occ Z.eq_dec s LF.

(** A falsy string is the empty one. *)
Definition truthy (s : jsstring) : bool :=
  match s with [] => false | _ :: _ => true end.

(** Rendering of a non-negative integer, as a template literal prints it. *)
Definition digits (z : Z) : jsstring :=
  js (NilZero.string_of_uint (N.to_uint (Z.to_N z))).

End JS.
Import JS.

(** ** [TextDecoder] in streaming mode

    The read loop decodes every chunk with
    [decoder.decode(value, { stream: true })].  The decoder is the platform's
    UTF-8 decoder with replacement error mode; its byte handler is written
    out here after the Encoding Standard, so that the frame decoder can be
    stated on bytes. *)

Module TextDecoder.

Local Open Scope Z_scope.

Record Utf8 := {
  code_point : Z;
  bytes_seen : Z;
  bytes_needed : Z;
  lower_boundary : Z;
  upper_boundary : Z
}.

Definition utf8_fresh : Utf8 :=
  {| code_point := 0; bytes_seen := 0; bytes_needed := 0;
     lower_boundary := 0x80; upper_boundary := 0xBF |}.

Definition between (lo hi b : Z) : bool := (lo <=? b) && (b <=? hi).

Definition REPLACEMENT : Z := 0xFFFD.

(** Handler step taken when no continuation byte is expected. *)
Definition lead (st : Utf8) (b : Z) : Utf8 * list Z :=
  if between 0x00 0x7F b then (st, [b])
  else if between 0xC2 0xDF b then
    ({| code_point := Z.land b 0x1F; bytes_seen := bytes_seen st;
        bytes_needed := 1;
        lower_boundary := lower_boundary st;
        upper_boundary := upper_boundary st |}, [])
  else if between 0xE0 0xEF b then
    ({| code_point := Z.land b 0xF; bytes_seen := bytes_seen st;
        bytes_needed := 2;
        lower_boundary := if b =? 0xE0 then 0xA0 else lower_boundary st;
        upper_boundary := if b =? 0xED then 0x9F else upper_boundary st |}, [])
  else if between 0xF0 0xF4 b then
    ({| code_point := Z.land b 0x7; bytes_seen := bytes_seen st;
        bytes_needed := 3;
        lower_boundary := if b =? 0xF0 then 0x90 else lower_boundary st;
        upper_boundary := if b =? 0xF4 then 0x8F else upper_boundary st |}, [])
  else (st, [REPLACEMENT]).

(** One byte through the UTF-8 decoder: new state and emitted code points.
    A byte that breaks a sequence yields U+FFFD and is then handled again
    from the reset state. *)
Definition handler (st : Utf8) (b : Z) : Utf8 * list Z :=
  if bytes_needed st =? 0 then lead st b
  else if negb (between (lower_boundary st) (upper_boundary st) b) then
    let '(st', out) := lead utf8_fresh b in (st', REPLACEMENT :: out)
  else
    let cp := Z.lor (Z.shiftl (code_point st) 6) (Z.land b 0x3F) in
    let seen := bytes_seen st + 1 in
    if seen =? bytes_needed st then (utf8_fresh, [cp])
    else ({| code_point := cp; bytes_seen := seen;
             bytes_needed := bytes_needed st;
             lower_boundary := 0x80; upper_boundary := 0xBF |}, []).

Fixpoint run (st : Utf8) (bs : list Z) : Utf8 * list Z :=
  match bs with
  | [] => (st, [])
  | b :: r =>
      let '(st1, o1) := handler st b in
      let '(st2, o2) := run st1 r in
      (st2, o1 ++ o2)
  end.

(** Code point to UTF-16 code units. *)
Definition utf16 (cp : Z) : list Z :=
  if cp <? 0x10000 then [cp]
  else [0xD800 + Z.shiftr (cp - 0x10000) 10;
        0xDC00 + Z.land (cp - 0x10000) 0x3FF].

Record t := {
  utf8 : Utf8;
  BOM_seen : bool
}.

(** [new TextDecoder()] *)
Definition fresh : t := {| utf8 := utf8_fresh; BOM_seen := false |}.

(** Serialisation of the code points of one call: the first code point the
    decoder ever outputs is dropped when it is the byte order mark. *)
Definition serialize (seen : bool) (cps : list Z) : bool * list Z :=
  match cps with
  | [] => (seen, [])
  | c :: r => if seen then (true, cps)
              else (true, if c =? 0xFEFF then r else cps)
  end.

(** [decoder.decode(value, { stream: true })] *)
Definition decode (value : list Z) (d : t) : t * jsstring :=
  let '(st, cps) := run (utf8 d) value in
  let '(seen, out) := serialize (BOM_seen d) cps in
  ({| utf8 := st; BOM_seen := seen |}, concat (map utf16 out)).

(** The text of a whole byte sequence given to a new decoder in one call. *)
Definition decodeWhole (bytes : list Z) : jsstring :=
  snd (decode bytes fresh).

(** States the handler can be in: boundaries within the continuation range;
    between sequences nothing is counted; inside a sequence the code point
    gathered so far is positive, except right after the lead bytes 0xE0 and
    0xF0, which raise the lower boundary instead. *)
Definition wellFormed (st : Utf8) : Prop :=
  0x80 <= lower_boundary st /\ upper_boundary st <= 0xBF /\
  ((bytes_needed st = 0 /\ bytes_seen st = 0) \/
   (bytes_needed st <> 0 /\ 0 <= bytes_seen st /\
    (1 <= code_point st \/
     (code_point st = 0 /\ 0x90 <= lower_boundary st /\
      bytes_seen st = 0 /\ bytes_needed st <> 1)))).

End TextDecoder.

(** ** The console

    One constructor per logging call site of the streaming path. *)

Inductive ConsoleEntry :=
  | LogApiStart (sessionId : jsstring)
      (* console.log("[API] Starting streaming chat for session:", sessionId) *)
  | ErrParseFailed (trimmed : jsstring)
      (* console.error("[API] Failed to parse SSE data:", e, "Line:", trimmed) *)
  | LogStreamAborted
      (* console.log("[useChat] Stream aborted - session changed") *)
  | ErrMessage (errorMessage : jsstring).
      (* console.error(errorMessage) *)

(** A value that is thrown or rejects a promise: an [Error] instance with
    its message, or anything else. *)
Inductive Thrown :=
  | ErrorObject (message : jsstring)
  | OtherValue.

(** How an [async] function settles. *)
Inductive Completion :=
  | Returns
  | Throws (e : Thrown).

(** ** [lib/api.ts] *)

Module Api.

Inductive ChunkType := T_content | T_done | T_error.

(** [interface StreamChunk { type; content?: string; error?: string }] *)
Record StreamChunk := {
  chunk_type : ChunkType;
  chunk_content : option jsstring;
  chunk_error : option jsstring
}.

Definition contentChunk (c : option jsstring) : StreamChunk :=
  {| chunk_type := T_content; chunk_content := c; chunk_error := None |}.
Definition doneChunk : StreamChunk :=
  {| chunk_type := T_done; chunk_content := None; chunk_error := None |}.
Definition errorChunk (e : option jsstring) : StreamChunk :=
  {| chunk_type := T_error; chunk_content := None; chunk_error := e |}.

(** The fields of a parsed event payload that the read loop looks at.  A
    field is [None] when the payload does not carry it; the fields are
    strings, as [StreamChunk] declares them for the consumer. *)
Record EventData := {
  data_type : option jsstring;
  data_content : option jsstring;
  data_tool : option jsstring;
  data_message : option jsstring
}.

(** [`${v}`] for an optional string field. *)
Definition interpolate (v : option jsstring) : jsstring :=
  match v with
  | Some s => s
  | None => js "undefined"
  end.

(** What arrives from the network for one request. *)
Inductive ReadEnd :=
  | EndOfStream                 (* reader.read() resolves with done *)
  | ReadRejects (e : Thrown).   (* reader.read() rejects *)

Record Body := {
  reads : list (list Z);        (* the values of the successful reads *)
  ending : ReadEnd
}.

Record Response := {
  ok : bool;
  status : Z;
  body : option Body
}.

Inductive FetchResult :=
  | FetchRejects (e : Thrown)
  | FetchResolves (r : Response).

(** State of the read loop between two reads. *)
Record Reader := {
  buffer : jsstring;
  decoder : TextDecoder.t
}.

Definition newReader : Reader :=
  {| buffer := []; decoder := TextDecoder.fresh |}.

(** [buffer = lines.pop() || (the empty string)] *)
Definition pop_or_empty (lines : list jsstring) : jsstring :=
  match last lines with
  | Some l => if truthy l then l else []
  | None => []
  end.

Section Loop.

(** The world the callbacks act on. *)
Context {S : Type}.

(** One iteration of the [while] loop with [done = false]: decode,
    extend the buffer, split, keep the last piece, and run the body of
    the [for] loop on every other piece in order. *)
Definition readValue (onLine : jsstring -> S -> S)
    (value : list Z) (rs : Reader * S) : Reader * S :=
  let '(d, text) := TextDecoder.decode value (decoder (fst rs)) in
  let buffer1 := buffer (fst rs) ++ text in
  let lines := split_LF buffer1 in
  let buffer2 := pop_or_empty lines in
  ({| buffer := buffer2; decoder := d |},
   fold_left (fun s line => onLine line s) (removelast lines) (snd rs)).

Definition readLoop (onLine : jsstring -> S -> S)
    (values : list (list Z)) (rs : Reader * S) : Reader * S :=
  fold_left (fun rs value => readValue onLine value rs) values rs.

(** [JSON.parse] followed by the accesses [data.type], [data.content], ...;
    [None] when the [try] block is left through [catch]. *)
Variable JSON_parse : jsstring -> option EventData.
Variable console : ConsoleEntry -> S -> S.
Variable onChunk : StreamChunk -> S -> S.

Definition type_is (data : EventData) (name : jsstring) : bool :=
  match data_type data with
  | Some t => jsstring_eqb t name
  | None => false
  end.

(** The [if / else if] chain on [data.type]. *)
Definition handleEvent (data : EventData) (s : S) : S :=
  if type_is data (js "content") then
    onChunk (contentChunk (data_content data)) s
  else if type_is data (js "tool_call") then
    onChunk (contentChunk
      (Some ([LF] ++ js "[Using tool: " ++ interpolate (data_tool data)
             ++ js "]" ++ [LF]))) s
  else if type_is data (js "tool_result") then
    onChunk (contentChunk
      (Some ([LF] ++ interpolate (data_content data) ++ [LF]))) s
  else if type_is data (js "end") then
    onChunk doneChunk s
  else if type_is data (js "error") then
    onChunk (errorChunk (data_message data)) s
  else s.

(** Body of [for (const line of lines)]. *)
Definition handleLine (line : jsstring) (s : S) : S :=
  let trimmed := trim line in
  if startsWith (js "data: ") trimmed then
    match JSON_parse (slice_from 6 trimmed) with
    | Some data => handleEvent data s
    | None => console (ErrParseFailed trimmed) s
    end
  else s.

(** [RealChatAPI.sendMessageStream(sessionId, userInput, onChunk)], run
    against what the network delivers. *)
Definition sendMessageStream (sessionId userInput : jsstring)
    (net : FetchResult) (s : S) : S * Completion :=
  let s := console (LogApiStart sessionId) s in
  match net with
  | FetchRejects e => (s, Throws e)
  | FetchResolves response =>
      if negb (ok response) then
        (s, Throws (ErrorObject (js "API Error " ++ digits (status response))))
      else
        match body response with
        | None => (s, Throws (ErrorObject (js "No response body")))
        | Some b =>
            let '(_, s1) := readLoop handleLine (reads b) (newReader, s) in
            match ending b with
            | EndOfStream => (onChunk doneChunk s1, Returns)
            | ReadRejects e => (s1, Throws e)
            end
        end
  end.

End Loop.

(** The line records the frame decoder hands to the loop body, in order. *)
Definition frameLines (values : list (list Z)) : list jsstring :=
  snd (readLoop (fun line acc => acc ++ [line]) values (newReader, [])).

(** The chunks the callback receives, in order. *)
Definition chunksDelivered (JSON_parse : jsstring -> option EventData)
    (net : FetchResult) : list StreamChunk * Completion :=
  sendMessageStream JSON_parse (fun _ s => s) (fun c s => s ++ [c])
    [] [] net [].

End Api.

(** ** [hooks/use-chat.ts] *)

Module UseChat.

Import Api.

Inductive Sender := human | ai | tool.

Global Instance Sender_eq_dec : EqDecision Sender.
Proof. solve_decision. Defined.

(** [interface ChatMessage { sender; content; timestamp?: number }] *)
Record ChatMessage := {
  sender : Sender;
  content : jsstring;
  timestamp : option Z
}.

(** The object [{ sessionId, aborted }] behind [activeStreamRef]. *)
Record StreamTracker := {
  sessionId : jsstring;
  aborted : bool
}.

(** The state cells of one [useChat] instance, the tracker objects it has
    allocated (a reference to a tracker is its index in [trackers]), the
    console, and the number of clock readings taken so far. *)
Record Hook := {
  currentSessionId : option jsstring;
  messages : list ChatMessage;
  isLoading : bool;
  error : option jsstring;
  trackers : list StreamTracker;
  activeStreamRef : option nat;
  console : list ConsoleEntry;
  clockReads : nat
}.

Definition setCurrentSessionId (v : option jsstring) (st : Hook) : Hook :=
  {| currentSessionId := v; messages := messages st;
     isLoading := isLoading st; error := error st;
     trackers := trackers st; activeStreamRef := activeStreamRef st;
     console := console st; clockReads := clockReads st |}.

(** [setMessages((prev) => f(prev))] *)
Definition setMessages (f : list ChatMessage -> list ChatMessage)
    (st : Hook) : Hook :=
  {| currentSessionId := currentSessionId st; messages := f (messages st);
     isLoading := isLoading st; error := error st;
     trackers := trackers st; activeStreamRef := activeStreamRef st;
     console := console st; clockReads := clockReads st |}.

Definition setIsLoading (v : bool) (st : Hook) : Hook :=
  {| currentSessionId := currentSessionId st; messages := messages st;
     isLoading := v; error := error st;
     trackers := trackers st; activeStreamRef := activeStreamRef st;
     console := console st; clockReads := clockReads st |}.

Definition setError (v : option jsstring) (st : Hook) : Hook :=
  {| currentSessionId := currentSessionId st; messages := messages st;
     isLoading := isLoading st; error := v;
     trackers := trackers st; activeStreamRef := activeStreamRef st;
     console := console st; clockReads := clockReads st |}.

Definition setTrackers (v : list StreamTracker) (st : Hook) : Hook :=
  {| currentSessionId := currentSessionId st; messages := messages st;
     isLoading := isLoading st; error := error st;
     trackers := v; activeStreamRef := activeStreamRef st;
     console := console st; clockReads := clockReads st |}.

(** [activeStreamRef.current = v] *)
Definition setActiveStreamRef (v : option nat) (st : Hook) : Hook :=
  {| currentSessionId := currentSessionId st; messages := messages st;
     isLoading := isLoading st; error := error st;
     trackers := trackers st; activeStreamRef := v;
     console := console st; clockReads := clockReads st |}.

Definition writeConsole (e : ConsoleEntry) (st : Hook) : Hook :=
  {| currentSessionId := currentSessionId st; messages := messages st;
     isLoading := isLoading st; error := error st;
     trackers := trackers st; activeStreamRef := activeStreamRef st;
     console := console st ++ [e]; clockReads := clockReads st |}.

Definition tick (st : Hook) : Hook :=
  {| currentSessionId := currentSessionId st; messages := messages st;
     isLoading := isLoading st; error := error st;
     trackers := trackers st; activeStreamRef := activeStreamRef st;
     console := console st; clockReads := Datatypes.S (clockReads st) |}.

(** [tracker.aborted = true] through a reference. *)
Definition abortTracker (h : nat) (st : Hook) : Hook :=
  setTrackers
    (alter (fun t => {| sessionId := sessionId t; aborted := true |}) h
       (trackers st)) st.

(** [streamTracker.aborted], read through the reference [h] captured by the
    callback.  References come from [trackers], so the lookup succeeds. *)
Definition isAborted (h : nat) (st : Hook) : bool :=
  match trackers st !! h with
  | Some t => aborted t
  | None => true
  end.

(** *** The tool-output pattern [/\{'path':.*?\}/g] *)

(** Characters that [.] does not match. *)
Definition isLineTerminator (c : Z) : bool :=
  ((c =? 10) || (c =? 13) || (c =? 8232) || (c =? 8233))%Z.

(** [.*?\}] at the start of [s]: the shortest run of non-terminators up to
    and including a closing brace. *)
Fixpoint lazyUntilBrace (s : jsstring) : option jsstring :=
  match s with
  | [] => None
  | c :: r =>
      if (c =? 125)%Z then Some [c]
      else if isLineTerminator c then None
      else option_map (cons c) (lazyUntilBrace r)
  end.

Definition pathOpen : jsstring := js "{'path':".

(** The pattern anchored at the start of [s]. *)
Definition matchHere (s : jsstring) : option jsstring :=
  if startsWith pathOpen s then
    option_map (app pathOpen) (lazyUntilBrace (drop (length pathOpen) s))
  else None.

(** Leftmost match of the pattern in [s], as both
    [toolResultPattern.test(content)] (on a regex object created just
    before) and [content.match(toolResultPattern)?.[0]] find it. *)
Fixpoint firstMatch (s : jsstring) : option jsstring :=
  match matchHere s with
  | Some m => Some m
  | None =>
      match s with
      | [] => None
      | _ :: r => firstMatch r
      end
  end.

(** [toolResultPattern.test(content)] *)
Definition test (s : jsstring) : bool :=
  match firstMatch s with Some _ => true | None => false end.

(** [content.match(toolResultPattern)?.[0] || content] *)
Definition toolContentOf (s : jsstring) : jsstring :=
  match firstMatch s with
  | Some m => if truthy m then m else s
  | None => s
  end.

(** A step makes a condition visible when it changes the error banner or
    writes to the console. *)
Definition reports (before after : Hook) : Prop :=
  error after <> error before \/ console after <> console before.

Section WithClock.

(** [Date.now()]: the [n]-th reading of the clock. *)
Variable Date_now : nat -> Z.

Definition now (st : Hook) : Z := Date_now (clockReads st).

(** The updater passed to [setMessages] for a content chunk, with the two
    clock readings it takes when it splits. *)
Definition contentUpdater (t1 t2 : Z) (chunkContent : jsstring)
    (prev : list ChatMessage) : list ChatMessage :=
  let updated := prev in
  match last updated with
  | Some lastMsg =>
      if bool_decide (sender lastMsg = ai) then
        if test chunkContent then
          updated
            ++ [{| sender := tool; content := toolContentOf chunkContent;
                   timestamp := Some t1 |}]
            ++ [{| sender := ai; content := []; timestamp := Some t2 |}]
        else
          <[(length updated - 1)%nat :=
              {| sender := sender lastMsg;
                 content := content lastMsg ++ chunkContent;
                 timestamp := timestamp lastMsg |}]> updated
      else updated
  | None => updated
  end.

(** Does the updater read the clock on this transcript? *)
Definition splits (chunkContent : jsstring) (prev : list ChatMessage)
    : bool :=
  match last prev with
  | Some lastMsg => bool_decide (sender lastMsg = ai) && test chunkContent
  | None => false
  end.

(** The callback handed to [chatAPI.sendMessageStream]; [h] is the
    [streamTracker] the closure captured. *)
Definition onChunk (h : nat) (chunk : StreamChunk) (st : Hook) : Hook :=
  if isAborted h st then writeConsole LogStreamAborted st
  else
    match chunk_type chunk, chunk_content chunk with
    | T_content, Some c =>
        if truthy c then
          let t1 := now st in
          let t2 := now (tick st) in
          let st1 := setMessages (contentUpdater t1 t2 c) st in
          if splits c (messages st) then tick (tick st1) else st1
        else st
    | T_content, None => st
    | T_done, _ =>
        if negb (isAborted h st) then
          let st1 := setIsLoading false st in
          if bool_decide (activeStreamRef st1 = Some h)
          then setActiveStreamRef None st1
          else st1
        else st
    | T_error, _ =>
        if negb (isAborted h st) then
          let msg := match chunk_error chunk with
                     | Some e => if truthy e then e
                                 else js "Stream error occurred"
                     | None => js "Stream error occurred"
                     end in
          setIsLoading false (setError (Some msg) st)
        else st
    end.

(** [sessionId || currentSessionId] *)
Definition targetOf (sessionId : option jsstring) (st : Hook)
    : option jsstring :=
  match sessionId with
  | Some s => if truthy s then Some s else currentSessionId st
  | None => currentSessionId st
  end.

(** [sendMessageStream] up to the [await]: everything that runs before
    the request is issued.  [inl] when the function throws at once. *)
Definition startStream (userInput : jsstring) (sessionId : option jsstring)
    (st : Hook) : Thrown + (nat * jsstring * Hook) :=
  match targetOf sessionId st with
  | None => inl (ErrorObject (js "No active session"))
  | Some targetSessionId =>
      if negb (truthy targetSessionId) then
        inl (ErrorObject (js "No active session"))
      else
        (* Abort previous stream if exists *)
        let st := match activeStreamRef st with
                  | Some p => abortTracker p st
                  | None => st
                  end in
        (* Create new stream tracker *)
        let h := length (trackers st) in
        let st := setTrackers
                    (trackers st
                     ++ [{| sessionId := targetSessionId;
                            aborted := false |}]) st in
        let st := setActiveStreamRef (Some h) st in
        let st := setError None st in
        let st := setIsLoading true st in
        let st := match sessionId with
                  | Some s =>
                      if truthy s
                         && negb (bool_decide (Some s = currentSessionId st))
                      then setCurrentSessionId (Some s) st
                      else st
                  | None => st
                  end in
        (* Add user message *)
        let userMessage := {| sender := human; content := userInput;
                              timestamp := Some (now st) |} in
        let st := tick st in
        let st := setMessages (fun prev => prev ++ [userMessage]) st in
        (* Add placeholder for AI message *)
        let aiMessage := {| sender := ai; content := [];
                            timestamp := Some (now st) |} in
        let st := tick st in
        let st := setMessages (fun prev => prev ++ [aiMessage]) st in
        inr (h, targetSessionId, st)
  end.

(** [err instanceof Error ? err.message : "Failed to send message"] *)
Definition messageOf (err : Thrown) : jsstring :=
  match err with
  | ErrorObject m => m
  | OtherValue => js "Failed to send message"
  end.

(** [prev.slice(0, -2)] *)
Definition dropLastTwo (prev : list ChatMessage) : list ChatMessage :=
  take (length prev - 2) prev.

(** The [catch] block (the error is thrown again after it). *)
Definition onCatch (h : nat) (err : Thrown) (st : Hook) : Hook :=
  if negb (isAborted h st) then
    let errorMessage := messageOf err in
    let st := setError (Some errorMessage) st in
    let st := writeConsole (ErrMessage errorMessage) st in
    (* Remove failed messages *)
    setMessages dropLastTwo st
  else st.

(** The [finally] block. *)
Definition onFinally (h : nat) (st : Hook) : Hook :=
  if negb (isAborted h st) then setIsLoading false st else st.

Variable JSON_parse : jsstring -> option EventData.

(** [useChat().sendMessageStream(userInput, sessionId)] run from start to
    settlement against what the network delivers, with no other call of
    the hook in between. *)
Definition sendMessageStream (userInput : jsstring)
    (sessionId : option jsstring) (net : FetchResult) (st : Hook)
    : Hook * Completion :=
  match startStream userInput sessionId st with
  | inl e => (st, Throws e)
  | inr (h, targetSessionId, st1) =>
      match Api.sendMessageStream JSON_parse writeConsole (onChunk h)
              targetSessionId userInput net st1 with
      | (st2, Returns) => (onFinally h st2, Returns)
      | (st2, Throws e) => (onFinally h (onCatch h e st2), Throws e)
      end
  end.

(** The state of the hook when the API call has handled the successful
    reads of a body, before the loop learns how the body ends. *)
Definition afterReads (h : nat) (target : jsstring)
    (values : list (list Z)) (st1 : Hook) : Hook :=
  snd (readLoop (handleLine JSON_parse writeConsole (onChunk h))
         values (newReader, writeConsole (LogApiStart target) st1)).

End WithClock.

End UseChat.

(** ** Sample data

    Concrete inputs on which the statements below are exercised. *)

Module Samples.

Import Api UseChat.

(** A literal in which the backquote stands for the double quote of the
    wire text. *)
Definition jsq (s : string) : jsstring :=
  map (fun c => if (c =? 96)%Z then 34%Z else c) (js s).
Arguments jsq s%_string.

(** Payload texts of the samples, with the record [JSON.parse] makes of
    each. *)
Definition knownPayloads : list (jsstring * EventData) :=
  [ (jsq "{`type`:`tool_call`,`tool`:`search`}",
     {| data_type := Some (js "tool_call"); data_content := None;
        data_tool := Some (js "search"); data_message := None |});
    (jsq "{`type`:`content`,`content`:`Hi`}",
     {| data_type := Some (js "content"); data_content := Some (js "Hi");
        data_tool := None; data_message := None |});
    (jsq "{`type`:`content`,`content`:`{'path': '/tmp/out.csv'}`}",
     {| data_type := Some (js "content");
        data_content := Some (js "{'path': '/tmp/out.csv'}");
        data_tool := None; data_message := None |});
    (jsq "{`type`:`content`,`content`:` there`}",
     {| data_type := Some (js "content");
        data_content := Some (js " there");
        data_tool := None; data_message := None |});
    (jsq "{`type`:`end`}",
     {| data_type := Some (js "end"); data_content := None;
        data_tool := None; data_message := None |}) ].

(** [JSON.parse] on the sample payloads; every other text is taken as
    malformed. *)
Definition parseKnown (text : jsstring) : option EventData :=
  snd <$> find (fun p => jsstring_eqb (fst p) text) knownPayloads.

(** Bytes of an ASCII text. *)
Definition bytesOf (text : jsstring) : list Z := text.

Definition clock (n : nat) : Z := 1700000000000 + Z.of_nat n.

(** The hook with a current session and nothing else. *)
Definition idle : Hook :=
  {| currentSessionId := Some (js "s1"); messages := [];
     isLoading := false; error := None; trackers := [];
     activeStreamRef := None; console := []; clockReads := 0 |}.

(** A live tracker while the transcript ends with a human message. *)
Definition humanLast : Hook :=
  {| currentSessionId := Some (js "s1");
     messages := [{| sender := human; content := js "hello";
                     timestamp := Some 5%Z |}];
     isLoading := true; error := None;
     trackers := [{| sessionId := js "s1"; aborted := false |}];
     activeStreamRef := Some 0%nat; console := []; clockReads := 0 |}.

(** A stale tracker (index 0) next to a live one (index 1), mid-stream. *)
Definition restarted : Hook :=
  {| currentSessionId := Some (js "s1");
     messages := [{| sender := human; content := js "hello";
                     timestamp := Some 5%Z |};
                  {| sender := ai; content := js "Hi";
                     timestamp := Some 6%Z |}];
     isLoading := true; error := None;
     trackers := [{| sessionId := js "s1"; aborted := true |};
                  {| sessionId := js "s1"; aborted := false |}];
     activeStreamRef := Some 1%nat; console := []; clockReads := 2 |}.

(** One read carrying one complete event line. *)
Definition hiLine : list Z :=
  bytesOf (jsq "data: {`type`:`content`,`content`:`Hi`}" ++ [LF]).

Definition pathLine : list Z :=
  bytesOf (jsq "data: {`type`:`content`,`content`:`{'path': '/tmp/out.csv'}`}"
           ++ [LF]).

(** Three event lines, cut into reads in the middle of the second line and
    in the middle of the third. *)
Definition helloReads : list (list Z) :=
  [ bytesOf (jsq "data: {`type`:`content`,`content`:`Hi`}" ++ [LF]
             ++ jsq "data: {`type`:`cont");
    bytesOf (jsq "ent`,`content`:` there`}" ++ [LF] ++ jsq "data: {`ty");
    bytesOf (jsq "pe`:`end`}" ++ [LF]) ].

Definition okResponse (values : list (list Z)) (e : ReadEnd) : FetchResult :=
  FetchResolves
    {| ok := true; status := 200;
       body := Some {| reads := values; ending := e |} |}.

End Samples.

(** ** The chunks of one line *)

Module Events.

Import Api.

(** The chunks the loop body hands to the callback for one line. *)
Definition lineChunks (JSON_parse : jsstring -> option EventData)
    (line : jsstring) : list StreamChunk :=
  handleLine JSON_parse (fun _ s => s) (fun c s => s ++ [c]) line [].

(** The content chunks carrying the given texts. *)
Definition contentChunks (texts : list jsstring) : list StreamChunk :=
  map (fun c => contentChunk (Some c)) texts.

(** The error [RealChatAPI.sendMessageStream] throws before it reads any
    frame, if what the network delivers makes it do so. *)
Definition requestFailure (net : FetchResult) : option Thrown :=
  match net with
  | FetchRejects e => Some e
  | FetchResolves response =>
      if negb (ok response) then
        Some (ErrorObject (js "API Error " ++ digits (status response)))
      else
        match body response with
        | None => Some (ErrorObject (js "No response body"))
        | Some _ => None
        end
  end.

(** A byte of the ASCII range. *)
Definition isAscii (b : Z) : Prop := (0 <= b <= 127)%Z.

End Events.

(** ** [lib/api.ts], the request wrappers *)

Module Rest.

Import UseChat.

(** How a [fetch] settles. *)
Inductive Fetched (R : Type) :=
  | Rejected (e : Thrown)
  | Resolved (r : R).
Arguments Rejected {R} e.
Arguments Resolved {R} r.

(** A [Response] whose body, read as JSON, has type [T]: what
    [response.text()] and [response.json()] settle with. *)
Record HttpResponse (T : Type) := {
  http_ok : bool;
  http_status : Z;
  http_text : Thrown + jsstring;
  http_json : Thrown + T
}.
Arguments http_ok {T} _.
Arguments http_status {T} _.
Arguments http_text {T} _.
Arguments http_json {T} _.

(** What [handleResponse] returns: the parsed body, or the object
    [{ success: true }] that stands in for an empty 204 answer. *)
Inductive Handled (T : Type) :=
  | Parsed (v : T)
  | SuccessOnly.
Arguments Parsed {T} v.
Arguments SuccessOnly {T}.

(** [RealChatAPI.handleResponse] *)
Definition handleResponse {T : Type} (response : HttpResponse T)
    : Thrown + Handled T :=
  if negb (http_ok response) then
    match http_text response with
    | inl e => inl e
    | inr errorText =>
        inl (ErrorObject (js "API Error " ++ digits (http_status response)
                          ++ js ": " ++ errorText))
    end
  else if (http_status response =? 204)%Z then inr SuccessOnly
  else
    match http_json response with
    | inl e => inl e
    | inr v => inr (Parsed v)
    end.

(** Console lines of the wrappers. *)
Inductive RestEntry :=
  | LogCreating
      (* console.log("[API] Creating new chat session...") *)
  | LogCreated (session_id : option jsstring)
      (* console.log("[API] New session created:", result.session_id) *)
  | LogSending (sessionId : jsstring)
      (* console.log("[API] Sending message to session:", sessionId) *)
  | LogReceived
      (* console.log("[API] Received AI response") *)
  | LogFetching (sessionId : jsstring)
      (* console.log("[API] Fetching messages for session:", sessionId) *)
  | LogFound (n : nat)
      (* console.log("[API] Found messages:", result.message.length) *)
  | LogUploading (name : jsstring)
      (* console.log("[API] Uploading file:", file.name) *)
  | LogUploaded (result : jsstring).
      (* console.log("[API] File uploaded:", result) *)

(** What the upload request is answered with. *)
Record UploadResponse := {
  upload_ok : bool;
  upload_code : Z;
  upload_body : Thrown + jsstring    (* response.text() *)
}.

(** [RealChatAPI.uploadFile], for a file of the given name. *)
Definition uploadFile (name : jsstring) (net : Fetched UploadResponse)
    : list RestEntry * (Thrown + jsstring) :=
  match net with
  | Rejected e => ([LogUploading name], inl e)
  | Resolved response =>
      if negb (upload_ok response) then
        ([LogUploading name],
         inl (ErrorObject (js "Upload failed: "
                           ++ digits (upload_code response))))
      else
        match upload_body response with
        | inl e => ([LogUploading name], inl e)
        | inr result => ([LogUploading name; LogUploaded result], inr result)
        end
  end.

(** [interface ChatSession]; the field is [None] when the answer lacks it. *)
Record ChatSession := {
  session_id : option jsstring
}.

(** [RealChatAPI.createNewChat]: the lines it logs and how it settles. *)
Definition createNewChat (net : Fetched (HttpResponse ChatSession))
    : list RestEntry * (Thrown + ChatSession) :=
  match net with
  | Rejected e => ([LogCreating], inl e)
  | Resolved response =>
      match handleResponse response with
      | inl e => ([LogCreating], inl e)
      | inr handled =>
          let result := match handled with
                        | Parsed v => v
                        | SuccessOnly => {| session_id := None |}
                        end in
          ([LogCreating; LogCreated (session_id result)], inr result)
      end
  end.

(** The JSON of the non-streaming chat answer; [None] when it has no
    [conversation]. *)
Record ChatResult := {
  result_conversation : option (list jsstring)
}.

(** [interface ChatResponse] *)
Record ChatResponse := {
  conversation : list jsstring
}.

(** [RealChatAPI.sendMessage], the non-streaming call. *)
Definition sendMessage (sessionId userInput : jsstring)
    (net : Fetched (HttpResponse ChatResult))
    : list RestEntry * (Thrown + ChatResponse) :=
  match net with
  | Rejected e => ([LogSending sessionId], inl e)
  | Resolved response =>
      match handleResponse response with
      | inl e => ([LogSending sessionId], inl e)
      | inr handled =>
          let answered := match handled with
                          | Parsed v => result_conversation v
                          | SuccessOnly => None
                          end in
          ([LogSending sessionId; LogReceived],
           inr {| conversation :=
                    match answered with
                    | Some c => c
                    | None => [userInput; js "No response received"]
                    end |})
      end
  end.

(** The [content] of a stored message as it comes off the wire: a string,
    an object or array (given with the text [JSON.stringify(_, null, 2)]
    makes of it), [null] or nothing, or a number or boolean (given with the
    text [String(_)] makes of it). *)
Inductive WireContent :=
  | WString (s : jsstring)
  | WObject (pretty : jsstring)
  | WNullish
  | WPrimitive (text : jsstring).

(** One element of [response.message]; [wire_sender] is [None] when the
    element has no sender or an empty one. *)
Record WireMessage := {
  wire_sender : option Sender;
  wire_content : WireContent
}.

(** The JSON of the history answer; [None] when it has no [message]. *)
Record MessagesResult := {
  result_message : option (list WireMessage)
}.

(** [interface MessagesResponse] *)
Record MessagesResponse := {
  message : list WireMessage
}.

Section History.

(** The [TypeError] of reading [length] of [undefined]; its message is the
    engine's. *)
Variable lengthOfUndefined : jsstring.

(** [RealChatAPI.getMessagesBySession] *)
Definition getMessagesBySession (sessionId : jsstring)
    (net : Fetched (HttpResponse MessagesResult))
    : list RestEntry * (Thrown + MessagesResponse) :=
  match net with
  | Rejected e => ([LogFetching sessionId], inl e)
  | Resolved response =>
      match handleResponse response with
      | inl e => ([LogFetching sessionId], inl e)
      | inr handled =>
          let found := match handled with
                       | Parsed v => result_message v
                       | SuccessOnly => None
                       end in
          match found with
          | Some items =>
              ([LogFetching sessionId; LogFound (length items)],
               inr {| message := items |})
          | None =>
              ([LogFetching sessionId], inl (ErrorObject lengthOfUndefined))
          end
      end
  end.

End History.

End Rest.

(** ** [hooks/use-chat.ts], the other callbacks *)

Module Sessions.

Import Api UseChat Rest.

(** [stringifyContent] *)
Definition stringifyContent (content : WireContent) : jsstring :=
  match content with
  | WString s => s
  | WObject pretty => pretty
  | WNullish => []
  | WPrimitive text => text
  end.

(** [err instanceof Error ? err.message : fallback] *)
Definition messageOr (fallback : jsstring) (err : Thrown) : jsstring :=
  match err with
  | ErrorObject m => m
  | OtherValue => fallback
  end.

(** The [if (activeStreamRef.current)] block of [loadSession] and
    [clearSession]. *)
Definition abortActive (st : Hook) : Hook :=
  match activeStreamRef st with
  | Some h => setActiveStreamRef None (abortTracker h st)
  | None => st
  end.

(** [clearError] *)
Definition clearError (st : Hook) : Hook := setError None st.

(** [prev.slice(0, -1)] *)
Definition dropLast (prev : list ChatMessage) : list ChatMessage :=
  take (length prev - 1) prev.

Inductive UploadStatus := uploading | success | failed.

Record UploadProgress := {
  upload_fileName : jsstring;
  upload_status : UploadStatus
}.

(** The hook together with its [uploadProgress] cell and the number of
    timers, set by [setTimeout(() => setUploadProgress(null), 3000)], that
    have not fired yet. *)
Record Chat := {
  hook : Hook;
  uploadProgress : option UploadProgress;
  clearTimers : nat
}.

(** [clearSession] *)
Definition clearSession (c : Chat) : Chat :=
  let st := abortActive (hook c) in
  let st := setCurrentSessionId None st in
  let st := setMessages (fun _ => []) st in
  let st := setError None st in
  {| hook := st; uploadProgress := None; clearTimers := clearTimers c |}.

(** [uploadFile] of the hook up to its [await]. *)
Definition uploadFile_begin (name : jsstring) (c : Chat) : Chat :=
  {| hook := setError None (hook c);
     uploadProgress := Some {| upload_fileName := name;
                               upload_status := uploading |};
     clearTimers := clearTimers c |}.

(** [uploadFile] of the hook from the moment [chatAPI.uploadFile(file)]
    settles. *)
Definition uploadFile_settle (name : jsstring) (outcome : Thrown + jsstring)
    (c : Chat) : Chat * (Thrown + jsstring) :=
  match outcome with
  | inr result =>
      ({| hook := hook c;
          uploadProgress := Some {| upload_fileName := name;
                                    upload_status := success |};
          clearTimers := Datatypes.S (clearTimers c) |}, inr result)
  | inl err =>
      let errorMessage := messageOr (js "Failed to upload file") err in
      ({| hook := setError (Some errorMessage) (hook c);
          uploadProgress := Some {| upload_fileName := name;
                                    upload_status := failed |};
          clearTimers := Datatypes.S (clearTimers c) |}, inl err)
  end.

(** One of the timers fires: [setUploadProgress(null)]. *)
Definition timerFires (c : Chat) : Chat :=
  match clearTimers c with
  | O => c
  | Datatypes.S n =>
      {| hook := hook c; uploadProgress := None; clearTimers := n |}
  end.

(** [uploadFile] of the hook, with nothing else in between. *)
Definition uploadFile (name : jsstring) (net : Fetched UploadResponse)
    (c : Chat) : Chat * (Thrown + jsstring) :=
  uploadFile_settle name (snd (Rest.uploadFile name net))
    (uploadFile_begin name c).

Section WithClock.

Variable Date_now : nat -> Z.

(** [createNewSession] up to its [await]. *)
Definition createNewSession_begin (st : Hook) : Hook :=
  setIsLoading true (setError None st).

(** [createNewSession] from the moment [chatAPI.createNewChat()] settles. *)
Definition createNewSession_settle (outcome : Thrown + ChatSession)
    (st : Hook) : Hook * (Thrown + option jsstring) :=
  match outcome with
  | inr response =>
      let st := setCurrentSessionId (session_id response) st in
      let st := setMessages (fun _ => []) st in
      (setIsLoading false st, inr (session_id response))
  | inl err =>
      let errorMessage := messageOr (js "Failed to create new session") err in
      let st := setError (Some errorMessage) st in
      let st := writeConsole (ErrMessage errorMessage) st in
      (setIsLoading false st, inl err)
  end.

(** [createNewSession], with nothing else in between. *)
Definition createNewSession (net : Fetched (HttpResponse ChatSession))
    (st : Hook) : Hook * (Thrown + option jsstring) :=
  createNewSession_settle (snd (createNewChat net))
    (createNewSession_begin st).

(** [response.message.map(...)]: every element becomes a message stamped
    with its own clock reading, the [n]-th reading for the first one. *)
Fixpoint mapMessages (n : nat) (items : list WireMessage)
    : list ChatMessage :=
  match items with
  | [] => []
  | item :: rest =>
      {| sender := match wire_sender item with
                   | Some s => s
                   | None => ai
                   end;
         content := stringifyContent (wire_content item);
         timestamp := Some (Date_now n) |}
      :: mapMessages (Datatypes.S n) rest
  end.

(** [k] clock readings. *)
Fixpoint ticks (k : nat) (st : Hook) : Hook :=
  match k with
  | O => st
  | Datatypes.S k' => ticks k' (tick st)
  end.

(** [loadSession] up to its [await]. *)
Definition loadSession_begin (st : Hook) : Hook :=
  let st := abortActive st in
  let st := setError None st in
  setIsLoading true st.

(** [loadSession] from the moment [chatAPI.getMessagesBySession] settles. *)
Definition loadSession_settle (sessionId : jsstring)
    (outcome : Thrown + MessagesResponse) (st : Hook)
    : Hook * Completion :=
  match outcome with
  | inr response =>
      let st := setCurrentSessionId (Some sessionId) st in
      let mappedMessages := mapMessages (clockReads st) (message response) in
      let st := ticks (length (message response)) st in
      let st := setMessages (fun _ => mappedMessages) st in
      (setIsLoading false st, Returns)
  | inl err =>
      let errorMessage := messageOr (js "Failed to load session") err in
      let st := setError (Some errorMessage) st in
      let st := writeConsole (ErrMessage errorMessage) st in
      (setIsLoading false st, Throws err)
  end.

Variable lengthOfUndefined : jsstring.

(** [loadSession], with nothing else in between. *)
Definition loadSession (sessionId : jsstring)
    (net : Fetched (HttpResponse MessagesResult)) (st : Hook)
    : Hook * Completion :=
  loadSession_settle sessionId
    (snd (getMessagesBySession lengthOfUndefined sessionId net))
    (loadSession_begin st).

(** The non-streaming [sendMessage] up to its [await]; [inl] when it throws
    at once. *)
Definition sendMessage_begin (userInput : jsstring)
    (sessionId : option jsstring) (st : Hook)
    : Thrown + (jsstring * Hook) :=
  match targetOf sessionId st with
  | None => inl (ErrorObject (js "No active session"))
  | Some targetSessionId =>
      if negb (truthy targetSessionId) then
        inl (ErrorObject (js "No active session"))
      else
        let st := setError None st in
        let st := setIsLoading true st in
        let st := match sessionId with
                  | Some s =>
                      if truthy s
                         && negb (bool_decide (Some s = currentSessionId st))
                      then setCurrentSessionId (Some s) st
                      else st
                  | None => st
                  end in
        let userMessage := {| sender := human; content := userInput;
                              timestamp := Some (now Date_now st) |} in
        let st := tick st in
        let st := setMessages (fun prev => prev ++ [userMessage]) st in
        inr (targetSessionId, st)
  end.

(** [response.conversation.slice(1).map(...)] with its clock readings. *)
Fixpoint aiMessagesOf (n : nat) (contents : list jsstring)
    : list ChatMessage :=
  match contents with
  | [] => []
  | c :: rest =>
      {| sender := ai; content := c; timestamp := Some (Date_now n) |}
      :: aiMessagesOf (Datatypes.S n) rest
  end.

(** The non-streaming [sendMessage] from the moment
    [chatAPI.sendMessage] settles. *)
Definition sendMessage_settle (outcome : Thrown + ChatResponse) (st : Hook)
    : Hook * Completion :=
  match outcome with
  | inr response =>
      let replies := drop 1 (conversation response) in
      let aiMessages := aiMessagesOf (clockReads st) replies in
      let st := ticks (length replies) st in
      let st := setMessages (fun prev => prev ++ aiMessages) st in
      (setIsLoading false st, Returns)
  | inl err =>
      let errorMessage := messageOr (js "Failed to send message") err in
      let st := setError (Some errorMessage) st in
      let st := writeConsole (ErrMessage errorMessage) st in
      let st := setMessages dropLast st in
      (setIsLoading false st, Throws err)
  end.

(** The non-streaming [sendMessage], with nothing else in between. *)
Definition sendMessage (userInput : jsstring) (sessionId : option jsstring)
    (net : Fetched (HttpResponse ChatResult)) (st : Hook)
    : Hook * Completion :=
  match sendMessage_begin userInput sessionId st with
  | inl e => (st, Throws e)
  | inr (targetSessionId, st1) =>
      sendMessage_settle (snd (Rest.sendMessage targetSessionId userInput net))
        st1
  end.

Variable JSON_parse : jsstring -> option EventData.

(** What the network holds for one call of [sendMessageWithAutoSession]:
    the answers to the requests it may issue. *)
Record AutoNet := {
  forCreate : Fetched (HttpResponse ChatSession);
  forStream : FetchResult;
  forSend : Fetched (HttpResponse ChatResult)
}.

(** The [if (useStreaming)] choice between the two senders. *)
Definition sendEither (useStreaming : bool) (userInput : jsstring)
    (sessionId : option jsstring) (net : AutoNet) (st : Hook)
    : Hook * Completion :=
  if useStreaming then
    UseChat.sendMessageStream Date_now JSON_parse userInput sessionId
      (forStream net) st
  else sendMessage userInput sessionId (forSend net) st.

(** [sendMessageWithAutoSession]: the state it leaves, the errors it logs
    with [console.error("Failed to send message with auto session:", err)],
    and how it settles. *)
Definition sendMessageWithAutoSession (userInput : jsstring)
    (useStreaming : bool) (net : AutoNet) (st : Hook)
    : Hook * list Thrown * Completion :=
  let hasSession := match currentSessionId st with
                    | Some s => truthy s
                    | None => false
                    end in
  let '(st', outcome) :=
    if negb hasSession then
      match createNewSession (forCreate net) st with
      | (st1, inl e) => (st1, Throws e)
      | (st1, inr newSessionId) =>
          match newSessionId with
          | Some s =>
              if truthy s then sendEither useStreaming userInput (Some s) net st1
              else (st1, Returns)
          | None => (st1, Returns)
          end
      end
    else sendEither useStreaming userInput None net st in
  match outcome with
  | Returns => (st', [], Returns)
  | Throws e => (st', [e], Throws e)
  end.

End WithClock.

(** The synchronous pieces of the hook's callbacks, as steps of a run in
    which chunks, failures and user actions interleave. *)
Inductive Step (Date_now : nat -> Z) : Hook -> Hook -> Prop :=
  | step_start userInput sessionId st h target st' :
      startStream Date_now userInput sessionId st = inr (h, target, st') ->
      Step Date_now st st'
  | step_chunk h chunk st :
      Step Date_now st (onChunk Date_now h chunk st)
  | step_console e st :
      Step Date_now st (writeConsole e st)
  | step_catch h err st :
      Step Date_now st (onCatch h err st)
  | step_finally h st :
      Step Date_now st (onFinally h st)
  | step_clearSession c :
      Step Date_now (hook c) (hook (clearSession c))
  | step_clearError st :
      Step Date_now st (clearError st)
  | step_upload_begin name c :
      Step Date_now (hook c) (hook (uploadFile_begin name c))
  | step_upload_settle name outcome c :
      Step Date_now (hook c) (hook (fst (uploadFile_settle name outcome c)))
  | step_timer c :
      Step Date_now (hook c) (hook (timerFires c))
  | step_create_begin st :
      Step Date_now st (createNewSession_begin st)
  | step_create_settle outcome st :
      Step Date_now st (fst (createNewSession_settle outcome st))
  | step_load_begin st :
      Step Date_now st (loadSession_begin st)
  | step_load_settle sessionId outcome st :
      Step Date_now st (fst (loadSession_settle Date_now sessionId outcome st))
  | step_send_begin userInput sessionId st target st' :
      sendMessage_begin Date_now userInput sessionId st = inr (target, st') ->
      Step Date_now st st'
  | step_send_settle outcome st :
      Step Date_now st (fst (sendMessage_settle Date_now outcome st)).

(** Runs: any number of steps. *)
Inductive Run (Date_now : nat -> Z) : Hook -> Hook -> Prop :=
  | run_nil st : Run Date_now st st
  | run_step st1 st2 st3 :
      Run Date_now st1 st2 -> Step Date_now st2 st3 -> Run Date_now st1 st3.

(** What can still happen for a stream once its request is out: a chunk
    arrives, the request fails, the call is left. *)
Inductive StreamEvent :=
  | Arrives (chunk : StreamChunk)
  | Fails (err : Thrown)
  | Leaves.

Definition applyEvent (Date_now : nat -> Z) (h : nat) (ev : StreamEvent)
    (st : Hook) : Hook :=
  match ev with
  | Arrives chunk => onChunk Date_now h chunk st
  | Fails err => onCatch h err st
  | Leaves => onFinally h st
  end.

Definition applyEvents (Date_now : nat -> Z) (h : nat)
    (evs : list StreamEvent) (st : Hook) : Hook :=
  fold_left (fun s ev => applyEvent Date_now h ev s) evs st.

(** Two states of the hook that differ in the console at most. *)
Definition sameButConsole (a b : Hook) : Prop :=
  currentSessionId a = currentSessionId b /\ messages a = messages b /\
  isLoading a = isLoading b /\ error a = error b /\
  trackers a = trackers b /\ activeStreamRef a = activeStreamRef b /\
  clockReads a = clockReads b.

(** Trackers are kept, with their session, and stay aborted once they
    are. *)
Definition keepsTrackers (a b : Hook) : Prop :=
  forall h t, trackers a !! h = Some t ->
    exists t', trackers b !! h = Some t' /\
      UseChat.sessionId t' = UseChat.sessionId t /\
      (aborted t = true -> aborted t' = true).

(** The hook as [useChat] creates it. *)
Definition initial : Hook :=
  {| currentSessionId := None; messages := []; isLoading := false;
     error := None; trackers := []; activeStreamRef := None;
     console := []; clockReads := 0 |}.

(** The reference in [activeStreamRef], when there is one, is to a tracker
    that exists and is not aborted. *)
Definition activeIsLive (st : Hook) : Prop :=
  forall h, activeStreamRef st = Some h ->
    exists t, trackers st !! h = Some t /\ aborted t = false.




End Sessions.

(** ** [components/chat-message.tsx], the text helpers *)

Module ChatMessageView.

(** [s.split(sep)] for a one-character separator. *)
Fixpoint splitOn (sep : Z) (s : jsstring) : list jsstring :=
  match s with
  | [] => [[]]
  | c :: r =>
      if (c =? sep)%Z then [] :: splitOn sep r
      else match splitOn sep r with
           | x :: xs => (c :: x) :: xs
           | [] => [[c]]
           end
  end.

(** [lines.join("\n")] *)
Fixpoint join_LF (lines : list jsstring) : jsstring :=
  match lines with
  | [] => []
  | l :: rest =>
      match rest with
      | [] => l
      | _ :: _ => l ++ [LF] ++ join_LF rest
      end
  end.

(** The [for] loop of [cleanToolOutput], with the set [seen] it carries. *)
Fixpoint uniqueLines (seen : gset jsstring) (lines : list jsstring)
    : list jsstring :=
  match lines with
  | [] => []
  | line :: rest =>
      let trimmed := trim line in
      if truthy trimmed then
        if bool_decide (trimmed ∈ seen) then uniqueLines seen rest
        else line :: uniqueLines ({[trimmed]} ∪ seen) rest
      else line :: uniqueLines seen rest
  end.

(** [cleanToolOutput] *)
Definition cleanToolOutput (content : jsstring) : jsstring :=
  join_LF (uniqueLines ∅ (split_LF content)).

(** [firstLine.substring(0, 60) + "..."] when the line is longer than 60,
    the line otherwise. *)
Definition clip (firstLine : jsstring) : jsstring :=
  if bool_decide (60 < length firstLine)%nat then take 60 firstLine ++ js "..."
  else firstLine.

(** [getToolSummary] *)
Definition getToolSummary (content : jsstring) : jsstring :=
  let cleaned := cleanToolOutput content in
  let lines := filter (fun line => truthy (trim line) = true)
                 (split_LF cleaned) in
  match lines with
  | [] => js "Tool output"
  | first :: _ => clip (trim first)
  end.

(** [getFileName]: [path.split("/").pop()] *)
Definition getFileName (path : jsstring) : option jsstring :=
  last (splitOn 47 path).

End ChatMessageView.

(** ** [components/message-input.tsx] *)

Module MessageInput.

Section Input.

(** The browser's [File] objects. *)
Variable File : Type.

(** The component's state cells. *)
Record State := {
  message : jsstring;
  selectedFile : option File
}.

(** What [handleSend] does to the outside. *)
Inductive Action :=
  | Upload (file : File)          (* onFileUpload(selectedFile) *)
  | LogUploadFailed (err : Thrown) (* console.error("File upload failed:", err) *)
  | Send (text : jsstring).       (* onSendMessage(message.trim()) *)

(** The last [if] of [handleSend]: send the trimmed message, if any, and
    empty the box. *)
Definition sendPart (st : State) (done : list Action) : State * list Action :=
  if truthy (trim (message st)) then
    ({| message := []; selectedFile := selectedFile st |},
     done ++ [Send (trim (message st))])
  else (st, done).

(** [handleSend].  [hasUpload] tells whether the [onFileUpload] prop is
    given, [upload] how its promise settles when it is called. *)
Definition handleSend (disabled hasUpload : bool) (upload : Completion)
    (st : State) : State * list Action :=
  if negb (truthy (trim (message st)))
     && negb (bool_decide (is_Some (selectedFile st))) then (st, [])
  else if disabled then (st, [])
  else
    match selectedFile st with
    | Some file =>
        if hasUpload then
          match upload with
          | Returns =>
              let '(st', acts) := sendPart st [Upload file] in
              ({| message := message st'; selectedFile := None |}, acts)
          | Throws err => (st, [Upload file; LogUploadFailed err])
          end
        else sendPart st []
    | None => sendPart st []
    end.

End Input.

End MessageInput.

(** ** [components/session-selector.tsx] *)

Module SessionSelector.

(** The component's state cells that [handleConfirmDelete] works on. *)
Record State := {
  sessions : list jsstring;
  isDeleting : option jsstring;
  deleteDialogOpen : bool;
  sessionToDelete : option jsstring
}.

(** [handleConfirmDelete]: the state it leaves and its calls of
    [onSessionChange], given the current session and how
    [chatAPI.deleteSession] settles ([console.error] on failure). *)
Definition handleConfirmDelete (currentSessionId : option jsstring)
    (deleted : Completion) (st : State)
    : State * list (option jsstring) :=
  match sessionToDelete st with
  | None => (st, [])
  | Some target =>
      if negb (truthy target) then (st, [])
      else
        match deleted with
        | Returns =>
            ({| sessions :=
                  filter (fun id => id <> target) (sessions st);
                isDeleting := None; deleteDialogOpen := false;
                sessionToDelete := None |},
             if bool_decide (Some target = currentSessionId)
             then [None] else [])
        | Throws _ =>
            ({| sessions := sessions st;
                isDeleting := None; deleteDialogOpen := false;
                sessionToDelete := None |}, [])
        end
  end.

End SessionSelector.

(** ** [app/page.tsx], the session handler *)

Module ChatPage.

Import UseChat Rest Sessions.

Section Page.

Variable Date_now : nat -> Z.
Variable lengthOfUndefined : jsstring.

(** [handleSessionChange]: load the session when an id is given, clear the
    chat otherwise; a failure of the load is logged with
    [console.error("Failed to load session:", err)] and not thrown on. *)
Definition handleSessionChange (sessionId : option jsstring)
    (net : Fetched (HttpResponse MessagesResult)) (c : Chat)
    : Chat * list Thrown :=
  match sessionId with
  | Some s =>
      if truthy s then
        match loadSession Date_now lengthOfUndefined s net (hook c) with
        | (st, Returns) =>
            ({| hook := st; uploadProgress := uploadProgress c;
                clearTimers := clearTimers c |}, [])
        | (st, Throws err) =>
            ({| hook := st; uploadProgress := uploadProgress c;
                clearTimers := clearTimers c |}, [err])
        end
      else (clearSession c, [])
  | None => (clearSession c, [])
  end.

End Page.

End ChatPage.

(** ** More sample data *)

Module MoreSamples.

Import Api UseChat Rest Sessions.

(** The hook of [Samples.restarted] with an upload notice showing. *)
Definition chatting : Chat :=
  {| hook := Samples.restarted;
     uploadProgress := Some {| upload_fileName := js "data.csv";
                               upload_status := success |};
     clearTimers := 1 |}.

(** A stored history of two messages, the second without sender and with an
    object for content. *)
Definition history : list WireMessage :=
  [ {| wire_sender := Some human; wire_content := WString (js "hello") |};
    {| wire_sender := None; wire_content := WObject (js "{ }") |} ].

Definition historyAnswer : HttpResponse MessagesResult :=
  {| http_ok := true; http_status := 200; http_text := inr [];
     http_json := inr {| result_message := Some history |} |}.

(** A server error with a text body. *)
Definition serverError (T : Type) : HttpResponse T :=
  {| http_ok := false; http_status := 500; http_text := inr (js "boom");
     http_json := inl OtherValue |}.

(** An answer without content. *)
Definition noContent (T : Type) : HttpResponse T :=
  {| http_ok := true; http_status := 204; http_text := inr [];
     http_json := inl OtherValue |}.

Definition chatAnswer : HttpResponse ChatResult :=
  {| http_ok := true; http_status := 200; http_text := inr [];
     http_json := inr {| result_conversation :=
                           Some [js "hello"; js "Hi"; js "Bye"] |} |}.

Definition typeError : jsstring :=
  js "Cannot read properties of undefined (reading 'length')".

(** The network of a call that cannot create its session. *)
Definition unreachable : AutoNet :=
  {| forCreate := Rejected (ErrorObject (js "Failed to fetch"));
     forStream := FetchRejects (ErrorObject (js "Failed to fetch"));
     forSend := Rejected (ErrorObject (js "Failed to fetch")) |}.

(** The network of a call whose new session comes without an id. *)
Definition anonymous : AutoNet :=
  {| forCreate := Resolved (noContent ChatSession);
     forStream := Samples.okResponse [Samples.hiLine] EndOfStream;
     forSend := Resolved chatAnswer |}.

(** The hook after a first turn has received the text ["Hi"] and a second
    turn has started: the first tracker is aborted, the second is the
    active one. *)
Definition twoStarts : Hook :=
  {| currentSessionId := Some (js "s1");
     messages := [{| sender := human; content := js "hello";
                     timestamp := Some 1700000000000%Z |};
                  {| sender := ai; content := js "Hi";
                     timestamp := Some 1700000000001%Z |};
                  {| sender := human; content := js "again";
                     timestamp := Some 1700000000002%Z |};
                  {| sender := ai; content := [];
                     timestamp := Some 1700000000003%Z |}];
     isLoading := true; error := None;
     trackers := [{| UseChat.sessionId := js "s1"; aborted := true |};
                  {| UseChat.sessionId := js "s1"; aborted := false |}];
     activeStreamRef := Some 1%nat; console := []; clockReads := 4 |}.

End MoreSamples.

(** * Properties *)

Import Api UseChat.

(** ** The hook's callback *)

Section HookFacts.

Variable Date_now : nat -> Z.

Lemma onChunk_trackers h chunk st :
  trackers (onChunk Date_now h chunk st) = trackers st.
Proof.
  unfold onChunk.
  destruct (isAborted h st); [reflexivity|].
  destruct (chunk_type chunk); simpl.
  - destruct (chunk_content chunk) as [c|]; [|reflexivity].
    destruct (truthy c); [|reflexivity].
    destruct (splits c (messages st)); reflexivity.
  - destruct (bool_decide _); reflexivity.
  - reflexivity.
Qed.

Lemma onChunk_isAborted h h' chunk st :
  isAborted h' (onChunk Date_now h chunk st) = isAborted h' st.
Proof. unfold isAborted. now rewrite onChunk_trackers. Qed.

End HookFacts.

(** ** The tool-output pattern *)

Lemma lazyUntilBrace_shape s m :
  lazyUntilBrace s = Some m ->
  exists inner rest,
    m = inner ++ [125%Z] /\ s = m ++ rest /\
    Forall (fun c => c <> 125%Z /\ isLineTerminator c = false) inner.
Proof.
  revert m. induction s as [|c r IH]; intros m; simpl; [discriminate|].
  destruct (Z.eqb_spec c 125) as [->|Hc].
  - intros [= <-]. exists [], r. repeat split. constructor.
  - destruct (isLineTerminator c) eqn:Hlt; [discriminate|].
    destruct (lazyUntilBrace r) as [m'|] eqn:Hr; simpl; [|discriminate].
    intros [= <-].
    destruct (IH m' eq_refl) as (inner & rest & -> & -> & Hall).
    exists (c :: inner), rest. repeat split. now constructor.
Qed.

Lemma startsWith_app p s :
  startsWith p s = true -> s = p ++ drop (length p) s.
Proof.
  revert s. induction p as [|c p IH]; intros s; simpl.
  - now rewrite drop_0.
  - destruct s as [|d s]; [discriminate|].
    intros [Hcd Hp]%andb_prop. apply Z.eqb_eq in Hcd. subst d.
    simpl. f_equal. now apply IH.
Qed.

(** A match of the pattern is the opening [{'path':], then characters that
    are neither a closing brace nor a line terminator, then a closing
    brace; it is a segment of the text. *)
Lemma matchHere_shape s m :
  matchHere s = Some m ->
  exists inner rest,
    m = pathOpen ++ inner ++ [125%Z] /\ s = m ++ rest /\
    Forall (fun c => c <> 125%Z /\ isLineTerminator c = false) inner.
Proof.
  unfold matchHere.
  destruct (startsWith pathOpen s) eqn:Hp; [|discriminate].
  destruct (lazyUntilBrace _) as [m'|] eqn:Hl; simpl; [|discriminate].
  intros [= <-].
  destruct (lazyUntilBrace_shape _ _ Hl) as (inner & rest & -> & Hd & Hall).
  exists inner, rest. split; [reflexivity|]. split; [|assumption].
  transitivity (pathOpen ++ drop (length pathOpen) s);
    [now apply startsWith_app|].
  rewrite Hd. apply app_assoc.
Qed.

Lemma firstMatch_shape s m :
  firstMatch s = Some m ->
  exists before inner rest,
    m = pathOpen ++ inner ++ [125%Z] /\ s = before ++ m ++ rest /\
    Forall (fun c => c <> 125%Z /\ isLineTerminator c = false) inner.
Proof.
  revert m. induction s as [|c r IH]; intros m.
  - discriminate.
  - cbn [firstMatch]. destruct (matchHere (c :: r)) eqn:E.
    + intros [= <-]. destruct (matchHere_shape _ _ E) as (i & t & ? & ? & ?).
      now exists [], i, t.
    + intros H. destruct (IH _ H) as (b & i & t & ? & -> & ?).
      now exists (c :: b), i, t.
Qed.

Lemma firstMatch_truthy s m :
  firstMatch s = Some m -> truthy m = true /\ truthy s = true.
Proof.
  intros H. destruct (firstMatch_shape _ _ H) as (b & i & t & -> & -> & _).
  split; [reflexivity|]. destruct b; reflexivity.
Qed.

(** ** What the callback does to the hook *)

Section Callback.

Variable Date_now : nat -> Z.

(** C1. A chunk of any type delivered on a tracker whose [aborted] flag is
    set leaves the transcript as it is, whatever the state of the hook. *)
Theorem aborted_chunk_keeps_transcript
    (h : nat) (t : StreamTracker) (chunk : StreamChunk) (st : Hook) :
  trackers st !! h = Some t ->
  aborted t = true ->
  messages (onChunk Date_now h chunk st) = messages st.
Proof.
  intros Hh Ha. unfold onChunk, isAborted. rewrite Hh, Ha. reflexivity.
Qed.

(** C10. A content chunk whose content is the empty string or is absent
    never changes the transcript. *)
Theorem empty_content_keeps_transcript
    (h : nat) (chunk : StreamChunk) (st : Hook) :
  chunk_type chunk = T_content ->
  chunk_content chunk = None \/ chunk_content chunk = Some [] ->
  messages (onChunk Date_now h chunk st) = messages st.
Proof.
  intros Ht Hc. unfold onChunk.
  destruct (isAborted h st); [reflexivity|].
  rewrite Ht. destruct Hc as [-> | ->]; reflexivity.
Qed.

(** C8. On a tracker that is not aborted, a first done chunk clears the
    loading flag and leaves the transcript alone, and a second done chunk
    changes nothing at all. *)
Theorem done_twice_is_done_once
    (h : nat) (chunk : StreamChunk) (st : Hook) :
  chunk_type chunk = T_done ->
  isAborted h st = false ->
  isLoading (onChunk Date_now h chunk st) = false /\
  messages (onChunk Date_now h chunk st) = messages st /\
  onChunk Date_now h chunk (onChunk Date_now h chunk st)
    = onChunk Date_now h chunk st.
Proof.
  intros Ht Ha.
  assert (E : forall st', isAborted h st' = false ->
            onChunk Date_now h chunk st'
            = if bool_decide (activeStreamRef st' = Some h)
              then setActiveStreamRef None (setIsLoading false st')
              else setIsLoading false st').
  { intros st' Ha'. unfold onChunk. now rewrite Ha', Ht. }
  rewrite (E st Ha).
  destruct (bool_decide (activeStreamRef st = Some h)) eqn:Hb;
    (split; [reflexivity|]); (split; [reflexivity|]);
    rewrite E by exact Ha; destruct st as [sid msgs ld er trs act con clk];
    cbn in *.
  - reflexivity.
  - now rewrite Hb.
Qed.

(** A content chunk without a tool-output match extends the text of a
    trailing ai message, on a live tracker. *)
Lemma plain_chunk_extends_last_ai
    (h : nat) (chunk : StreamChunk) (c : jsstring) (st : Hook)
    (before : list ChatMessage) (lastMsg : ChatMessage) :
  isAborted h st = false ->
  chunk_type chunk = T_content ->
  chunk_content chunk = Some c ->
  truthy c = true ->
  test c = false ->
  messages st = before ++ [lastMsg] ->
  sender lastMsg = ai ->
  messages (onChunk Date_now h chunk st)
    = before ++ [{| sender := ai; content := content lastMsg ++ c;
                    timestamp := timestamp lastMsg |}].
Proof.
  intros Ha Ht Hc Htc Hm Hmsgs Hs.
  unfold onChunk. rewrite Ha, Ht, Hc, Htc.
  assert (Hsplit : splits c (messages st) = false).
  { unfold splits. rewrite Hmsgs, last_snoc, Hm. apply andb_false_r. }
  rewrite Hsplit. cbn [messages setMessages].
  unfold contentUpdater. rewrite Hmsgs, last_snoc, Hs, Hm.
  rewrite bool_decide_eq_true_2 by reflexivity.
  rewrite length_app. cbn [length].
  replace (length before + 1 - 1)%nat with (length before + 0)%nat by lia.
  now rewrite insert_app_r.
Qed.

(** C4. A content chunk whose text contains the tool-output pattern,
    applied on a live tracker while the last message is an ai message,
    leaves that message as it is and appends a tool message holding the
    matched text and a fresh empty ai message; the text of a following
    plain content chunk goes into that fresh message. *)
Theorem tool_output_splits_transcript
    (h : nat) (chunk : StreamChunk) (c m : jsstring) (st : Hook)
    (before : list ChatMessage) (lastMsg : ChatMessage) :
  isAborted h st = false ->
  chunk_type chunk = T_content ->
  chunk_content chunk = Some c ->
  firstMatch c = Some m ->
  messages st = before ++ [lastMsg] ->
  sender lastMsg = ai ->
  let toolMsg := {| sender := tool; content := m;
                    timestamp := Some (Date_now (clockReads st)) |} in
  let stamp := Some (Date_now (Datatypes.S (clockReads st))) in
  messages (onChunk Date_now h chunk st)
    = before ++ [lastMsg; toolMsg;
                 {| sender := ai; content := []; timestamp := stamp |}]
  /\ forall (next : StreamChunk) (c' : jsstring),
       chunk_type next = T_content ->
       chunk_content next = Some c' ->
       truthy c' = true ->
       test c' = false ->
       messages (onChunk Date_now h next (onChunk Date_now h chunk st))
         = before ++ [lastMsg; toolMsg;
                      {| sender := ai; content := c'; timestamp := stamp |}].
Proof.
  intros Ha Ht Hc Hm Hmsgs Hs toolMsg stamp.
  destruct (firstMatch_truthy _ _ Hm) as [Htm Htc].
  assert (E : messages (onChunk Date_now h chunk st)
              = (before ++ [lastMsg; toolMsg])
                ++ [{| sender := ai; content := []; timestamp := stamp |}]).
  { unfold onChunk. rewrite Ha, Ht, Hc, Htc.
    assert (Hsplit : splits c (messages st) = true).
    { unfold splits, test. rewrite Hmsgs, last_snoc, Hs, Hm.
      now rewrite bool_decide_eq_true_2. }
    rewrite Hsplit. cbn [messages tick setMessages].
    unfold contentUpdater, test, toolContentOf.
    rewrite Hmsgs, last_snoc, Hs, Hm, Htm.
    rewrite bool_decide_eq_true_2 by reflexivity.
    unfold now. cbn [clockReads tick].
    now rewrite <- !app_assoc. }
  split.
  - rewrite E. now rewrite <- app_assoc.
  - intros next c' Ht' Hc' Htc' Hm'.
    rewrite (plain_chunk_extends_last_ai h next c' _ _ _
               (eq_trans (onChunk_isAborted _ _ _ _ _) Ha)
               Ht' Hc' Htc' Hm' E eq_refl).
    now rewrite <- app_assoc.
Qed.

(** C9 (amended). A content chunk without a tool-output match, applied on
    a live tracker while the last message is not an ai message, is dropped
    without a trace: the hook's state, and so the transcript, the error
    banner and the console, is exactly what it was. *)
Theorem stray_chunk_dropped_silently
    (h : nat) (chunk : StreamChunk) (c : jsstring) (st : Hook)
    (lastMsg : ChatMessage) :
  isAborted h st = false ->
  chunk_type chunk = T_content ->
  chunk_content chunk = Some c ->
  test c = false ->
  last (messages st) = Some lastMsg ->
  sender lastMsg <> ai ->
  onChunk Date_now h chunk st = st.
Proof.
  intros Ha Ht Hc Hm Hl Hs. unfold onChunk. rewrite Ha, Ht, Hc.
  destruct (truthy c); [|reflexivity].
  unfold splits, contentUpdater, setMessages. rewrite Hl, Hm.
  rewrite bool_decide_eq_false_2 by assumption.
  cbn [andb]. now destruct st.
Qed.

(** What the part of [sendMessageStream] before the request does to the
    transcript. *)
Lemma startStream_messages
    (userInput : jsstring) (sessionId : option jsstring) (st st' : Hook)
    (h : nat) (target : jsstring) :
  startStream Date_now userInput sessionId st = inr (h, target, st') ->
  messages st'
    = (messages st
       ++ [{| sender := human; content := userInput;
              timestamp := Some (Date_now (clockReads st)) |}])
      ++ [{| sender := ai; content := [];
             timestamp := Some (Date_now (Datatypes.S (clockReads st))) |}].
Proof.
  unfold startStream.
  destruct (targetOf sessionId st) as [tg|]; [|discriminate].
  destruct (truthy tg); cbn [negb]; [|discriminate].
  intros [= <- <- <-].
  destruct sessionId as [s|];
    [destruct (truthy s && negb (bool_decide (Some s = _)))|];
    destruct (activeStreamRef st); reflexivity.
Qed.

End Callback.

(** Witnesses: the statements above at concrete hook states. *)

Lemma aborted_chunk_keeps_transcript_witness :
  trackers Samples.restarted !! 0%nat
    = Some {| sessionId := js "s1"; aborted := true |} /\
  messages (onChunk Samples.clock 0 (contentChunk (Some (js "late")))
              Samples.restarted)
    = messages Samples.restarted.
Proof.
  split; [reflexivity|].
  apply (aborted_chunk_keeps_transcript Samples.clock 0
           {| sessionId := js "s1"; aborted := true |}); reflexivity.
Defined.

Lemma empty_content_keeps_transcript_witness :
  messages (onChunk Samples.clock 1 (contentChunk (Some []))
              Samples.restarted)
    = messages Samples.restarted.
Proof.
  apply (empty_content_keeps_transcript Samples.clock 1);
    [reflexivity | right; reflexivity].
Defined.

Lemma done_twice_is_done_once_witness :
  isAborted 1 Samples.restarted = false /\
  isLoading (onChunk Samples.clock 1 doneChunk Samples.restarted) = false /\
  messages (onChunk Samples.clock 1 doneChunk Samples.restarted)
    = messages Samples.restarted /\
  onChunk Samples.clock 1 doneChunk
    (onChunk Samples.clock 1 doneChunk Samples.restarted)
    = onChunk Samples.clock 1 doneChunk Samples.restarted.
Proof.
  split; [reflexivity|].
  apply (done_twice_is_done_once Samples.clock 1 doneChunk Samples.restarted);
    reflexivity.
Defined.

Lemma tool_output_splits_transcript_witness :
  firstMatch (js "see {'path': '/tmp/out.csv', 'message': 'done'} now")
    = Some (js "{'path': '/tmp/out.csv', 'message': 'done'}") /\
  isAborted 1 Samples.restarted = false /\
  messages
    (onChunk Samples.clock 1
       (contentChunk
          (Some (js "see {'path': '/tmp/out.csv', 'message': 'done'} now")))
       Samples.restarted)
    = [ {| sender := human; content := js "hello"; timestamp := Some 5%Z |};
        {| sender := ai; content := js "Hi"; timestamp := Some 6%Z |};
        {| sender := tool;
           content := js "{'path': '/tmp/out.csv', 'message': 'done'}";
           timestamp := Some 1700000000002%Z |};
        {| sender := ai; content := [];
           timestamp := Some 1700000000003%Z |} ].
Proof.
  split; [vm_compute; reflexivity|]. split; [reflexivity|].
  refine (proj1 (tool_output_splits_transcript Samples.clock 1
           (contentChunk
              (Some (js "see {'path': '/tmp/out.csv', 'message': 'done'} now")))
           (js "see {'path': '/tmp/out.csv', 'message': 'done'} now")
           (js "{'path': '/tmp/out.csv', 'message': 'done'}")
           Samples.restarted
           [{| sender := human; content := js "hello";
               timestamp := Some 5%Z |}]
           {| sender := ai; content := js "Hi"; timestamp := Some 6%Z |}
           _ _ _ _ _ _));
    reflexivity.
Defined.

Lemma stray_chunk_dropped_silently_witness :
  test (js "Hi") = false /\
  onChunk Samples.clock 0 (contentChunk (Some (js "Hi"))) Samples.humanLast
    = Samples.humanLast.
Proof.
  split; [reflexivity|].
  apply (stray_chunk_dropped_silently Samples.clock 0
           (contentChunk (Some (js "Hi"))) (js "Hi") Samples.humanLast
           {| sender := human; content := js "hello";
              timestamp := Some 5%Z |});
    try reflexivity.
  discriminate.
Defined.

(** C9 (as stated), refuted: with a live tracker and a transcript that ends
    with a human message, the content chunk ["Hi"] is dropped but nothing is
    reported, neither on the error banner nor on the console. *)
Lemma stray_chunk_is_not_reported :
  ~ (messages (onChunk Samples.clock 0 (contentChunk (Some (js "Hi")))
                 Samples.humanLast)
       = messages Samples.humanLast
     /\ reports Samples.humanLast
          (onChunk Samples.clock 0 (contentChunk (Some (js "Hi")))
             Samples.humanLast)).
Proof.
  intros [_ [H | H]]; apply H; reflexivity.
Qed.

(** ** The event interpreter *)

Lemma type_is_tool_call data :
  data_type data = Some (js "tool_call") ->
  type_is data (js "content") = false /\
  type_is data (js "tool_call") = true.
Proof. unfold type_is. intros ->. split; reflexivity. Qed.

(** C2 (amended). For an event line whose payload has type [tool_call] and
    tool name [t], the loop body calls the callback exactly once, with the
    content chunk whose text is a line feed, then ["[Using tool: "], [t] and
    ["]"], then a line feed. *)
Theorem tool_call_line_emits_notice
    {S : Type} (JSON_parse : jsstring -> option EventData)
    (console : ConsoleEntry -> S -> S) (onChunk : StreamChunk -> S -> S)
    (line : jsstring) (data : EventData) (t : jsstring) (s : S) :
  startsWith (js "data: ") (trim line) = true ->
  JSON_parse (slice_from 6 (trim line)) = Some data ->
  data_type data = Some (js "tool_call") ->
  data_tool data = Some t ->
  handleLine JSON_parse console onChunk line s
    = onChunk (contentChunk
                 (Some ([LF] ++ js "[Using tool: " ++ t ++ js "]" ++ [LF]))) s.
Proof.
  intros Hp Hj Ht Htool. unfold handleLine. rewrite Hp, Hj.
  unfold handleEvent. destruct (type_is_tool_call _ Ht) as [-> ->].
  now rewrite Htool.
Qed.

Lemma tool_call_line_emits_notice_witness :
  handleLine Samples.parseKnown (fun _ s => s) (fun c s => s ++ [c])
    (Samples.jsq "data: {`type`:`tool_call`,`tool`:`search`}") []
  = [contentChunk (Some ([LF] ++ js "[Using tool: search]" ++ [LF]))].
Proof.
  apply (tool_call_line_emits_notice Samples.parseKnown (fun _ s => s)
           (fun c s => s ++ [c])
           (Samples.jsq "data: {`type`:`tool_call`,`tool`:`search`}")
           {| data_type := Some (js "tool_call"); data_content := None;
              data_tool := Some (js "search"); data_message := None |}
           (js "search") []); reflexivity.
Defined.

(** C2 (as stated), refuted: for the tool name [search] the chunk that is
    emitted is not the one whose text is ["[Using tool: search]"]. *)
Lemma tool_call_notice_is_not_bare :
  handleLine Samples.parseKnown (fun _ s => s) (fun c s => s ++ [c])
    (Samples.jsq "data: {`type`:`tool_call`,`tool`:`search`}") []
  <> [contentChunk (Some (js "[Using tool: " ++ js "search" ++ js "]"))].
Proof. vm_compute. discriminate. Qed.

(** ** One turn, from the request to its settlement *)

Section Turn.

Variable Date_now : nat -> Z.
Variable JSON_parse : jsstring -> option EventData.

Lemma handleEvent_trackers h data st :
  trackers (handleEvent (onChunk Date_now h) data st)
  = trackers st.
Proof.
  unfold handleEvent.
  repeat (destruct (type_is data _); [apply onChunk_trackers|]).
  reflexivity.
Qed.

Lemma handleLine_trackers h line st :
  trackers (handleLine JSON_parse writeConsole (onChunk Date_now h) line st)
  = trackers st.
Proof.
  unfold handleLine. destruct (startsWith _ _); [|reflexivity].
  destruct (JSON_parse _); [apply handleEvent_trackers|reflexivity].
Qed.

Lemma lines_trackers h lines st :
  trackers
    (fold_left
       (fun s line =>
          handleLine JSON_parse writeConsole (onChunk Date_now h) line s)
       lines st)
  = trackers st.
Proof.
  revert st. induction lines as [|l ls IH]; intros st; simpl;
    [reflexivity|].
  now rewrite IH, handleLine_trackers.
Qed.

Lemma readLoop_trackers h values r st :
  trackers
    (snd (readLoop
            (handleLine JSON_parse writeConsole (onChunk Date_now h))
            values (r, st)))
  = trackers st.
Proof.
  unfold readLoop. revert r st.
  induction values as [|v vs IH]; intros r st; simpl; [reflexivity|].
  unfold readValue at 2. simpl.
  destruct (TextDecoder.decode v (decoder r)) as [d text].
  now rewrite IH, lines_trackers.
Qed.

Lemma startStream_live userInput sessionId st h target st1 :
  startStream Date_now userInput sessionId st = inr (h, target, st1) ->
  isAborted h st1 = false.
Proof.
  unfold startStream.
  destruct (targetOf sessionId st) as [tg|]; [|discriminate].
  destruct (truthy tg); cbn [negb]; [|discriminate].
  intros [= <- <- <-]. unfold isAborted.
  destruct sessionId as [s|];
    [destruct (truthy s && negb (bool_decide (Some s = _)))|];
    destruct (activeStreamRef st); cbn;
    now rewrite lookup_app_r, Nat.sub_diag.
Qed.

(** C6. When the response body ends (the reader reports [done]) the read
    loop hands the callback a done chunk as its last chunk and the call
    returns instead of throwing, whether or not an [end] event was among
    the lines; the turn then settles with the loading flag cleared, and
    with the transcript and the error banner as the lines left them. *)
Theorem close_without_end_is_done
    (userInput : jsstring) (sessionId : option jsstring)
    (values : list (list Z)) (code : Z)
    (st st1 : Hook) (h : nat) (target : jsstring) :
  startStream Date_now userInput sessionId st = inr (h, target, st1) ->
  let net := FetchResolves
               {| ok := true; status := code;
                  body := Some {| reads := values;
                                  ending := EndOfStream |} |} in
  let run := UseChat.sendMessageStream Date_now JSON_parse
               userInput sessionId net st in
  (exists cs, chunksDelivered JSON_parse net = (cs ++ [doneChunk], Returns))
  /\ snd run = Returns
  /\ isLoading (fst run) = false
  /\ error (fst run) = error (afterReads Date_now JSON_parse h target values st1)
  /\ messages (fst run) = messages (afterReads Date_now JSON_parse h target values st1).
Proof.
  intros Hstart net run. split.
  - unfold chunksDelivered, net, Api.sendMessageStream.
    cbn [ok negb body reads ending].
    match goal with
    | |- context [readLoop ?f values ?x] =>
        destruct (readLoop f values x) as [r cs]
    end.
    now exists cs.
  - assert (Hlive : isAborted h (afterReads Date_now JSON_parse h target values st1) = false).
    { unfold isAborted, afterReads. rewrite readLoop_trackers.
      apply (startStream_live _ _ _ _ _ _ Hstart). }
    subst run. unfold UseChat.sendMessageStream. rewrite Hstart.
    unfold net, Api.sendMessageStream. cbn [ok negb body reads ending].
    fold (afterReads Date_now JSON_parse h target values st1) in *.
    unfold afterReads in *.
    match goal with
    | |- context [readLoop ?f values ?x] =>
        destruct (readLoop f values x) as [r st2]
    end.
    cbn [fst snd] in *.
    unfold onFinally. rewrite onChunk_isAborted, Hlive. cbn [negb].
    unfold onChunk. rewrite Hlive. cbn.
    destruct (bool_decide _); cbn; auto.
Qed.

(** A request that is rejected before any frame arrives: the catch block
    takes the turn's two messages off again and shows the error. *)
Lemma rejected_fetch_rolls_back
    (userInput : jsstring) (sessionId : option jsstring) (e : Thrown)
    (st st1 : Hook) (h : nat) (target : jsstring) :
  startStream Date_now userInput sessionId st = inr (h, target, st1) ->
  let run := UseChat.sendMessageStream Date_now JSON_parse
               userInput sessionId (FetchRejects e) st in
  snd run = Throws e
  /\ messages (fst run) = messages st
  /\ error (fst run) = Some (messageOf e).
Proof.
  intros Hstart run. subst run.
  pose proof (startStream_live _ _ _ _ _ _ Hstart) as Hlive.
  pose proof (startStream_messages _ _ _ _ _ _ _ Hstart) as Hm.
  rewrite <- app_assoc in Hm. cbn [app] in Hm.
  unfold UseChat.sendMessageStream. rewrite Hstart.
  unfold Api.sendMessageStream. cbn [fst snd].
  unfold onFinally, onCatch.
  replace (isAborted h (writeConsole (LogApiStart target) st1))
    with false by (symmetry; exact Hlive).
  cbn [negb].
  replace (isAborted h _) with false by (symmetry; exact Hlive).
  cbn. rewrite Hm. unfold dropLastTwo.
  rewrite length_app. cbn [length].
  replace (length (messages st) + 2 - 2)%nat with (length (messages st))
    by lia.
  now rewrite take_app_length.
Qed.

(** Starting a stream while another one is still referenced marks the
    older tracker as aborted. *)
Lemma restart_aborts_active
    (userInput : jsstring) (sessionId : option jsstring) (st st' : Hook)
    (h h' : nat) (target : jsstring) :
  activeStreamRef st = Some h ->
  (h < length (trackers st))%nat ->
  startStream Date_now userInput sessionId st = inr (h', target, st') ->
  isAborted h st' = true.
Proof.
  intros Hact Hlt. unfold startStream. rewrite Hact.
  destruct (targetOf sessionId st) as [tg|]; [|discriminate].
  destruct (truthy tg); cbn [negb]; [|discriminate].
  intros [= <- <- <-]. unfold isAborted.
  assert (E : forall new,
    match (alter (fun t => {| sessionId := UseChat.sessionId t;
                               aborted := true |})
             h (trackers st) ++ [new]) !! h with
    | Some t => aborted t
    | None => true
    end = true).
  { intros new. rewrite lookup_app_l by now rewrite length_alter.
    rewrite list_lookup_alter.
    destruct (decide (h = h)); [|congruence].
    now destruct (trackers st !! h). }
  destruct sessionId as [s|];
    [destruct (truthy s && negb (bool_decide (Some s = _)))|];
    cbn; apply E.
Qed.

(** Any number of chunks on an aborted tracker: the transcript stays. *)
Lemma stale_chunks_keep_transcript
    (h : nat) (chunks : list StreamChunk) (st : Hook) :
  isAborted h st = true ->
  messages (fold_left (fun s c => onChunk Date_now h c s) chunks st)
  = messages st.
Proof.
  revert st. induction chunks as [|c cs IH]; intros st Ha; [reflexivity|].
  cbn [fold_left]. rewrite IH by now rewrite onChunk_isAborted.
  unfold onChunk. now rewrite Ha.
Qed.

End Turn.

Lemma close_without_end_is_done_witness :
  let run := UseChat.sendMessageStream Samples.clock Samples.parseKnown
               (js "hello") None
               (Samples.okResponse [Samples.hiLine] EndOfStream)
               Samples.idle in
  snd run = Returns
  /\ isLoading (fst run) = false
  /\ error (fst run) = None
  /\ messages (fst run)
     = [ {| sender := human; content := js "hello";
            timestamp := Some 1700000000000%Z |};
         {| sender := ai; content := js "Hi";
            timestamp := Some 1700000000001%Z |} ].
Proof.
  destruct (close_without_end_is_done Samples.clock Samples.parseKnown
              (js "hello") None [Samples.hiLine] 200 Samples.idle
              _ _ _ eq_refl) as (_ & H1 & H2 & H3 & H4).
  split; [exact H1|]. split; [exact H2|].
  split; [refine (eq_trans H3 _) | refine (eq_trans H4 _)];
    vm_compute; reflexivity.
Defined.

(** C7, the failing run.  The turn starts on an empty transcript; one frame
    with a tool-output payload arrives and splits the transcript; the next
    read is rejected.  The catch block then takes off the tool message and
    the fresh ai message: the human message and its ai message stay in the
    transcript next to the error. *)
Theorem rollback_after_split_keeps_the_turn :
  let run := UseChat.sendMessageStream Samples.clock Samples.parseKnown
               (js "run report") None
               (Samples.okResponse [Samples.pathLine]
                  (ReadRejects (ErrorObject (js "network error"))))
               Samples.idle in
  snd run = Throws (ErrorObject (js "network error"))
  /\ error (fst run) = Some (js "network error")
  /\ messages (fst run)
     = [ {| sender := human; content := js "run report";
            timestamp := Some 1700000000000%Z |};
         {| sender := ai; content := [];
            timestamp := Some 1700000000001%Z |} ]
  /\ messages (fst run) <> messages Samples.idle.
Proof. vm_compute. repeat split. discriminate. Qed.

(** ** The frame decoder *)

Section Lines.

Lemma split_LF_cons s : exists x xs, split_LF s = x :: xs.
Proof.
  induction s as [|c r [x [xs IH]]]; simpl; [now eexists _, _|].
  destruct (c =? LF)%Z; [now eexists _, _|]. rewrite IH. now eexists _, _.
Qed.

Lemma split_LF_nonempty s : split_LF s <> [].
Proof. destruct (split_LF_cons s) as [x [xs ->]]. discriminate. Qed.

Lemma pop_or_empty_cons x y ys :
  pop_or_empty (x :: y :: ys) = pop_or_empty (y :: ys).
Proof. reflexivity. Qed.

Lemma pop_or_empty_one x : pop_or_empty [x] = x.
Proof. unfold pop_or_empty. simpl. now destruct x. Qed.

(** Splitting a text that is extended: the complete lines of the first
    part stay, and the rest is the split of its open last piece followed
    by the extension. *)
Lemma split_LF_app x y :
  split_LF (x ++ y)
  = removelast (split_LF x) ++ split_LF (pop_or_empty (split_LF x) ++ y).
Proof.
  induction x as [|c r IH]; [reflexivity|].
  cbn [app split_LF]. destruct (split_LF_cons r) as [x0 [xs Hr]].
  destruct (split_LF_cons (pop_or_empty (split_LF r) ++ y))
    as [z0 [zs Hz]].
  rewrite IH, Hr in *. rewrite Hz.
  destruct (c =? LF)%Z eqn:Hc.
  - rewrite pop_or_empty_cons. cbn [removelast app]. now rewrite Hz.
  - destruct xs as [|x1 xs].
    + rewrite pop_or_empty_one in *. cbn [removelast app] in *.
      cbn [split_LF]. now rewrite Hc, Hz.
    + rewrite pop_or_empty_cons in *.
      cbn [removelast app] in *. now rewrite Hz.
Qed.

Lemma split_LF_length s : length (split_LF s) = Datatypes.S (count_LF s).
Proof.
  unfold count_LF.
  induction s as [|c r IH]; [reflexivity|]. cbn [split_LF count_occ].
  destruct (Z.eqb_spec c LF) as [->|Hc].
  - destruct (Z.eq_dec LF LF); [|congruence]. cbn [length]. now rewrite IH.
  - destruct (Z.eq_dec c LF); [congruence|].
    destruct (split_LF_cons r) as [x0 [xs Hr]]. rewrite Hr in *.
    exact IH.
Qed.

Lemma removelast_length {A} (l : list A) :
  length (removelast l) = (length l - 1)%nat.
Proof.
  induction l as [|a [|b l] IH]; [reflexivity..|].
  change (removelast (a :: b :: l)) with (a :: removelast (b :: l)).
  cbn [length] in *. lia.
Qed.

Lemma record_lines (ls acc : list jsstring) :
  fold_left (fun s line => s ++ [line]) ls acc = acc ++ ls.
Proof.
  revert acc. induction ls as [|l ls IH]; intros acc; simpl.
  - now rewrite app_nil_r.
  - now rewrite IH, <- app_assoc.
Qed.

End Lines.

Section Decoder.

Import TextDecoder.
Local Open Scope Z_scope.

Lemma continuation_value cp b :
  Z.lor (Z.shiftl cp 6) (Z.land b 0x3F) = cp * 64 + b mod 64.
Proof.
  assert (Hd : Z.land (Z.shiftl cp 6) (Z.land b 0x3F) = 0).
  { apply Z.bits_inj'. intros n Hn. rewrite Z.bits_0, !Z.land_spec.
    destruct (Z.lt_ge_cases n 6).
    - now rewrite Z.shiftl_spec_low by lia.
    - change 0x3F with (Z.ones 6). rewrite Z.ones_spec_high by lia.
      now rewrite !andb_false_r. }
  rewrite <- Z.lxor_lor, <- Z.add_nocarry_lxor by exact Hd.
  rewrite Z.shiftl_mul_pow2 by lia.
  change 0x3F with (Z.ones 6). now rewrite Z.land_ones by lia.
Qed.

Lemma low_bits b n : 0 <= n -> Z.land b (Z.ones n) = b mod 2 ^ n.
Proof. apply Z.land_ones. Qed.

Lemma count_LF_one c :
  count_LF [c] = if c =? LF then 1%nat else 0%nat.
Proof.
  unfold count_LF. cbn. destruct (Z.eq_dec c LF) as [->|H].
  - reflexivity.
  - now destruct (Z.eqb_spec c LF).
Qed.

Lemma count_LF_app a b : count_LF (a ++ b) = (count_LF a + count_LF b)%nat.
Proof. apply count_occ_app. Qed.

Lemma count_LF_cons c r :
  count_LF (c :: r) = (count_LF [c] + count_LF r)%nat.
Proof. apply (count_LF_app [c] r). Qed.

Lemma between_true lo hi b : between lo hi b = true <-> lo <= b <= hi.
Proof. unfold between. lia. Qed.

Lemma between_false lo hi b :
  between lo hi b = false <-> ~ (lo <= b <= hi).
Proof. unfold between. lia. Qed.

Lemma count_LF_other c : c <> LF -> count_LF [c] = 0%nat.
Proof.
  intros H. rewrite count_LF_one. now destruct (Z.eqb_spec c LF).
Qed.

(** The lead step leaves a well-formed state, and emits a line feed
    exactly for the byte 0x0A. *)
Lemma lead_line_feeds st b :
  wellFormed st -> bytes_needed st = 0 ->
  wellFormed (fst (lead st b)) /\
  count_LF (snd (lead st b)) = count_LF [b].
Proof.
  intros (Hlo & Hhi & Hst) Hn.
  destruct Hst as [[_ Hseen] | [Hne _]]; [|contradiction].
  assert (Hwf : wellFormed st) by (repeat split; auto).
  unfold lead.
  destruct (between 0x00 0x7F b) eqn:E1; [now split|].
  apply between_false in E1.
  destruct (between 0xC2 0xDF b) eqn:E2.
  { apply between_true in E2. cbn [fst snd]. split.
    - unfold wellFormed. cbn. repeat split; try lia.
      right. repeat split; try lia. left.
      change 31 with (Z.ones 5). rewrite low_bits by lia.
      change (2 ^ 5) with 32. Z.div_mod_to_equations. lia.
    - symmetry. apply count_LF_other. unfold LF. lia. }
  destruct (between 0xE0 0xEF b) eqn:E3.
  { apply between_true in E3. cbn [fst snd]. split.
    - unfold wellFormed. cbn.
      change 15 with (Z.ones 4). rewrite low_bits by lia.
      change (2 ^ 4) with 16.
      destruct (Z.eqb_spec b 224); destruct (Z.eqb_spec b 237);
        repeat split; try lia; right; repeat split; try lia.
      + right. subst b. repeat split; lia.
      + left. Z.div_mod_to_equations. lia.
      + left. Z.div_mod_to_equations. lia.
    - symmetry. apply count_LF_other. unfold LF. lia. }
  destruct (between 0xF0 0xF4 b) eqn:E4.
  { apply between_true in E4. cbn [fst snd]. split.
    - unfold wellFormed. cbn.
      change 7 with (Z.ones 3). rewrite low_bits by lia.
      change (2 ^ 3) with 8.
      destruct (Z.eqb_spec b 240); destruct (Z.eqb_spec b 244);
        repeat split; try lia; right; repeat split; try lia.
      + right. subst b. repeat split; lia.
      + left. Z.div_mod_to_equations. lia.
      + left. Z.div_mod_to_equations. lia.
    - symmetry. apply count_LF_other. unfold LF. lia. }
  cbn [fst snd]. split; [assumption|].
  rewrite !count_LF_other; unfold REPLACEMENT, LF; lia.
Qed.

Lemma fresh_wellFormed : wellFormed utf8_fresh.
Proof. unfold wellFormed. cbn. lia. Qed.

(** One byte: the state stays well-formed and a line feed comes out
    exactly when the byte is 0x0A. *)
Lemma handler_line_feeds st b :
  wellFormed st ->
  wellFormed (fst (handler st b)) /\
  count_LF (snd (handler st b)) = count_LF [b].
Proof.
  intros Hwf. unfold handler.
  destruct (Z.eqb_spec (bytes_needed st) 0) as [Hn|Hn];
    [now apply lead_line_feeds|].
  destruct (between _ _ b) eqn:Hb; cbn [negb].
  - apply between_true in Hb.
    destruct Hwf as (Hlo & Hhi & [[Hz _] | (_ & Hseen & Hcp)]);
      [contradiction|].
    rewrite continuation_value.
    assert (Hb' : b <> LF) by (unfold LF; lia).
    rewrite (count_LF_other b Hb').
    destruct (Z.eqb_spec (bytes_seen st + 1) (bytes_needed st)) as [Hc|Hc];
      cbn [fst snd].
    + split; [apply fresh_wellFormed|].
      apply count_LF_other. unfold LF.
      destruct Hcp as [Hcp | (_ & _ & Hs & Hne)];
        [Z.div_mod_to_equations; lia | lia].
    + split; [|reflexivity].
      unfold wellFormed. cbn. repeat split; try lia.
      right. repeat split; try lia. left.
      destruct Hcp as [Hcp | (Hcp & Hl & _ & _)];
        Z.div_mod_to_equations; lia.
  - destruct (lead_line_feeds utf8_fresh b fresh_wellFormed eq_refl)
      as [Hw Hc].
    destruct (lead utf8_fresh b) as [st' out]. cbn [fst snd] in *.
    split; [assumption|].
    rewrite count_LF_cons, Hc.
    rewrite (count_LF_other REPLACEMENT) by (unfold REPLACEMENT, LF; lia).
    reflexivity.
Qed.

Lemma run_line_feeds bs : forall st,
  wellFormed st ->
  wellFormed (fst (run st bs)) /\
  count_LF (snd (run st bs)) = count_LF bs.
Proof.
  induction bs as [|b r IH]; intros st Hwf; cbn [run].
  - now split.
  - destruct (handler_line_feeds st b Hwf) as [Hw Hc].
    destruct (handler st b) as [st1 o1]. cbn [fst snd] in *.
    destruct (IH st1 Hw) as [Hw' Hc'].
    destruct (run st1 r) as [st2 o2]. cbn [fst snd] in *.
    split; [assumption|].
    now rewrite count_LF_app, (count_LF_cons b r), Hc, Hc'.
Qed.

Lemma run_app a b st :
  run st (a ++ b)
  = (fst (run (fst (run st a)) b),
     snd (run st a) ++ snd (run (fst (run st a)) b)).
Proof.
  revert st. induction a as [|c a IH]; intros st; cbn [app run fst snd].
  - now destruct (run st b).
  - destruct (handler st c) as [st1 o1]. rewrite IH.
    destruct (run st1 a) as [st2 o2]. cbn [fst snd].
    now rewrite app_assoc.
Qed.

Lemma serialize_app seen a b :
  serialize seen (a ++ b)
  = (fst (serialize (fst (serialize seen a)) b),
     snd (serialize seen a) ++ snd (serialize (fst (serialize seen a)) b)).
Proof.
  destruct a as [|c a]; cbn [app serialize fst snd].
  - now destruct (serialize seen b).
  - destruct seen; cbn [fst snd].
    + destruct b; cbn; [now rewrite !app_nil_r | reflexivity].
    + destruct b; cbn; [now rewrite !app_nil_r|].
      now destruct (c =? 65279).
Qed.

Lemma serialize_line_feeds seen cps :
  count_LF (snd (serialize seen cps)) = count_LF cps.
Proof.
  destruct cps as [|c r]; [reflexivity|]. cbn [serialize].
  destruct seen; [reflexivity|]. cbn [snd].
  destruct (Z.eqb_spec c 0xFEFF) as [->|]; [|reflexivity].
  rewrite (count_LF_cons _ r), count_LF_other; [reflexivity|].
  unfold LF. lia.
Qed.

Lemma utf16_line_feeds cps :
  count_LF (concat (map utf16 cps)) = count_LF cps.
Proof.
  induction cps as [|c r IH]; [reflexivity|]. cbn [map concat].
  rewrite count_LF_app, (count_LF_cons c r), IH. f_equal.
  unfold utf16. destruct (Z.ltb_spec c 0x10000); [reflexivity|].
  assert (0 <= Z.shiftr (c - 65536) 10) by (apply Z.shiftr_nonneg; lia).
  assert (0 <= Z.land (c - 65536) 1023) by (apply Z.land_nonneg; lia).
  rewrite (count_LF_cons _ [_]).
  rewrite !count_LF_other; unfold LF; lia.
Qed.

(** Decoding is a homomorphism from bytes to text: what two calls return
    is what one call returns on the concatenated bytes. *)
Lemma decode_app a b d :
  decode (a ++ b) d
  = (fst (decode b (fst (decode a d))),
     snd (decode a d) ++ snd (decode b (fst (decode a d)))).
Proof.
  unfold decode. rewrite run_app.
  destruct (run (utf8 d) a) as [st1 o1]. cbn [fst snd].
  rewrite serialize_app.
  destruct (serialize (BOM_seen d) o1) as [s1 t1].
  cbn [fst snd utf8 BOM_seen].
  destruct (run st1 b) as [st2 o2]. cbn [fst snd].
  destruct (serialize s1 o2) as [s2 t2]. cbn [fst snd].
  now rewrite map_app, concat_app.
Qed.

(** The text has as many line feeds as the bytes have 0x0A. *)
Lemma decode_line_feeds bytes d :
  wellFormed (utf8 d) ->
  count_LF (snd (decode bytes d)) = count_LF bytes.
Proof.
  intros Hwf. unfold decode.
  destruct (run_line_feeds bytes (utf8 d) Hwf) as [_ Hc].
  destruct (run (utf8 d) bytes) as [st cps]. cbn [snd] in Hc.
  pose proof (serialize_line_feeds (BOM_seen d) cps) as Hs.
  destruct (serialize (BOM_seen d) cps) as [seen out]. cbn [snd] in *.
  now rewrite utf16_line_feeds, Hs.
Qed.

End Decoder.

Section Frames.

Lemma split_LF_whole s : count_LF s = 0%nat -> split_LF s = [s].
Proof.
  intros H. pose proof (split_LF_length s) as Hl. rewrite H in Hl.
  induction s as [|c r IH]; [reflexivity|].
  cbn [split_LF] in *. rewrite count_LF_cons in H.
  destruct (Z.eqb_spec c LF) as [->|Hc].
  - rewrite count_LF_one in H. now destruct (Z.eqb_spec LF LF).
  - destruct (split_LF_cons r) as [x [xs Hr]]. rewrite Hr in *.
    cbn [length] in Hl. destruct xs; [|discriminate].
    rewrite count_LF_other in H by assumption.
    specialize (IH H eq_refl). now inversion IH.
Qed.

Lemma pop_has_no_LF s : count_LF (pop_or_empty (split_LF s)) = 0%nat.
Proof.
  induction s as [|c r IH]; [reflexivity|]. cbn [split_LF].
  destruct (split_LF_cons r) as [x [xs Hr]]. rewrite Hr in *.
  destruct (Z.eqb_spec c LF) as [->|Hc].
  - now rewrite pop_or_empty_cons.
  - destruct xs as [|y ys].
    + rewrite pop_or_empty_one in *.
      now rewrite count_LF_cons, count_LF_other, IH.
    + now rewrite pop_or_empty_cons in *.
Qed.

(** The loop body runs on the complete lines of the buffered text followed
    by everything the remaining reads decode to, and on nothing else. *)
Lemma readLoop_lines {S : Type} (onLine : jsstring -> S -> S) values :
  forall (r : Reader) (s : S),
    count_LF (buffer r) = 0%nat ->
    snd (readLoop onLine values (r, s))
    = fold_left (fun s line => onLine line s)
        (removelast
           (split_LF (buffer r
                      ++ snd (TextDecoder.decode (concat values)
                                (decoder r)))))
        s.
Proof.
  unfold readLoop.
  induction values as [|v vs IH]; intros r s Hb.
  - cbn. rewrite app_nil_r, (split_LF_whole _ Hb). reflexivity.
  - cbn [fold_left concat]. unfold readValue at 2. cbn [fst snd].
    rewrite decode_app.
    destruct (TextDecoder.decode v (decoder r)) as [d text].
    cbn [fst snd].
    rewrite IH by apply pop_has_no_LF. cbn [buffer decoder].
    rewrite app_assoc.
    rewrite (split_LF_app (buffer r ++ text)
               (snd (TextDecoder.decode (concat vs) d))).
    rewrite removelast_app by apply split_LF_nonempty.
    now rewrite fold_left_app.
Qed.

(** C5. The line records the read loop handles are exactly the complete
    lines of the text that the concatenated bytes decode to: the piece
    after the last line feed is not among them, when the input ends it is
    dropped; there are as many records as the bytes hold line feeds; and
    two ways of cutting the same bytes into reads give the same records.
    The loop body sees these records in order, whatever it does with
    them. *)
Theorem frame_decoder_is_fragmentation_invariant (values : list (list Z)) :
  frameLines values
    = removelast (split_LF (TextDecoder.decodeWhole (concat values)))
  /\ length (frameLines values) = count_LF (concat values)
  /\ (forall values' : list (list Z),
        concat values' = concat values ->
        frameLines values' = frameLines values)
  /\ (forall (S : Type) (onLine : jsstring -> S -> S) (s : S),
        snd (readLoop onLine values (newReader, s))
        = fold_left (fun s line => onLine line s) (frameLines values) s).
Proof.
  assert (E : forall vs,
    frameLines vs
    = removelast (split_LF (TextDecoder.decodeWhole (concat vs)))).
  { intros vs. unfold frameLines.
    rewrite readLoop_lines by reflexivity. now rewrite record_lines. }
  split; [apply E|]. split; [|split].
  - rewrite E, removelast_length, split_LF_length.
    unfold TextDecoder.decodeWhole.
    rewrite decode_line_feeds by apply fresh_wellFormed. lia.
  - intros values' Hc. now rewrite !E, Hc.
  - intros S onLine s. rewrite readLoop_lines by reflexivity.
    now rewrite E.
Qed.

End Frames.


(** ** Two runs on sample data *)

(** The input ["hello"] answered by the events content ["Hi"], content
    [" there"], end: the transcript is the human message and one ai message
    with the whole text, loading is over, no error. *)
Example hello_turn :
  let run := UseChat.sendMessageStream Samples.clock Samples.parseKnown
               (js "hello") None
               (Samples.okResponse Samples.helloReads EndOfStream)
               Samples.idle in
  snd run = Returns
  /\ isLoading (fst run) = false
  /\ error (fst run) = None
  /\ activeStreamRef (fst run) = None
  /\ messages (fst run)
     = [ {| sender := human; content := js "hello";
            timestamp := Some 1700000000000%Z |};
         {| sender := ai; content := js "Hi there";
            timestamp := Some 1700000000001%Z |} ].
Proof. vm_compute. repeat split. Qed.

(** The pattern finds the leftmost payload and stops at its first closing
    brace. *)
Example firstMatch_leftmost :
  firstMatch (js "a {'path': 'x'} b {'path': 'y'} c")
  = Some (js "{'path': 'x'}").
Proof. vm_compute. reflexivity. Qed.


(** * More properties of the streaming path *)

Import Events.
Import Sessions.

(** ** Lines and chunks *)

Section Delivered.

Variable JSON_parse : jsstring -> option EventData.

Lemma recorded_event data (s : list StreamChunk) :
  handleEvent (fun c s => s ++ [c]) data s
  = s ++ handleEvent (fun c s => s ++ [c]) data [].
Proof.
  unfold handleEvent.
  repeat (destruct (type_is data _); [reflexivity|]).
  now rewrite app_nil_r.
Qed.

Lemma recorded_line line (s : list StreamChunk) :
  handleLine JSON_parse (fun _ s => s) (fun c s => s ++ [c]) line s
  = s ++ lineChunks JSON_parse line.
Proof.
  unfold lineChunks, handleLine.
  destruct (startsWith _ _); [|now rewrite app_nil_r].
  destruct (JSON_parse _); [apply recorded_event | now rewrite app_nil_r].
Qed.

Lemma recorded_lines lines (s : list StreamChunk) :
  fold_left
    (fun s line =>
       handleLine JSON_parse (fun _ s => s) (fun c s => s ++ [c]) line s)
    lines s
  = s ++ concat (map (lineChunks JSON_parse) lines).
Proof.
  revert s. induction lines as [|l ls IH]; intros s; cbn [fold_left map concat].
  - now rewrite app_nil_r.
  - now rewrite IH, recorded_line, <- app_assoc.
Qed.

Lemma frameLines_decoded values :
  frameLines values
  = removelast (split_LF (TextDecoder.decodeWhole (concat values))).
Proof.
  unfold frameLines. rewrite readLoop_lines by reflexivity.
  now rewrite record_lines.
Qed.

Lemma readLoop_frameLines {S : Type} (onLine : jsstring -> S -> S)
    values (s : S) :
  snd (readLoop onLine values (newReader, s))
  = fold_left (fun s line => onLine line s) (frameLines values) s.
Proof.
  rewrite readLoop_lines by reflexivity. now rewrite frameLines_decoded.
Qed.

Lemma chunksDelivered_of_body
    (values : list (list Z)) (code : Z) (e : ReadEnd) :
  chunksDelivered JSON_parse
    (FetchResolves {| ok := true; status := code;
                      body := Some {| reads := values; ending := e |} |})
  = match e with
    | EndOfStream =>
        (concat (map (lineChunks JSON_parse) (frameLines values))
         ++ [doneChunk], Returns)
    | ReadRejects err =>
        (concat (map (lineChunks JSON_parse) (frameLines values)),
         Throws err)
    end.
Proof.
  unfold chunksDelivered, Api.sendMessageStream.
  cbn [ok negb body reads ending].
  pose proof (readLoop_frameLines
                (handleLine JSON_parse (fun _ s => s)
                   (fun c (s : list StreamChunk) => s ++ [c]))
                values []) as H.
  rewrite recorded_lines in H. cbn [app] in H.
  match goal with
  | |- context [readLoop ?f values ?x] =>
      destruct (readLoop f values x) as [r cs]
  end.
  cbn [snd] in H. subst cs. now destruct e.
Qed.

(** X1. The chunks the callback receives for a body are the chunks of its
    line records, record after record, followed by one done chunk when the
    body ends and by nothing when a read is rejected. *)
Theorem delivered_chunks_follow_lines
    (values : list (list Z)) (code : Z) (e : ReadEnd) :
  chunksDelivered JSON_parse
    (FetchResolves {| ok := true; status := code;
                      body := Some {| reads := values; ending := e |} |})
  = match e with
    | EndOfStream =>
        (concat (map (lineChunks JSON_parse) (frameLines values))
         ++ [doneChunk], Returns)
    | ReadRejects err =>
        (concat (map (lineChunks JSON_parse) (frameLines values)),
         Throws err)
    end.
Proof. apply chunksDelivered_of_body. Qed.

(** A line yields one chunk at most. *)
Lemma lineChunks_at_most_one line :
  (length (lineChunks JSON_parse line) <= 1)%nat.
Proof.
  unfold lineChunks, handleLine.
  destruct (startsWith _ _); [|cbn; lia].
  destruct (JSON_parse _); [|cbn; lia].
  unfold handleEvent.
  repeat (destruct (type_is _ _); [cbn; lia|]). cbn; lia.
Qed.

End Delivered.

(** ** White space around a line *)

Section Trim.

Lemma trimStart_app_blank s w :
  Forall (fun c => isTrimmable c = true) w ->
  trimStart s = [] -> trimStart (s ++ w) = [].
Proof.
  intros Hw. induction s as [|c r IH]; cbn [app trimStart].
  - intros _. induction Hw as [|c w Hc _ IHw]; [reflexivity|].
    cbn [trimStart]. now rewrite Hc.
  - destruct (isTrimmable c); [exact IH|discriminate].
Qed.

Lemma trimStart_app_solid s w :
  trimStart s <> [] -> trimStart (s ++ w) = trimStart s ++ w.
Proof.
  induction s as [|c r IH]; cbn [app trimStart]; [congruence|].
  destruct (isTrimmable c); [exact IH|reflexivity].
Qed.

Lemma trimStart_blank_app w s :
  Forall (fun c => isTrimmable c = true) w ->
  trimStart (w ++ s) = trimStart s.
Proof.
  induction 1 as [|c w Hc _ IH]; [reflexivity|].
  cbn [app trimStart]. now rewrite Hc.
Qed.

Lemma trimEnd_app_blank s w :
  Forall (fun c => isTrimmable c = true) w ->
  trimEnd (s ++ w) = trimEnd s.
Proof.
  intros Hw. unfold trimEnd. rewrite rev_app_distr.
  rewrite trimStart_blank_app; [reflexivity|].
  now apply Forall_rev.
Qed.

(** Trimming does not see white space added at either end. *)
Lemma trim_padding before s after :
  Forall (fun c => isTrimmable c = true) before ->
  Forall (fun c => isTrimmable c = true) after ->
  trim (before ++ s ++ after) = trim s.
Proof.
  intros Hb Ha. unfold trim. rewrite trimStart_blank_app by assumption.
  destruct (trimStart s) as [|c r] eqn:E.
  - now rewrite trimStart_app_blank.
  - rewrite trimStart_app_solid by (rewrite E; discriminate).
    rewrite E. now apply trimEnd_app_blank.
Qed.

(** X2. White space before and after a line record, such as the carriage
    return of a CRLF line end, changes nothing in what the loop body does
    with the record. *)
Theorem padding_around_a_line_is_ignored
    {S : Type} (JSON_parse : jsstring -> option EventData)
    (console : ConsoleEntry -> S -> S) (onChunk : StreamChunk -> S -> S)
    (before line after : jsstring) (s : S) :
  Forall (fun c => isTrimmable c = true) before ->
  Forall (fun c => isTrimmable c = true) after ->
  handleLine JSON_parse console onChunk (before ++ line ++ after) s
  = handleLine JSON_parse console onChunk line s.
Proof.
  intros Hb Ha. unfold handleLine. now rewrite trim_padding.
Qed.

End Trim.

Lemma padding_around_a_line_is_ignored_witness :
  lineChunks Samples.parseKnown
    (js " " ++ Samples.jsq "data: {`type`:`content`,`content`:`Hi`}" ++ [13%Z])
  = [contentChunk (Some (js "Hi"))].
Proof.
  unfold lineChunks.
  rewrite (padding_around_a_line_is_ignored Samples.parseKnown
             (fun _ s => s) (fun c s => s ++ [c]) (js " ")
             (Samples.jsq "data: {`type`:`content`,`content`:`Hi`}")
             [13%Z] []).
  - reflexivity.
  - repeat constructor.
  - repeat constructor.
Defined.

(** ** ASCII streams *)

Section Ascii.

Import TextDecoder.

Lemma lead_ascii st b : isAscii b -> lead st b = (st, [b]).
Proof.
  unfold isAscii, lead, between. intros H.
  destruct (Z.leb_spec 0 b); [|lia].
  destruct (Z.leb_spec b 127); [|lia]. reflexivity.
Qed.

Lemma run_ascii bs : forall st,
  bytes_needed st = 0%Z -> Forall isAscii bs -> run st bs = (st, bs).
Proof.
  induction bs as [|b r IH]; intros st Hn Hall; [reflexivity|].
  inversion Hall as [|? ? Hb Hr]; subst. cbn [run]. unfold handler.
  rewrite Hn. cbn. rewrite (lead_ascii st b Hb), (IH st Hn Hr). reflexivity.
Qed.

Lemma utf16_ascii bs : Forall isAscii bs -> concat (map utf16 bs) = bs.
Proof.
  induction 1 as [|b r Hb _ IH]; [reflexivity|]. cbn [map concat].
  rewrite IH. unfold utf16, isAscii in *.
  destruct (Z.ltb_spec b 65536); [reflexivity|lia].
Qed.

(** ASCII bytes decode to themselves. *)
Lemma decodeWhole_ascii bs : Forall isAscii bs -> decodeWhole bs = bs.
Proof.
  intros Hall. unfold decodeWhole, decode. cbn [utf8 BOM_seen fresh].
  rewrite (run_ascii bs utf8_fresh eq_refl Hall).
  destruct bs as [|b r]; [reflexivity|]. cbn [serialize snd].
  inversion Hall as [|? ? Hb Hr]; subst. unfold isAscii in Hb.
  destruct (Z.eqb_spec b 65279); [lia|]. now apply utf16_ascii.
Qed.

(** X3. When every byte of the body is ASCII, the line records are the
    pieces of the byte sequence itself between its line feeds, the piece
    after the last line feed left out. *)
Theorem ascii_frames_are_the_lines_of_the_bytes (values : list (list Z)) :
  Forall isAscii (concat values) ->
  frameLines values = removelast (split_LF (concat values)).
Proof.
  intros Hall. now rewrite frameLines_decoded, decodeWhole_ascii.
Qed.

End Ascii.

Lemma ascii_frames_are_the_lines_of_the_bytes_witness :
  frameLines [js "ab"; js "c" ++ [LF] ++ js "d"; [LF] ++ js "rest"]
  = [js "abc"; js "d"].
Proof.
  refine (eq_trans (ascii_frames_are_the_lines_of_the_bytes _ _) _).
  - unfold LF. cbn. repeat (apply List.Forall_cons; [unfold isAscii; lia|]).
    apply List.Forall_nil.
  - reflexivity.
Defined.

(** ** The callback, continued *)

Section CallbackMore.

Variable Date_now : nat -> Z.

(** X4. An error chunk on a live tracker keeps the transcript, with
    whatever the stream has written so far, shows the chunk's message, or
    ["Stream error occurred"] when the chunk has none or an empty one, and
    ends the loading state. *)
Theorem error_chunk_keeps_partial_output
    (h : nat) (chunk : StreamChunk) (st : Hook) :
  isAborted h st = false ->
  chunk_type chunk = T_error ->
  let st' := onChunk Date_now h chunk st in
  messages st' = messages st
  /\ isLoading st' = false
  /\ error st'
     = Some (match chunk_error chunk with
             | Some (c :: m) => c :: m
             | _ => js "Stream error occurred"
             end)
  /\ activeStreamRef st' = activeStreamRef st.
Proof.
  intros Ha Ht. unfold onChunk. rewrite Ha, Ht. cbn.
  repeat split. now destruct (chunk_error chunk) as [[|c m]|].
Qed.

Lemma plain_chunks_fold
    (h : nat) (texts : list jsstring) (st : Hook)
    (before : list ChatMessage) (lastMsg : ChatMessage) :
  isAborted h st = false ->
  Forall (fun c => truthy c = true /\ test c = false) texts ->
  messages st = before ++ [lastMsg] ->
  sender lastMsg = ai ->
  messages (fold_left (fun s c => onChunk Date_now h c s)
              (contentChunks texts) st)
  = before ++ [{| sender := ai; content := content lastMsg ++ concat texts;
                  timestamp := timestamp lastMsg |}].
Proof.
  intros Ha Hall. revert st lastMsg Ha.
  induction Hall as [|c r [Htc Hm] _ IH]; intros st lastMsg Ha Hmsgs Hs.
  - cbn. rewrite app_nil_r, Hmsgs. destruct lastMsg; cbn in *. now subst.
  - cbn [contentChunks map fold_left concat].
    pose proof (plain_chunk_extends_last_ai Date_now h
                  (contentChunk (Some c)) c st before lastMsg
                  Ha eq_refl eq_refl Htc Hm Hmsgs Hs) as Hstep.
    fold (contentChunks r).
    rewrite (IH _ _ (eq_trans (onChunk_isAborted _ _ _ _ _) Ha) Hstep eq_refl).
    cbn [content timestamp]. now rewrite app_assoc.
Qed.

(** X5. Content chunks with text and without a tool-output match, applied
    one after the other on a live tracker to a transcript that ends with an
    ai message, leave one ai message there whose text is the old text
    followed by the texts of the chunks in order. *)
Theorem plain_chunks_accumulate
    (h : nat) (texts : list jsstring) (st : Hook)
    (before : list ChatMessage) (lastMsg : ChatMessage) :
  isAborted h st = false ->
  Forall (fun c => truthy c = true /\ test c = false) texts ->
  messages st = before ++ [lastMsg] ->
  sender lastMsg = ai ->
  messages (fold_left (fun s c => onChunk Date_now h c s)
              (contentChunks texts) st)
  = before ++ [{| sender := ai; content := content lastMsg ++ concat texts;
                  timestamp := timestamp lastMsg |}].
Proof. apply plain_chunks_fold. Qed.

(** X6. Without a session, neither passed in nor current, [sendMessageStream]
    throws ["No active session"] and leaves the hook exactly as it was: no
    tracker is created and a running stream is not aborted. *)
Theorem no_session_no_stream
    (JSON_parse : jsstring -> option EventData)
    (userInput : jsstring) (sessionId : option jsstring)
    (net : FetchResult) (st : Hook) :
  (sessionId = None \/ sessionId = Some []) ->
  (currentSessionId st = None \/ currentSessionId st = Some []) ->
  UseChat.sendMessageStream Date_now JSON_parse userInput sessionId net st
  = (st, Throws (ErrorObject (js "No active session"))).
Proof.
  intros Hs Hc. unfold UseChat.sendMessageStream, startStream, targetOf.
  destruct Hs as [-> | ->]; destruct Hc as [-> | ->]; reflexivity.
Qed.

(** The effects of the part of [sendMessageStream] before the request,
    other than those on the transcript. *)
Lemma startStream_effects
    (userInput : jsstring) (sessionId : option jsstring) (st st' : Hook)
    (h : nat) (target : jsstring) :
  startStream Date_now userInput sessionId st = inr (h, target, st') ->
  h = length (trackers st)
  /\ length (trackers st') = Datatypes.S (length (trackers st))
  /\ trackers st' !! h
     = Some {| UseChat.sessionId := target; aborted := false |}
  /\ activeStreamRef st' = Some h
  /\ currentSessionId st' = Some target
  /\ isLoading st' = true
  /\ error st' = None
  /\ (forall k, activeStreamRef st <> Some k -> k <> h ->
        trackers st' !! k = trackers st !! k).
Proof.
  unfold startStream.
  destruct (targetOf sessionId st) as [tg|] eqn:Htg; [|discriminate].
  destruct (truthy tg) eqn:Htr; cbn [negb]; [|discriminate].
  intros [= <- <- <-].
  assert (Hcur : forall st0 : Hook,
            currentSessionId st0 = currentSessionId st ->
            currentSessionId
              match sessionId with
              | Some s =>
                  if truthy s
                     && negb (bool_decide (Some s = currentSessionId st0))
                  then setCurrentSessionId (Some s) st0
                  else st0
              | None => st0
              end = Some tg).
  { intros st0 E. unfold targetOf in Htg.
    destruct sessionId as [s|]; [|now rewrite E].
    destruct (truthy s) eqn:Hts; cbn [andb].
    - injection Htg as <-.
      destruct (bool_decide (Some s = currentSessionId st0)) eqn:Hb;
        cbn [negb]; [|reflexivity].
      now apply bool_decide_eq_true_1 in Hb.
    - now rewrite E. }
  destruct (activeStreamRef st) as [p|] eqn:Hact.
  - specialize (Hcur st eq_refl).
    destruct sessionId as [s|];
      [destruct (truthy s && negb (bool_decide (Some s = _)))|];
      cbn in *; rewrite !length_app, !length_alter; cbn;
      (repeat split; try lia; try assumption;
       [ now rewrite lookup_app_r, length_alter, Nat.sub_diag
           by (rewrite length_alter; lia)
       | intros k Hk Hkh;
         destruct (decide (k < length (trackers st))%nat);
         [ rewrite lookup_app_l by (rewrite length_alter; lia);
           apply list_lookup_alter_ne; congruence
         | rewrite lookup_app_r by (rewrite length_alter; lia);
           rewrite length_alter;
           destruct (k - length (trackers st))%nat eqn:E; [lia|];
           cbn; symmetry; apply lookup_ge_None; lia ] ]).
  - specialize (Hcur st eq_refl).
    destruct sessionId as [s|];
      [destruct (truthy s && negb (bool_decide (Some s = _)))|];
      cbn in *; rewrite !length_app; cbn;
      (repeat split; try lia; try assumption;
       [ now rewrite lookup_app_r, Nat.sub_diag by lia
       | intros k Hk Hkh;
         destruct (decide (k < length (trackers st))%nat);
         [ now rewrite lookup_app_l by lia
         | rewrite lookup_app_r by lia;
           destruct (k - length (trackers st))%nat eqn:E; [lia|];
           cbn; symmetry; apply lookup_ge_None; lia ] ]).
Qed.

(** X7. A stream that starts gets a tracker of its own: a new one, at the
    end of the trackers, for the target session and not aborted, which
    becomes the active one; the target becomes the current session, the
    loading state begins and the error banner is cleared; trackers other
    than the one that was active are as before. *)
Theorem start_allocates_live_tracker
    (userInput : jsstring) (sessionId : option jsstring) (st st' : Hook)
    (h : nat) (target : jsstring) :
  startStream Date_now userInput sessionId st = inr (h, target, st') ->
  h = length (trackers st)
  /\ length (trackers st') = Datatypes.S (length (trackers st))
  /\ trackers st' !! h
     = Some {| UseChat.sessionId := target; aborted := false |}
  /\ activeStreamRef st' = Some h
  /\ currentSessionId st' = Some target
  /\ isLoading st' = true
  /\ error st' = None
  /\ (forall k, activeStreamRef st <> Some k -> k <> h ->
        trackers st' !! k = trackers st !! k).
Proof. apply startStream_effects. Qed.

End CallbackMore.

Lemma plain_chunks_accumulate_witness :
  messages (fold_left (fun s c => onChunk Samples.clock 1 c s)
              (contentChunks [js " there"; js "!"]) Samples.restarted)
  = [ {| sender := human; content := js "hello"; timestamp := Some 5%Z |};
      {| sender := ai; content := js "Hi there!"; timestamp := Some 6%Z |} ].
Proof.
  apply (plain_chunks_accumulate Samples.clock 1 [js " there"; js "!"]
           Samples.restarted
           [{| sender := human; content := js "hello";
               timestamp := Some 5%Z |}]
           {| sender := ai; content := js "Hi"; timestamp := Some 6%Z |});
    try reflexivity.
  repeat (apply List.Forall_cons; [split; reflexivity|]).
  apply List.Forall_nil.
Defined.

Lemma no_session_no_stream_witness :
  UseChat.sendMessageStream Samples.clock Samples.parseKnown (js "hello")
    (Some []) (Samples.okResponse [Samples.hiLine] EndOfStream)
    Sessions.initial
  = (Sessions.initial, Throws (ErrorObject (js "No active session"))).
Proof.
  apply no_session_no_stream; [right | left]; reflexivity.
Defined.

Lemma start_allocates_live_tracker_witness :
  exists st',
    startStream Samples.clock (js "again") None Samples.restarted
      = inr (2%nat, js "s1", st')
    /\ trackers st' !! 2%nat
       = Some {| UseChat.sessionId := js "s1"; aborted := false |}
    /\ activeStreamRef st' = Some 2%nat
    /\ trackers st' !! 0%nat = trackers Samples.restarted !! 0%nat.
Proof.
  eexists. split; [reflexivity|].
  destruct (start_allocates_live_tracker Samples.clock (js "again") None
              Samples.restarted _ _ _ eq_refl)
    as (_ & _ & H3 & H4 & _ & _ & _ & H8).
  split; [exact H3|]. split; [exact H4|].
  apply H8; discriminate.
Defined.

(** ** Turns that fail or are overtaken *)

Section TurnMore.

Variable Date_now : nat -> Z.
Variable JSON_parse : jsstring -> option EventData.

Lemma requestFailure_throws {S : Type}
    (console : ConsoleEntry -> S -> S) (onChunk : StreamChunk -> S -> S)
    sid input net e (s : S) :
  requestFailure net = Some e ->
  Api.sendMessageStream JSON_parse console onChunk sid input net s
  = (console (LogApiStart sid) s, Throws e).
Proof.
  unfold requestFailure, Api.sendMessageStream.
  destruct net as [e0 | response]; [now intros [= <-]|].
  destruct (negb (ok response)); [now intros [= <-]|].
  destruct (body response); [discriminate | now intros [= <-]].
Qed.

(** X8. When the request fails before any frame is read (the fetch is
    rejected, the status is not ok, or the response has no body), the turn
    ends with the transcript exactly as it was before the turn, the error's
    message on the banner and the loading state over, and the error is
    thrown on. *)
Theorem failed_request_rolls_back
    (userInput : jsstring) (sessionId : option jsstring)
    (net : FetchResult) (e : Thrown)
    (st st1 : Hook) (h : nat) (target : jsstring) :
  startStream Date_now userInput sessionId st = inr (h, target, st1) ->
  requestFailure net = Some e ->
  let run := UseChat.sendMessageStream Date_now JSON_parse
               userInput sessionId net st in
  snd run = Throws e
  /\ messages (fst run) = messages st
  /\ error (fst run) = Some (messageOf e)
  /\ isLoading (fst run) = false.
Proof.
  intros Hstart Hfail run. subst run.
  pose proof (startStream_live _ _ _ _ _ _ _ Hstart) as Hlive.
  pose proof (startStream_messages _ _ _ _ _ _ _ Hstart) as Hm.
  rewrite <- app_assoc in Hm. cbn [app] in Hm.
  unfold UseChat.sendMessageStream. rewrite Hstart.
  rewrite (requestFailure_throws _ _ _ _ _ _ _ Hfail). cbn [fst snd].
  unfold onFinally, onCatch.
  replace (isAborted h (writeConsole (LogApiStart target) st1))
    with false by (symmetry; exact Hlive).
  cbn [negb].
  replace (isAborted h _) with false by (symmetry; exact Hlive).
  cbn. rewrite Hm. unfold dropLastTwo.
  rewrite length_app. cbn [length].
  replace (length (messages st) + 2 - 2)%nat with (length (messages st))
    by lia.
  now rewrite take_app_length.
Qed.

(** X9. A stream that starts while another tracker is the active one
    silences that tracker: whatever chunks arrive on it afterwards, in any
    number, the transcript stays as the new stream has it. *)
Theorem overtaken_stream_is_silenced
    (userInput : jsstring) (sessionId : option jsstring) (st st' : Hook)
    (h h' : nat) (target : jsstring) (chunks : list StreamChunk) :
  activeStreamRef st = Some h ->
  (h < length (trackers st))%nat ->
  startStream Date_now userInput sessionId st = inr (h', target, st') ->
  messages (fold_left (fun s c => onChunk Date_now h c s) chunks st')
  = messages st'.
Proof.
  intros Hact Hlt Hstart. apply stale_chunks_keep_transcript.
  exact (restart_aborts_active _ _ _ _ _ _ _ _ Hact Hlt Hstart).
Qed.

Lemma aborted_event_only_logs (h : nat) (ev : StreamEvent) (st : Hook) :
  isAborted h st = true ->
  sameButConsole (applyEvent Date_now h ev st) st.
Proof.
  intros Ha. unfold sameButConsole.
  destruct ev as [chunk | err |]; cbn [applyEvent].
  - unfold onChunk. rewrite Ha. cbn. now repeat split.
  - unfold onCatch. rewrite Ha. cbn. now repeat split.
  - unfold onFinally. rewrite Ha. cbn. now repeat split.
Qed.

Lemma aborted_events_only_log (h : nat) (evs : list StreamEvent) :
  forall st, isAborted h st = true ->
  sameButConsole (applyEvents Date_now h evs st) st.
Proof.
  unfold applyEvents.
  induction evs as [|ev evs IH]; intros st Ha; cbn [fold_left].
  - unfold sameButConsole. now repeat split.
  - pose proof (aborted_event_only_logs h ev st Ha) as Hs.
    assert (Ha' : isAborted h (applyEvent Date_now h ev st) = true).
    { unfold isAborted in *.
      destruct Hs as (_ & _ & _ & _ & -> & _). exact Ha. }
    specialize (IH _ Ha').
    unfold sameButConsole in *.
    destruct IH as (-> & -> & -> & -> & -> & -> & ->). exact Hs.
Qed.

(** X10. Whatever still happens for a stream whose tracker is aborted
    (chunks of any type arrive, its request fails, its call is left), in
    any number and order, the hook stays as it is in everything but the
    console: transcript, loading flag, error banner, current session,
    trackers and active reference are untouched; a failure in particular is
    neither shown nor rolled back. *)
Theorem aborted_stream_only_logs
    (h : nat) (evs : list StreamEvent) (st : Hook) :
  isAborted h st = true ->
  sameButConsole (applyEvents Date_now h evs st) st
  /\ forall err, onFinally h (onCatch h err st) = st.
Proof.
  intros Ha. split; [now apply aborted_events_only_log|].
  intros err. unfold onFinally, onCatch. now rewrite Ha; cbn; rewrite Ha.
Qed.

(** Nothing that happens for a stream writes into an empty transcript. *)
Lemma empty_transcript_event (h : nat) (ev : StreamEvent) (st : Hook) :
  messages st = [] -> messages (applyEvent Date_now h ev st) = [].
Proof.
  intros He. destruct ev as [chunk | err |]; cbn [applyEvent].
  - unfold onChunk. destruct (isAborted h st); [exact He|].
    destruct (chunk_type chunk); cbn.
    + destruct (chunk_content chunk) as [c|]; [|exact He].
      destruct (truthy c); [|exact He].
      unfold splits. rewrite He. cbn. unfold contentUpdater.
      now rewrite He.
    + now destruct (bool_decide _).
    + exact He.
  - unfold onCatch. destruct (negb (isAborted h st)); [|exact He].
    cbn. now rewrite He.
  - unfold onFinally. now destruct (negb (isAborted h st)).
Qed.

(** X11. A stream only ever works on the turn that is there: on an empty
    transcript, whatever happens for any stream, live or not (chunks,
    failure, leaving), in any number and order, the transcript stays
    empty. *)
Theorem empty_transcript_stays_empty
    (h : nat) (evs : list StreamEvent) (st : Hook) :
  messages st = [] ->
  messages (applyEvents Date_now h evs st) = [].
Proof.
  unfold applyEvents. revert st.
  induction evs as [|ev evs IH]; intros st He; cbn [fold_left]; [exact He|].
  apply IH. now apply empty_transcript_event.
Qed.

End TurnMore.

Lemma failed_request_rolls_back_witness :
  let run := UseChat.sendMessageStream Samples.clock Samples.parseKnown
               (js "hello") None
               (FetchResolves {| ok := false; status := 503; body := None |})
               Samples.restarted in
  messages (fst run) = messages Samples.restarted
  /\ error (fst run) = Some (js "API Error 503").
Proof.
  destruct (failed_request_rolls_back Samples.clock Samples.parseKnown
              (js "hello") None
              (FetchResolves {| ok := false; status := 503; body := None |})
              (ErrorObject (js "API Error 503"))
              Samples.restarted _ _ _ eq_refl eq_refl)
    as (_ & H2 & H3 & _).
  split; [exact H2 | exact H3].
Defined.

Lemma overtaken_stream_is_silenced_witness :
  exists st',
    startStream Samples.clock (js "again") None Samples.restarted
      = inr (2%nat, js "s1", st')
    /\ messages (fold_left (fun s c => onChunk Samples.clock 1 c s)
                   (contentChunks [js "late"; js "later"]) st')
       = messages st'.
Proof.
  eexists. split; [reflexivity|].
  apply (overtaken_stream_is_silenced Samples.clock (js "again") None
           Samples.restarted _ 1 2 (js "s1")); [reflexivity | cbn; lia |].
  reflexivity.
Defined.

Lemma aborted_stream_only_logs_witness :
  sameButConsole
    (applyEvents Samples.clock 0
       [Arrives (contentChunk (Some (js "late"))); Arrives doneChunk;
        Fails (ErrorObject (js "network error")); Leaves]
       Samples.restarted)
    Samples.restarted.
Proof.
  apply (aborted_stream_only_logs Samples.clock 0). reflexivity.
Defined.

(** ** Trackers along a run *)

Section Runs.

Import Rest Sessions.

Variable Date_now : nat -> Z.

Lemma ticks_frame k : forall st,
  trackers (ticks k st) = trackers st
  /\ activeStreamRef (ticks k st) = activeStreamRef st
  /\ messages (ticks k st) = messages st
  /\ clockReads (ticks k st) = (k + clockReads st)%nat.
Proof.
  induction k as [|k IH]; intros st; cbn [ticks]; [auto|].
  destruct (IH (tick st)) as (-> & -> & -> & ->). cbn. repeat split. lia.
Qed.

Lemma onChunk_activeStreamRef h chunk st :
  activeStreamRef (onChunk Date_now h chunk st) = activeStreamRef st
  \/ activeStreamRef (onChunk Date_now h chunk st) = None.
Proof.
  unfold onChunk.
  destruct (isAborted h st); [now left|].
  destruct (chunk_type chunk); cbn.
  - destruct (chunk_content chunk) as [c|]; [|now left].
    destruct (truthy c); [|now left].
    destruct (splits c (messages st)); now left.
  - destruct (bool_decide _); [now right | now left].
  - now left.
Qed.

Lemma abortActive_frame st :
  activeStreamRef (abortActive st) = None
  /\ keepsTrackers st (abortActive st)
  /\ (forall h, activeStreamRef st = Some h ->
        (h < length (trackers st))%nat ->
        isAborted h (abortActive st) = true).
Proof.
  unfold abortActive. destruct (activeStreamRef st) as [p|] eqn:Hact.
  - split; [reflexivity|]. split.
    + intros h t Ht. cbn.
      destruct (decide (p = h)) as [->|Hne].
      * rewrite list_lookup_alter, Ht.
        destruct (decide (h = h)); [|congruence]. cbn. eauto.
      * rewrite list_lookup_alter_ne by assumption. eauto.
    + intros h [= ->] Hlt. unfold isAborted. cbn.
      rewrite list_lookup_alter.
      destruct (decide (h = h)); [|congruence].
      now destruct (trackers st !! h).
  - split; [assumption|]. split; [|discriminate].
    intros h t Ht. eauto.
Qed.

Lemma keepsTrackers_refl st : keepsTrackers st st.
Proof. intros h t Ht. eauto. Qed.

Lemma keepsTrackers_same a b :
  trackers b = trackers a -> keepsTrackers a b.
Proof. intros E h t Ht. rewrite E. eauto. Qed.

Lemma keepsTrackers_trans a b c :
  keepsTrackers a b -> keepsTrackers b c -> keepsTrackers a c.
Proof.
  intros Hab Hbc h t Ht.
  destruct (Hab h t Ht) as (t1 & H1 & Hs1 & Ha1).
  destruct (Hbc h t1 H1) as (t2 & H2 & Hs2 & Ha2).
  exists t2. repeat split; [assumption | congruence | auto].
Qed.

Lemma startStream_keepsTrackers userInput sessionId st h target st' :
  startStream Date_now userInput sessionId st = inr (h, target, st') ->
  keepsTrackers st st'.
Proof.
  unfold startStream.
  destruct (targetOf sessionId st) as [tg|]; [|discriminate].
  destruct (truthy tg); cbn [negb]; [|discriminate].
  intros [= <- <- <-].
  assert (E : forall new k t,
    trackers st !! k = Some t ->
    exists t',
      (match activeStreamRef st with
       | Some p =>
           alter (fun t => {| UseChat.sessionId := UseChat.sessionId t;
                              aborted := true |}) p (trackers st)
       | None => trackers st
       end ++ [new]) !! k = Some t'
      /\ UseChat.sessionId t' = UseChat.sessionId t
      /\ (aborted t = true -> aborted t' = true)).
  { intros new k t Ht. pose proof (lookup_lt_Some _ _ _ Ht) as Hlt.
    destruct (activeStreamRef st) as [p|].
    - rewrite lookup_app_l by now rewrite length_alter.
      destruct (decide (p = k)) as [->|Hne].
      + rewrite list_lookup_alter, Ht.
        destruct (decide (k = k)); [|congruence]. cbn. eauto.
      + rewrite list_lookup_alter_ne by assumption. eauto.
    - rewrite lookup_app_l by assumption. eauto. }
  intros k t Ht.
  destruct sessionId as [s|];
    [destruct (truthy s && negb (bool_decide (Some s = _)))|];
    destruct (activeStreamRef st) eqn:Hact; cbn; cbn in E;
    apply E; assumption.
Qed.

Lemma sendMessage_begin_frame userInput sessionId st target st' :
  sendMessage_begin Date_now userInput sessionId st = inr (target, st') ->
  trackers st' = trackers st /\ activeStreamRef st' = activeStreamRef st.
Proof.
  unfold sendMessage_begin.
  destruct (targetOf sessionId st) as [tg|]; [|discriminate].
  destruct (truthy tg); cbn [negb]; [|discriminate].
  intros [= <- <-].
  destruct sessionId as [s|];
    [destruct (truthy s && negb (bool_decide (Some s = _)))|];
    now split.
Qed.

(** What a step does to the trackers and to the active reference: trackers
    are kept, and the reference stays, is dropped, or goes to a tracker
    that is live. *)
Lemma step_trackers st st' :
  Step Date_now st st' ->
  keepsTrackers st st'
  /\ (activeIsLive st -> activeIsLive st').
Proof.
  intros Hstep.
  destruct Hstep as
    [ ui sid s0 h tg s1 H | h chunk s0 | e s0 | h err s0 | h s0 | c | s0
    | name c | name outcome c | c
    | s0 | outcome s0 | s0 | sid outcome s0 | ui sid s0 tg s1 H
    | outcome s0 ].
  - split; [eapply startStream_keepsTrackers; eassumption|].
    intros _ k Hk.
    destruct (startStream_effects _ _ _ _ _ _ _ H)
      as (_ & _ & H3 & H4 & _).
    rewrite H4 in Hk. injection Hk as <-. eauto.
  - split; [apply keepsTrackers_same, onChunk_trackers|].
    intros Hlive k Hk.
    destruct (onChunk_activeStreamRef h chunk s0) as [E | E];
      rewrite E in Hk; [|discriminate].
    rewrite onChunk_trackers. now apply Hlive.
  - split; [now apply keepsTrackers_same | auto].
  - split.
    + apply keepsTrackers_same. unfold onCatch.
      now destruct (negb (isAborted h s0)).
    + intros Hlive k Hk. unfold onCatch in *.
      destruct (negb (isAborted h s0)); now apply Hlive.
  - split.
    + apply keepsTrackers_same. unfold onFinally.
      now destruct (negb (isAborted h s0)).
    + intros Hlive k Hk. unfold onFinally in *.
      destruct (negb (isAborted h s0)); now apply Hlive.
  - destruct (abortActive_frame (hook c)) as (Hnone & Hkeep & _).
    split.
    + intros k t Ht. destruct (Hkeep k t Ht) as (t' & H1 & H2 & H3).
      exists t'. now repeat split.
    + intros _ k Hk. unfold clearSession in Hk. cbn in Hk. congruence.
  - split; [now apply keepsTrackers_same | auto].
  - split; [now apply keepsTrackers_same | auto].
  - split.
    + apply keepsTrackers_same. now destruct outcome.
    + intros Hlive k Hk. destruct outcome; now apply Hlive.
  - split.
    + apply keepsTrackers_same. unfold timerFires.
      now destruct (clearTimers c).
    + intros Hlive k Hk. unfold timerFires in *.
      destruct (clearTimers c); now apply Hlive.
  - split; [now apply keepsTrackers_same | auto].
  - split.
    + apply keepsTrackers_same. now destruct outcome.
    + intros Hlive k Hk. destruct outcome; now apply Hlive.
  - destruct (abortActive_frame s0) as (Hnone & Hkeep & _).
    split.
    + intros k t Ht. destruct (Hkeep k t Ht) as (t' & H1 & H2 & H3).
      exists t'. now repeat split.
    + intros _ k Hk. unfold loadSession_begin in Hk. cbn in Hk. congruence.
  - destruct outcome as [err | response].
    + split; [now apply keepsTrackers_same | auto].
    + cbn [loadSession_settle fst].
      destruct (ticks_frame (length (message response))
                  (setCurrentSessionId (Some sid) s0))
        as (Ht & Ha & _ & _).
      split.
      * apply keepsTrackers_same. cbn. exact Ht.
      * intros Hlive k Hk. cbn in Hk. rewrite Ha in Hk.
        cbn. rewrite Ht. now apply Hlive.
  - destruct (sendMessage_begin_frame _ _ _ _ _ H) as [Ht Ha].
    split; [now apply keepsTrackers_same|].
    intros Hlive k Hk. rewrite Ha in Hk. rewrite Ht. now apply Hlive.
  - destruct outcome as [err | response].
    + split; [now apply keepsTrackers_same | auto].
    + cbn [sendMessage_settle fst].
      destruct (ticks_frame (length (drop 1 (conversation response))) s0)
        as (Ht & Ha & _ & _).
      split.
      * apply keepsTrackers_same. cbn. exact Ht.
      * intros Hlive k Hk. cbn in Hk. rewrite Ha in Hk.
        cbn. rewrite Ht. now apply Hlive.
Qed.

Lemma run_trackers st st' :
  Run Date_now st st' ->
  keepsTrackers st st' /\ (activeIsLive st -> activeIsLive st').
Proof.
  induction 1 as [st | st1 st2 st3 _ [IHk IHl] Hstep].
  - split; [apply keepsTrackers_refl | auto].
  - destruct (step_trackers _ _ Hstep) as [Hk Hl].
    split; [eapply keepsTrackers_trans; eassumption | auto].
Qed.

(** X12. In every state the hook can reach from its initial state, through
    starts of streams, chunks, failures, and the steps of the other
    callbacks in any order, the active reference is either empty or refers
    to an existing tracker that is not aborted. *)
Theorem active_reference_is_live (st : Hook) :
  Run Date_now initial st -> activeIsLive st.
Proof.
  intros Hrun. apply (run_trackers _ _ Hrun). intros h Hh. discriminate.
Qed.

(** X13. Abortion is final: once a tracker is aborted, it is aborted in
    every later state of the hook, whatever happens in between, and a chunk
    that arrives on it then leaves the transcript as it is. *)
Theorem aborted_is_forever
    (h : nat) (t : StreamTracker) (chunk : StreamChunk) (st st' : Hook) :
  trackers st !! h = Some t ->
  aborted t = true ->
  Run Date_now st st' ->
  isAborted h st' = true
  /\ messages (onChunk Date_now h chunk st') = messages st'.
Proof.
  intros Ht Ha Hrun.
  destruct (proj1 (run_trackers _ _ Hrun) h t Ht) as (t' & Ht' & _ & Ha').
  assert (Hab : isAborted h st' = true).
  { unfold isAborted. rewrite Ht'. auto. }
  split; [exact Hab|]. unfold onChunk. now rewrite Hab.
Qed.

End Runs.

Lemma empty_transcript_stays_empty_witness :
  messages
    (applyEvents Samples.clock 0
       [Arrives (contentChunk (Some (js "Hi"))); Arrives doneChunk;
        Fails OtherValue; Leaves]
       {| currentSessionId := Some (js "s2"); messages := [];
          isLoading := false; error := None;
          trackers := [{| UseChat.sessionId := js "s1"; aborted := false |}];
          activeStreamRef := Some 0%nat; console := []; clockReads := 2 |})
  = [].
Proof.
  apply empty_transcript_stays_empty. reflexivity.
Defined.

Lemma active_reference_is_live_witness :
  activeStreamRef MoreSamples.twoStarts = Some 1%nat
  /\ isAborted 0 MoreSamples.twoStarts = true
  /\ activeIsLive MoreSamples.twoStarts.
Proof.
  split; [reflexivity|]. split; [reflexivity|].
  apply (active_reference_is_live Samples.clock).
  eapply run_step; [eapply run_step; [eapply run_step; [apply run_nil|]|]|].
  - eapply (step_start _ (js "hello") (Some (js "s1")) _ 0%nat (js "s1")).
    reflexivity.
  - apply (step_chunk _ 0%nat (contentChunk (Some (js "Hi")))).
  - eapply (step_start _ (js "again") None _ 1%nat (js "s1")).
    reflexivity.
Defined.

Lemma aborted_is_forever_witness :
  isAborted 0 (loadSession_begin Samples.restarted) = true
  /\ messages (onChunk Samples.clock 0 (contentChunk (Some (js "late")))
                (loadSession_begin Samples.restarted))
     = messages (loadSession_begin Samples.restarted).
Proof.
  apply (aborted_is_forever Samples.clock 0
           {| UseChat.sessionId := js "s1"; aborted := true |}
           _ Samples.restarted); [reflexivity | reflexivity |].
  eapply run_step; [apply run_nil | apply step_load_begin].
Defined.

(** ** Switching and clearing sessions *)

Section Switching.

Import Rest.

Variable Date_now : nat -> Z.
Variable lengthOfUndefined : jsstring.

Lemma aborted_tracker_exists h st :
  (h < length (trackers st))%nat ->
  isAborted h st = true ->
  exists t, trackers st !! h = Some t /\ aborted t = true.
Proof.
  intros Hlt. unfold isAborted.
  destruct (trackers st !! h) as [t|] eqn:E; [eauto|].
  apply lookup_ge_None in E. lia.
Qed.

Lemma abortActive_aborts h st :
  activeStreamRef st = Some h ->
  (h < length (trackers st))%nat ->
  exists t, trackers (abortActive st) !! h = Some t /\ aborted t = true.
Proof.
  intros Hact Hlt.
  destruct (abortActive_frame st) as (_ & _ & Hab).
  apply aborted_tracker_exists; [|now apply Hab].
  unfold abortActive. rewrite Hact. cbn. now rewrite length_alter.
Qed.

Lemma aborted_along_run h t st st' :
  trackers st !! h = Some t -> aborted t = true ->
  Run Date_now st st' -> isAborted h st' = true.
Proof.
  intros Ht Ha Hrun.
  destruct (proj1 (run_trackers _ _ _ Hrun) h t Ht) as (t' & Ht' & _ & Ha').
  unfold isAborted. rewrite Ht'. auto.
Qed.

(** X14. Loading a session, like clearing the session, cuts the stream that
    was active off for good: in every state the hook reaches afterwards,
    whatever happens for that stream changes nothing but the console. *)
Theorem session_switch_cuts_stream_off
    (h : nat) (c : Chat) (start st' : Hook) (evs : list StreamEvent) :
  activeStreamRef (hook c) = Some h ->
  (h < length (trackers (hook c)))%nat ->
  start = loadSession_begin (hook c) \/ start = hook (clearSession c) ->
  Run Date_now start st' ->
  sameButConsole (applyEvents Date_now h evs st') st'.
Proof.
  intros Hact Hlt Hstart Hrun.
  destruct (abortActive_aborts h (hook c) Hact Hlt) as (t & Ht & Ha).
  apply aborted_events_only_log.
  apply (aborted_along_run h t start st'); [|assumption|assumption].
  destruct Hstart as [-> | ->]; exact Ht.
Qed.

(** X15. Clearing the session empties the transcript, the current session,
    the error banner, the upload notice and the active reference, but not
    the loading flag; and nothing that happens afterwards for the stream
    it cut off brings the transcript back or changes the loading flag. *)
Theorem clearSession_keeps_loading_flag
    (h : nat) (c : Chat) (evs : list StreamEvent) :
  activeStreamRef (hook c) = Some h ->
  (h < length (trackers (hook c)))%nat ->
  let after := applyEvents Date_now h evs (hook (clearSession c)) in
  uploadProgress (clearSession c) = None
  /\ currentSessionId after = None
  /\ error after = None
  /\ activeStreamRef after = None
  /\ messages after = []
  /\ isLoading after = isLoading (hook c).
Proof.
  intros Hact Hlt after.
  destruct (abortActive_aborts h (hook c) Hact Hlt) as (t & Ht & Ha).
  assert (Hab : isAborted h (hook (clearSession c)) = true).
  { unfold isAborted. cbn. rewrite Ht. exact Ha. }
  destruct (aborted_events_only_log Date_now h evs _ Hab)
    as (H1 & H2 & H3 & H4 & _ & H6 & _).
  subst after. rewrite H1, H2, H3, H4, H6.
  unfold clearSession, abortActive. rewrite Hact. cbn. now repeat split.
Qed.

Lemma mapMessages_senders items : forall n,
  map sender (mapMessages Date_now n items)
  = map (fun item => match wire_sender item with
                     | Some s => s
                     | None => ai
                     end) items.
Proof.
  induction items as [|i r IH]; intros n; cbn; [reflexivity|].
  now rewrite IH.
Qed.

Lemma mapMessages_contents items : forall n,
  map content (mapMessages Date_now n items)
  = map (fun item => stringifyContent (wire_content item)) items.
Proof.
  induction items as [|i r IH]; intros n; cbn; [reflexivity|].
  now rewrite IH.
Qed.

Lemma ticks_fields k : forall st,
  currentSessionId (ticks k st) = currentSessionId st
  /\ isLoading (ticks k st) = isLoading st
  /\ error (ticks k st) = error st
  /\ activeStreamRef (ticks k st) = activeStreamRef st.
Proof.
  induction k as [|k IH]; intros st; cbn [ticks]; [auto|].
  destruct (IH (tick st)) as (-> & -> & -> & ->). now repeat split.
Qed.

Lemma getMessagesBySession_answered sessionId
    (r : HttpResponse MessagesResult) items :
  http_ok r = true ->
  http_status r <> 204%Z ->
  http_json r = inr {| result_message := Some items |} ->
  snd (getMessagesBySession lengthOfUndefined sessionId (Resolved r))
  = inr {| message := items |}.
Proof.
  intros Hok Hst Hjson. unfold getMessagesBySession, handleResponse.
  rewrite Hok, Hjson. cbn [negb].
  now destruct (Z.eqb_spec (http_status r) 204).
Qed.

(** X16. When the history request is answered with a list of messages,
    [loadSession] replaces the transcript by that list, element for
    element (a missing sender read as ai, a content that is not a string
    rendered as text), whatever the transcript was; the session becomes the
    current one, no stream is active, loading is over and no error is
    shown. *)
Theorem loadSession_replaces_transcript
    (sessionId : jsstring) (r : HttpResponse MessagesResult)
    (items : list WireMessage) (st : Hook) :
  http_ok r = true ->
  http_status r <> 204%Z ->
  http_json r = inr {| result_message := Some items |} ->
  let run := loadSession Date_now lengthOfUndefined sessionId (Resolved r) st in
  snd run = Returns
  /\ map sender (messages (fst run))
     = map (fun item => match wire_sender item with
                        | Some s => s
                        | None => ai
                        end) items
  /\ map content (messages (fst run))
     = map (fun item => stringifyContent (wire_content item)) items
  /\ currentSessionId (fst run) = Some sessionId
  /\ activeStreamRef (fst run) = None
  /\ isLoading (fst run) = false
  /\ error (fst run) = None.
Proof.
  intros Hok Hst Hjson run. subst run. unfold loadSession.
  rewrite (getMessagesBySession_answered _ _ _ Hok Hst Hjson).
  cbn [loadSession_settle message fst snd].
  cbn [messages setIsLoading setMessages currentSessionId activeStreamRef
       isLoading error].
  destruct (ticks_fields (length items)
              (setCurrentSessionId (Some sessionId) (loadSession_begin st)))
    as (-> & _ & -> & ->).
  rewrite mapMessages_senders, mapMessages_contents.
  repeat split. cbn. apply (abortActive_frame st).
Qed.

(** X17. When the history request fails, in whatever way, [loadSession]
    leaves the transcript and the current session as they were, shows the
    error's message (["Failed to load session"] for a thrown value that is
    not an [Error]) and throws the error on; loading is over, and the stream
    that was active has been cut off all the same. *)
Theorem loadSession_failure_keeps_transcript
    (sessionId : jsstring) (net : Fetched (HttpResponse MessagesResult))
    (e : Thrown) (st : Hook) :
  snd (getMessagesBySession lengthOfUndefined sessionId net) = inl e ->
  let run := loadSession Date_now lengthOfUndefined sessionId net st in
  snd run = Throws e
  /\ messages (fst run) = messages st
  /\ currentSessionId (fst run) = currentSessionId st
  /\ error (fst run) = Some (messageOr (js "Failed to load session") e)
  /\ isLoading (fst run) = false
  /\ activeStreamRef (fst run) = None.
Proof.
  intros Hfail run. subst run. unfold loadSession. rewrite Hfail.
  cbn. repeat split; try apply (abortActive_frame st);
    unfold abortActive; now destruct (activeStreamRef st).
Qed.

(** X18. What the wrappers make of an answer: one that is not ok becomes the
    error ["API Error <status>: <body text>"] for each of them; an ok answer
    with status 204 becomes a session without id for [createNewChat], the
    conversation made of the input and ["No response received"] for
    [sendMessage], and the [TypeError] of reading the length of nothing for
    [getMessagesBySession]. *)
Theorem wrappers_on_error_and_no_content
    (rc : HttpResponse ChatSession) (rs : HttpResponse ChatResult)
    (rm : HttpResponse MessagesResult)
    (sessionId userInput text : jsstring) :
  (http_ok rc = false -> http_text rc = inr text ->
     snd (createNewChat (Resolved rc))
     = inl (ErrorObject (js "API Error " ++ digits (http_status rc)
                         ++ js ": " ++ text)))
  /\ (http_ok rs = false -> http_text rs = inr text ->
       snd (Rest.sendMessage sessionId userInput (Resolved rs))
       = inl (ErrorObject (js "API Error " ++ digits (http_status rs)
                           ++ js ": " ++ text)))
  /\ (http_ok rm = false -> http_text rm = inr text ->
       snd (getMessagesBySession lengthOfUndefined sessionId (Resolved rm))
       = inl (ErrorObject (js "API Error " ++ digits (http_status rm)
                           ++ js ": " ++ text)))
  /\ (http_ok rc = true -> http_status rc = 204%Z ->
       snd (createNewChat (Resolved rc)) = inr {| session_id := None |})
  /\ (http_ok rs = true -> http_status rs = 204%Z ->
       snd (Rest.sendMessage sessionId userInput (Resolved rs))
       = inr {| conversation := [userInput; js "No response received"] |})
  /\ (http_ok rm = true -> http_status rm = 204%Z ->
       snd (getMessagesBySession lengthOfUndefined sessionId (Resolved rm))
       = inl (ErrorObject lengthOfUndefined)).
Proof.
  unfold createNewChat, Rest.sendMessage, getMessagesBySession,
    handleResponse.
  repeat split; intros Hok H2; rewrite Hok, H2; reflexivity.
Qed.

(** X19. [createNewSession] never touches the trackers or the active
    reference, so a running stream stays live, and always ends the loading
    state.  When the session is created, the transcript is emptied, the new
    id becomes the current session and no error is shown; when the creation
    fails, transcript and current session stay, and the error's message is
    shown. *)
Theorem createNewSession_outcomes
    (net : Fetched (HttpResponse ChatSession)) (st : Hook) :
  let run := createNewSession net st in
  trackers (fst run) = trackers st
  /\ activeStreamRef (fst run) = activeStreamRef st
  /\ isLoading (fst run) = false
  /\ match snd run with
     | inr id =>
         messages (fst run) = [] /\ currentSessionId (fst run) = id
         /\ error (fst run) = None
     | inl e =>
         messages (fst run) = messages st
         /\ currentSessionId (fst run) = currentSessionId st
         /\ error (fst run)
            = Some (messageOr (js "Failed to create new session") e)
     end.
Proof.
  unfold createNewSession.
  destruct (snd (createNewChat net)) as [e | response]; cbn;
    now repeat split.
Qed.

End Switching.

(** ** The non-streaming sender and the automatic session *)

Section Sending.

Import Rest.

Variable Date_now : nat -> Z.
Variable JSON_parse : jsstring -> option EventData.

Lemma aiMessagesOf_contents contents : forall n,
  map content (aiMessagesOf Date_now n contents) = contents
  /\ Forall (fun m => sender m = ai) (aiMessagesOf Date_now n contents).
Proof.
  induction contents as [|c r IH]; intros n; cbn; [now split|].
  destruct (IH (Datatypes.S n)) as [-> Hall]. split; [reflexivity|].
  now constructor.
Qed.

Lemma sendMessage_begin_effects userInput sessionId st target st1 :
  sendMessage_begin Date_now userInput sessionId st = inr (target, st1) ->
  messages st1
  = messages st ++ [{| sender := human; content := userInput;
                       timestamp := Some (Date_now (clockReads st)) |}]
  /\ trackers st1 = trackers st
  /\ activeStreamRef st1 = activeStreamRef st.
Proof.
  unfold sendMessage_begin.
  destruct (targetOf sessionId st) as [tg|]; [|discriminate].
  destruct (truthy tg); cbn [negb]; [|discriminate].
  intros [= <- <-].
  destruct sessionId as [s|];
    [destruct (truthy s && negb (bool_decide (Some s = _)))|];
    now repeat split.
Qed.

(** X20. When the non-streaming request is answered, the transcript is the
    old one, then the human message with the input, then one ai message for
    every element of the answered conversation but the first, in order;
    loading is over and no error is shown. *)
Theorem sendMessage_appends_replies
    (userInput : jsstring) (sessionId : option jsstring)
    (net : Fetched (HttpResponse ChatResult)) (conv : list jsstring)
    (st st1 : Hook) (target : jsstring) :
  sendMessage_begin Date_now userInput sessionId st = inr (target, st1) ->
  snd (Rest.sendMessage target userInput net)
    = inr {| conversation := conv |} ->
  let run := Sessions.sendMessage Date_now userInput sessionId net st in
  snd run = Returns
  /\ (exists replies,
        messages (fst run)
        = messages st
          ++ [{| sender := human; content := userInput;
                 timestamp := Some (Date_now (clockReads st)) |}]
          ++ replies
        /\ map content replies = drop 1 conv
        /\ Forall (fun m => sender m = ai) replies)
  /\ isLoading (fst run) = false
  /\ error (fst run) = None.
Proof.
  intros Hbegin Hans run. subst run. unfold Sessions.sendMessage.
  rewrite Hbegin, Hans.
  destruct (sendMessage_begin_effects _ _ _ _ _ Hbegin) as (Hm & _ & _).
  cbn [sendMessage_settle conversation fst snd].
  split; [reflexivity|]. split; [|split].
  - exists (aiMessagesOf Date_now (clockReads st1) (drop 1 conv)).
    cbn [messages setIsLoading setMessages].
    destruct (ticks_frame (length (drop 1 conv)) st1) as (_ & _ & -> & _).
    rewrite Hm, <- app_assoc.
    split; [reflexivity|]. apply aiMessagesOf_contents.
  - reflexivity.
  - cbn. destruct (ticks_fields (length (drop 1 conv)) st1)
      as (_ & _ & -> & _).
    revert Hbegin. unfold sendMessage_begin.
    destruct (targetOf sessionId st) as [tg|]; [|discriminate].
    destruct (truthy tg); cbn [negb]; [|discriminate].
    intros [= <- <-].
    destruct sessionId as [s|];
      [destruct (truthy s && negb (bool_decide (Some s = _)))|];
      reflexivity.
Qed.

(** X21. When the non-streaming request fails, the human message of the turn
    is taken off again: the transcript is exactly the old one, the error's
    message is shown, loading is over, and the error is thrown on. *)
Theorem sendMessage_failure_rolls_back
    (userInput : jsstring) (sessionId : option jsstring)
    (net : Fetched (HttpResponse ChatResult)) (e : Thrown)
    (st st1 : Hook) (target : jsstring) :
  sendMessage_begin Date_now userInput sessionId st = inr (target, st1) ->
  snd (Rest.sendMessage target userInput net) = inl e ->
  let run := Sessions.sendMessage Date_now userInput sessionId net st in
  snd run = Throws e
  /\ messages (fst run) = messages st
  /\ error (fst run) = Some (messageOr (js "Failed to send message") e)
  /\ isLoading (fst run) = false.
Proof.
  intros Hbegin Hans run. subst run. unfold Sessions.sendMessage.
  rewrite Hbegin, Hans.
  destruct (sendMessage_begin_effects _ _ _ _ _ Hbegin) as (Hm & _ & _).
  cbn. rewrite Hm. unfold dropLast. rewrite length_app. cbn [length].
  replace (length (messages st) + 1 - 1)%nat with (length (messages st))
    by lia.
  rewrite take_app_length. now repeat split.
Qed.

(** X22. Without a current session, [sendMessageWithAutoSession] first
    creates one.  When the creation fails, nothing is sent: transcript and
    trackers are as before, the error is shown, logged once and thrown on.
    When the creation is answered without a session id, nothing is sent
    either, and nothing tells so: the call returns normally, without an
    error, with an empty transcript and no current session. *)
Theorem auto_session_without_session
    (userInput : jsstring) (useStreaming : bool)
    (net : AutoNet) (st : Hook) :
  currentSessionId st = None \/ currentSessionId st = Some [] ->
  let run := sendMessageWithAutoSession Date_now JSON_parse
               userInput useStreaming net st in
  (forall e, snd (createNewChat (forCreate net)) = inl e ->
     run = (fst (createNewSession (forCreate net) st), [e], Throws e)
     /\ messages (fst (fst run)) = messages st
     /\ trackers (fst (fst run)) = trackers st
     /\ error (fst (fst run))
        = Some (messageOr (js "Failed to create new session") e))
  /\ (forall created,
        snd (createNewChat (forCreate net)) = inr created ->
        session_id created = None \/ session_id created = Some [] ->
        snd run = Returns
        /\ snd (fst run) = []
        /\ messages (fst (fst run)) = []
        /\ trackers (fst (fst run)) = trackers st
        /\ error (fst (fst run)) = None
        /\ isLoading (fst (fst run)) = false
        /\ (currentSessionId (fst (fst run)) = None
            \/ currentSessionId (fst (fst run)) = Some [])).
Proof.
  intros Hcur run. subst run. unfold sendMessageWithAutoSession.
  assert (Hno : match currentSessionId st with
                | Some s => truthy s
                | None => false
                end = false)
    by (destruct Hcur as [-> | ->]; reflexivity).
  rewrite Hno. cbn [negb]. unfold createNewSession. split.
  - intros e He. rewrite He. cbn. now repeat split.
  - intros created Hc Hid. rewrite Hc.
    cbn [createNewSession_settle fst snd].
    destruct Hid as [Hid | Hid]; rewrite Hid; cbn; repeat split; auto.
Qed.

End Sending.

(** Witnesses on the sample data. *)

Lemma session_switch_cuts_stream_off_witness :
  sameButConsole
    (applyEvents Samples.clock 1
       [Arrives (contentChunk (Some (js " there"))); Arrives doneChunk]
       (clearError (loadSession_begin (hook MoreSamples.chatting))))
    (clearError (loadSession_begin (hook MoreSamples.chatting))).
Proof.
  apply (session_switch_cuts_stream_off Samples.clock 1 MoreSamples.chatting
           (loadSession_begin (hook MoreSamples.chatting)));
    [reflexivity | cbn; lia | left; reflexivity |].
  eapply run_step; [apply run_nil | apply step_clearError].
Defined.

Lemma clearSession_keeps_loading_flag_witness :
  let after := applyEvents Samples.clock 1
                 [Arrives (contentChunk (Some (js " there")));
                  Arrives doneChunk; Leaves]
                 (hook (clearSession MoreSamples.chatting)) in
  messages after = [] /\ isLoading after = true.
Proof.
  destruct (clearSession_keeps_loading_flag Samples.clock 1
              MoreSamples.chatting
              [Arrives (contentChunk (Some (js " there")));
               Arrives doneChunk; Leaves])
    as (_ & _ & _ & _ & H5 & H6); [reflexivity | cbn; lia |].
  split; [exact H5 | exact H6].
Defined.

Lemma loadSession_replaces_transcript_witness :
  let run := loadSession Samples.clock MoreSamples.typeError (js "s2")
               (Rest.Resolved MoreSamples.historyAnswer) Samples.restarted in
  map sender (messages (fst run)) = [human; ai]
  /\ map content (messages (fst run)) = [js "hello"; js "{ }"]
  /\ currentSessionId (fst run) = Some (js "s2").
Proof.
  destruct (loadSession_replaces_transcript Samples.clock
              MoreSamples.typeError (js "s2") MoreSamples.historyAnswer
              MoreSamples.history Samples.restarted)
    as (_ & H2 & H3 & H4 & _); [reflexivity | discriminate | reflexivity |].
  split; [exact H2|]. split; [exact H3 | exact H4].
Defined.

Lemma loadSession_failure_keeps_transcript_witness :
  let run := loadSession Samples.clock MoreSamples.typeError (js "s2")
               (Rest.Resolved (MoreSamples.serverError Rest.MessagesResult))
               Samples.restarted in
  messages (fst run) = messages Samples.restarted
  /\ error (fst run) = Some (js "API Error 500: boom")
  /\ activeStreamRef (fst run) = None.
Proof.
  destruct (loadSession_failure_keeps_transcript Samples.clock
              MoreSamples.typeError (js "s2")
              (Rest.Resolved (MoreSamples.serverError Rest.MessagesResult))
              (ErrorObject (js "API Error 500: boom"))
              Samples.restarted eq_refl)
    as (_ & H2 & _ & H4 & _ & H6).
  split; [exact H2|]. split; [exact H4 | exact H6].
Defined.

Lemma wrappers_on_error_and_no_content_witness :
  snd (Rest.createNewChat
         (Rest.Resolved (MoreSamples.serverError Rest.ChatSession)))
    = inl (ErrorObject (js "API Error 500: boom"))
  /\ snd (Rest.sendMessage (js "s1") (js "hello")
            (Rest.Resolved (MoreSamples.noContent Rest.ChatResult)))
     = inr {| Rest.conversation := [js "hello"; js "No response received"] |}.
Proof.
  destruct (wrappers_on_error_and_no_content MoreSamples.typeError
              (MoreSamples.serverError Rest.ChatSession)
              (MoreSamples.noContent Rest.ChatResult)
              (MoreSamples.noContent Rest.MessagesResult)
              (js "s1") (js "hello") (js "boom"))
    as (H1 & _ & _ & _ & H5 & _).
  split; [apply H1 | apply H5]; reflexivity.
Defined.

Lemma sendMessage_appends_replies_witness :
  let run := Sessions.sendMessage Samples.clock (js "hello") None
               (Rest.Resolved MoreSamples.chatAnswer) Samples.idle in
  exists replies,
    messages (fst run)
    = [{| sender := human; content := js "hello";
          timestamp := Some 1700000000000%Z |}] ++ replies
    /\ map content replies = [js "Hi"; js "Bye"].
Proof.
  destruct (sendMessage_appends_replies Samples.clock (js "hello") None
              (Rest.Resolved MoreSamples.chatAnswer)
              [js "hello"; js "Hi"; js "Bye"] Samples.idle _ _
              eq_refl eq_refl)
    as (_ & (replies & H1 & H2 & _) & _).
  exists replies. split; [exact H1 | exact H2].
Defined.

Lemma sendMessage_failure_rolls_back_witness :
  let run := Sessions.sendMessage Samples.clock (js "hello") None
               (Rest.Resolved (MoreSamples.serverError Rest.ChatResult))
               Samples.restarted in
  messages (fst run) = messages Samples.restarted
  /\ error (fst run) = Some (js "API Error 500: boom").
Proof.
  destruct (sendMessage_failure_rolls_back Samples.clock (js "hello") None
              (Rest.Resolved (MoreSamples.serverError Rest.ChatResult))
              (ErrorObject (js "API Error 500: boom"))
              Samples.restarted _ _ eq_refl eq_refl)
    as (_ & H2 & H3 & _).
  split; [exact H2 | exact H3].
Defined.

Lemma auto_session_without_session_witness :
  let failed := sendMessageWithAutoSession Samples.clock Samples.parseKnown
                  (js "hello") true MoreSamples.unreachable
                  Sessions.initial in
  let silent := sendMessageWithAutoSession Samples.clock Samples.parseKnown
                  (js "hello") true MoreSamples.anonymous
                  Sessions.initial in
  (snd failed = Throws (ErrorObject (js "Failed to fetch"))
   /\ messages (fst (fst failed)) = [])
  /\ (snd silent = Returns /\ messages (fst (fst silent)) = []
      /\ error (fst (fst silent)) = None).
Proof.
  split.
  - destruct (proj1 (auto_session_without_session Samples.clock
                       Samples.parseKnown (js "hello") true
                       MoreSamples.unreachable Sessions.initial
                       (or_introl eq_refl))
                (ErrorObject (js "Failed to fetch")) eq_refl)
      as (H1 & H2 & _).
    split; [now rewrite H1 | exact H2].
  - destruct (proj2 (auto_session_without_session Samples.clock
                       Samples.parseKnown (js "hello") true
                       MoreSamples.anonymous Sessions.initial
                       (or_introl eq_refl))
                {| Rest.session_id := None |} eq_refl (or_introl eq_refl))
      as (H1 & _ & H3 & _ & H5 & _).
    split; [exact H1|]. split; [exact H3 | exact H5].
Defined.

(** * The text helpers of the message view *)

Section ToolOutput.

Import ChatMessageView.

Lemma join_split_LF s : join_LF (split_LF s) = s.
Proof.
  induction s as [|c r IH]; [reflexivity|]. cbn [split_LF].
  destruct (split_LF_cons r) as [x [xs Hr]]. rewrite Hr in *.
  destruct (Z.eqb_spec c LF) as [->|Hc].
  - cbn [join_LF]. cbn [join_LF] in IH. now rewrite IH.
  - destruct xs as [|y ys]; cbn [join_LF] in *; now rewrite <- IH.
Qed.

Lemma split_LF_line_then l s :
  count_LF l = 0%nat -> split_LF (l ++ LF :: s) = l :: split_LF s.
Proof.
  induction l as [|c r IH]; intros Hl.
  - cbn. reflexivity.
  - rewrite count_LF_cons in Hl. cbn [app split_LF].
    destruct (Z.eqb_spec c LF) as [->|Hc].
    + rewrite count_LF_one in Hl. now destruct (Z.eqb_spec LF LF).
    + rewrite count_LF_other in Hl by assumption. now rewrite IH.
Qed.

Lemma split_join_LF ls :
  ls <> [] -> Forall (fun l => count_LF l = 0%nat) ls ->
  split_LF (join_LF ls) = ls.
Proof.
  intros Hne Hall. induction Hall as [|l r Hl Hr IH]; [congruence|].
  destruct r as [|l2 r].
  - cbn [join_LF]. now apply split_LF_whole.
  - change (join_LF (l :: l2 :: r)) with (l ++ LF :: join_LF (l2 :: r)).
    rewrite split_LF_line_then by assumption. f_equal. now apply IH.
Qed.

Lemma split_LF_pieces s : Forall (fun l => count_LF l = 0%nat) (split_LF s).
Proof.
  induction s as [|c r IH]; [now repeat constructor|]. cbn [split_LF].
  destruct (split_LF_cons r) as [x [xs Hr]]. rewrite Hr in *.
  destruct (Z.eqb_spec c LF) as [->|Hc].
  - now constructor.
  - inversion IH as [|? ? Hx Hxs]; subst. constructor; [|assumption].
    now rewrite count_LF_cons, count_LF_other.
Qed.

Lemma uniqueLines_pieces ls : forall seen,
  Forall (fun l => count_LF l = 0%nat) ls ->
  Forall (fun l => count_LF l = 0%nat) (uniqueLines seen ls).
Proof.
  induction ls as [|l r IH]; intros seen Hall; [constructor|].
  inversion Hall as [|? ? Hl Hr]; subst. cbn [uniqueLines].
  destruct (truthy (trim l)); [destruct (bool_decide _)|];
    try constructor; auto.
Qed.

Lemma uniqueLines_first l r :
  uniqueLines ∅ (l :: r) <> [].
Proof.
  cbn [uniqueLines]. destruct (truthy (trim l)); [|discriminate].
  rewrite bool_decide_eq_false_2 by set_solver. discriminate.
Qed.

Lemma uniqueLines_again ls : forall seen,
  uniqueLines seen (uniqueLines seen ls) = uniqueLines seen ls.
Proof.
  induction ls as [|l r IH]; intros seen; [reflexivity|].
  cbn [uniqueLines]. destruct (truthy (trim l)) eqn:Ht.
  - destruct (bool_decide (trim l ∈ seen)) eqn:Hs; [apply IH|].
    cbn [uniqueLines]. now rewrite Ht, Hs, IH.
  - cbn [uniqueLines]. now rewrite Ht, IH.
Qed.

(** The lines of the cleaned text. *)
Lemma cleanToolOutput_lines s :
  split_LF (cleanToolOutput s) = uniqueLines ∅ (split_LF s).
Proof.
  unfold cleanToolOutput. destruct (split_LF_cons s) as [x [xs Hs]].
  apply split_join_LF.
  - rewrite Hs. apply uniqueLines_first.
  - apply uniqueLines_pieces, split_LF_pieces.
Qed.

Lemma uniqueLines_fresh ls : forall seen,
  NoDup (map trim (filter (fun line => truthy (trim line) = true)
                     (uniqueLines seen ls)))
  /\ forall line, line ∈ uniqueLines seen ls ->
       truthy (trim line) = true -> trim line ∉ seen.
Proof.
  induction ls as [|l r IH]; intros seen.
  - cbn. split; [constructor | intros line Hin; inversion Hin].
  - cbn [uniqueLines]. destruct (truthy (trim l)) eqn:Ht.
    + destruct (bool_decide (trim l ∈ seen)) eqn:Hs; [apply IH|].
      apply bool_decide_eq_false_1 in Hs.
      destruct (IH ({[trim l]} ∪ seen)) as [Hnd Hfresh].
      rewrite filter_cons_True by assumption. cbn [map]. split.
      * apply NoDup_cons. split; [|assumption].
        intros Hin. apply list_elem_of_fmap in Hin.
        destruct Hin as (line & Heq & Hline).
        apply list_elem_of_filter in Hline. destruct Hline as [Hnb Hin].
        apply (Hfresh line Hin Hnb). rewrite <- Heq.
        apply elem_of_union_l. now apply elem_of_singleton.
      * intros line Hin Hnb. apply elem_of_cons in Hin.
        destruct Hin as [-> | Hin]; [assumption|].
        specialize (Hfresh line Hin Hnb). intros Hs'. apply Hfresh.
        now apply elem_of_union_r.
    + destruct (IH seen) as [Hnd Hfresh].
      rewrite filter_cons_False by congruence. split; [assumption|].
      intros line Hin Hnb. apply elem_of_cons in Hin.
      destruct Hin as [-> | Hin]; [congruence | auto].
Qed.

(** X23. [cleanToolOutput] leaves no two lines with the same text once
    trimmed, blank lines apart; cleaning a cleaned text changes nothing;
    and what it returns has the lines the loop kept, no more and no
    fewer. *)
Theorem cleanToolOutput_removes_repeats (content : jsstring) :
  NoDup (map trim (filter (fun line => truthy (trim line) = true)
                     (split_LF (cleanToolOutput content))))
  /\ cleanToolOutput (cleanToolOutput content) = cleanToolOutput content
  /\ split_LF (cleanToolOutput content) = uniqueLines ∅ (split_LF content).
Proof.
  split; [|split].
  - rewrite cleanToolOutput_lines. apply uniqueLines_fresh.
  - unfold cleanToolOutput at 1. rewrite cleanToolOutput_lines.
    now rewrite uniqueLines_again.
  - apply cleanToolOutput_lines.
Qed.

Lemma uniqueLines_first_text ls :
  head (filter (fun line => truthy (trim line) = true) (uniqueLines ∅ ls))
  = head (filter (fun line => truthy (trim line) = true) ls).
Proof.
  induction ls as [|l r IH]; [reflexivity|]. cbn [uniqueLines].
  destruct (truthy (trim l)) eqn:Ht.
  - rewrite bool_decide_eq_false_2 by set_solver.
    now rewrite !filter_cons_True by assumption.
  - now rewrite !filter_cons_False by congruence.
Qed.

Lemma clip_length l : (length (clip l) <= 63)%nat.
Proof.
  unfold clip. destruct (bool_decide (60 < length l)%nat) eqn:E.
  - apply bool_decide_eq_true_1 in E.
    rewrite length_app, length_take.
    change (length (js "...")) with 3%nat. lia.
  - apply bool_decide_eq_false_1 in E. lia.
Qed.

Lemma clip_truthy l : truthy l = true -> truthy (clip l) = true.
Proof.
  unfold clip. intros H. destruct (bool_decide _) eqn:E; [|assumption].
  apply bool_decide_eq_true_1 in E. destruct l as [|c r]; [discriminate|].
  reflexivity.
Qed.

(** X24. The summary of a tool output is never empty and never longer than
    63 characters, and the removal of repeated lines has no part in it: it
    is ["Tool output"] when the text has no line with text, and otherwise
    the first such line of the text itself, trimmed, and cut after 60
    characters with ["..."] added when it is longer. *)
Theorem getToolSummary_is_short (content : jsstring) :
  (length (getToolSummary content) <= 63)%nat
  /\ truthy (getToolSummary content) = true
  /\ getToolSummary content
     = match filter (fun line => truthy (trim line) = true)
               (split_LF content) with
       | [] => js "Tool output"
       | first :: _ => clip (trim first)
       end.
Proof.
  assert (E : getToolSummary content
     = match head (filter (fun line => truthy (trim line) = true)
                     (split_LF content)) with
       | None => js "Tool output"
       | Some first => clip (trim first)
       end).
  { unfold getToolSummary. rewrite cleanToolOutput_lines.
    rewrite <- uniqueLines_first_text.
    now destruct (filter _ (uniqueLines ∅ (split_LF content))). }
  rewrite E.
  destruct (filter _ (split_LF content)) as [|first rest] eqn:Hf; cbn [head].
  - repeat split. cbn. lia.
  - assert (Hnb : truthy (trim first) = true).
    { assert (Hin : first ∈ filter (fun line => truthy (trim line) = true)
                      (split_LF content))
        by (rewrite Hf; apply list_elem_of_here).
      now apply list_elem_of_filter in Hin. }
    split; [apply clip_length|]. split; [now apply clip_truthy|reflexivity].
Qed.

Lemma splitOn_cons sep s : exists x xs, splitOn sep s = x :: xs.
Proof.
  induction s as [|c r [x [xs IH]]]; cbn; [now eexists _, _|].
  destruct (c =? sep)%Z; [now eexists _, _|]. rewrite IH. now eexists _, _.
Qed.

Lemma splitOn_length sep s :
  length (splitOn sep s) = Datatypes.S (count_occ Z.eq_dec s sep).
Proof.
  induction s as [|c r IH]; [reflexivity|]. cbn [splitOn count_occ].
  destruct (Z.eqb_spec c sep) as [->|Hc].
  - destruct (Z.eq_dec sep sep); [|congruence]. cbn [length]. now rewrite IH.
  - destruct (Z.eq_dec c sep); [congruence|].
    destruct (splitOn_cons sep r) as [x0 [xs Hr]]. rewrite Hr in *.
    exact IH.
Qed.

Lemma last_of_splitOn sep s name :
  last (splitOn sep s) = Some name ->
  count_occ Z.eq_dec name sep = 0%nat
  /\ ((s = name /\ count_occ Z.eq_dec s sep = 0%nat)
      \/ exists dir, s = dir ++ [sep] ++ name).
Proof.
  revert name. induction s as [|c r IH]; intros name.
  - cbn. intros [= <-]. split; [reflexivity|]. now left.
  - cbn [splitOn]. pose proof (splitOn_length sep r) as Hlen.
    destruct (splitOn_cons sep r) as [x [xs Hr]]. rewrite Hr in *.
    destruct (Z.eqb_spec c sep) as [->|Hc].
    + change (last ([] :: x :: xs)) with (last (x :: xs)). intros Hl.
      destruct (IH name Hl) as [Hn [[-> _] | [dir ->]]].
      * split; [assumption|]. right. now exists [].
      * split; [assumption|]. right. now exists (sep :: dir).
    + destruct xs as [|y ys].
      * cbn [last]. intros [= <-].
        destruct (IH x eq_refl) as [Hn [[-> Hs] | [dir ->]]].
        -- cbn [count_occ]. destruct (Z.eq_dec c sep); [congruence|].
           split; [assumption|]. left. split; [reflexivity|assumption].
        -- cbn [length] in Hlen. rewrite count_occ_app in Hlen.
           cbn [app count_occ] in Hlen.
           destruct (Z.eq_dec sep sep); [lia|congruence].
      * change (last ((c :: x) :: y :: ys)) with (last (x :: y :: ys)).
        intros Hl. destruct (IH name Hl) as [Hn [[-> Hs] | [dir ->]]].
        -- cbn [length] in Hlen. lia.
        -- split; [assumption|]. right. now exists (c :: dir).
Qed.

(** X25. [getFileName] always finds a name; the name holds no slash; and it
    is the whole path when the path holds no slash, and what follows the
    last slash of the path otherwise. *)
Theorem getFileName_is_last_segment (path : jsstring) :
  exists name,
    getFileName path = Some name
    /\ count_occ Z.eq_dec name 47%Z = 0%nat
    /\ ((path = name /\ count_occ Z.eq_dec path 47%Z = 0%nat)
        \/ exists dir, path = dir ++ [47%Z] ++ name).
Proof.
  unfold getFileName.
  destruct (splitOn_cons 47 path) as [x [xs Hs]].
  destruct (last (splitOn 47 path)) as [name|] eqn:Hl.
  - exists name. split; [reflexivity|]. now apply last_of_splitOn.
  - rewrite Hs in Hl. apply last_None in Hl. discriminate.
Qed.

End ToolOutput.

(** * The message box *)

Section Box.

Lemma trimStart_again s : trimStart (trimStart s) = trimStart s.
Proof.
  induction s as [|c r IH]; [reflexivity|]. cbn [trimStart].
  destruct (isTrimmable c) eqn:E; [exact IH|]. cbn [trimStart].
  now rewrite E.
Qed.

Lemma trimStart_keeps_solid_end a c :
  isTrimmable c = false -> exists y, trimStart (a ++ [c]) = y ++ [c].
Proof.
  intros Hc. induction a as [|d a IH]; cbn [app trimStart].
  - rewrite Hc. now exists [].
  - destruct (isTrimmable d); [exact IH|]. now exists (d :: a).
Qed.

Lemma trimEnd_of_trimStart s :
  trimStart (trimEnd (trimStart s)) = trimEnd (trimStart s).
Proof.
  destruct (trimStart s) as [|c r] eqn:E; [reflexivity|].
  assert (Hc : isTrimmable c = false).
  { clear -E. induction s as [|d s IH]; [discriminate|].
    cbn [trimStart] in E. destruct (isTrimmable d) eqn:Hd; [auto|].
    now injection E as <- _. }
  unfold trimEnd. cbn [rev].
  destruct (trimStart_keeps_solid_end (rev r) c Hc) as [y ->].
  rewrite rev_app_distr. cbn [rev app trimStart]. now rewrite Hc.
Qed.

(** Trimming a trimmed text changes nothing. *)
Lemma trim_again s : trim (trim s) = trim s.
Proof.
  unfold trim. rewrite trimEnd_of_trimStart.
  unfold trimEnd. now rewrite rev_involutive, trimStart_again.
Qed.

Variable File : Type.

(** X26. What [handleSend] passes to [onSendMessage] is the typed text
    without the white space around it, and never an empty text; it passes
    it only when the box is not disabled and no upload has failed, and it
    empties the box when it does.  When it sends nothing, the typed text
    stays in the box. *)
Theorem handleSend_sends_trimmed_text
    (disabled hasUpload : bool) (upload : Completion)
    (st : MessageInput.State File) :
  let result := MessageInput.handleSend File disabled hasUpload upload st in
  (forall text, In (MessageInput.Send File text) (snd result) ->
     text = trim (MessageInput.message File st)
     /\ trim text = text
     /\ truthy text = true
     /\ disabled = false
     /\ (forall f e, MessageInput.selectedFile File st = Some f ->
           hasUpload = true -> upload <> Throws e)
     /\ MessageInput.message File (fst result) = [])
  /\ ((forall text, ~ In (MessageInput.Send File text) (snd result)) ->
      MessageInput.message File (fst result) = MessageInput.message File st).
Proof.
  intros result. subst result. unfold MessageInput.handleSend.
  destruct st as [msg file]. cbn [MessageInput.message
                                  MessageInput.selectedFile].
  assert (Hpart : forall (s : MessageInput.State File) done,
    (forall t, ~ In (MessageInput.Send File t) done) ->
    let r := MessageInput.sendPart File s done in
    (forall text, In (MessageInput.Send File text) (snd r) ->
       text = trim (MessageInput.message File s) /\ trim text = text
       /\ truthy text = true /\ MessageInput.message File (fst r) = [])
    /\ ((forall text, ~ In (MessageInput.Send File text) (snd r)) ->
        MessageInput.message File (fst r) = MessageInput.message File s)).
  { intros s done Hdone r. subst r. unfold MessageInput.sendPart.
    destruct (truthy (trim (MessageInput.message File s))) eqn:Ht;
      cbn [fst snd].
    - split.
      + intros text Hin. apply in_app_or in Hin.
        destruct Hin as [Hin | [[= <-] | []]]; [now apply Hdone in Hin|].
        now rewrite trim_again.
      + intros Hno. exfalso. apply (Hno (trim (MessageInput.message File s))).
        apply in_or_app. right. now left.
    - split; [intros text Hin; now apply Hdone in Hin | reflexivity]. }
  destruct (negb (truthy (trim msg)) && negb (bool_decide (is_Some file)));
    [split; [intros text []|reflexivity]|].
  destruct disabled; [split; [intros text []|reflexivity]|].
  destruct file as [f|].
  - destruct hasUpload.
    + destruct upload as [|err].
      * destruct (Hpart {| MessageInput.message := msg;
                           MessageInput.selectedFile := Some f |}
                    [MessageInput.Upload File f]) as [H1 H2].
        { intros t [H | []]. discriminate. }
        cbn [MessageInput.message] in *.
        destruct (MessageInput.sendPart File _ _) as [st' acts].
        cbn [fst snd MessageInput.message] in *. split.
        -- intros text Hin. destruct (H1 text Hin) as (? & ? & ? & ?).
           repeat split; auto; intros; discriminate.
        -- exact H2.
      * split; [|reflexivity].
        intros text [H | [H | []]]; discriminate.
    + destruct (Hpart {| MessageInput.message := msg;
                         MessageInput.selectedFile := Some f |} [])
        as [H1 H2]; [intros t []|].
      cbn [MessageInput.message] in *. split; [|exact H2].
      intros text Hin. destruct (H1 text Hin) as (? & ? & ? & ?).
      repeat split; auto; intros; discriminate.
  - destruct (Hpart {| MessageInput.message := msg;
                       MessageInput.selectedFile := None |} [])
      as [H1 H2]; [intros t []|].
    cbn [MessageInput.message] in *. split; [|exact H2].
    intros text Hin. destruct (H1 text Hin) as (? & ? & ? & ?).
    repeat split; auto; intros; discriminate.
Qed.

End Box.

Lemma handleSend_sends_trimmed_text_witness :
  MessageInput.handleSend unit false true Returns
    {| MessageInput.message := js "  hello  ";
       MessageInput.selectedFile := Some tt |}
  = ({| MessageInput.message := []; MessageInput.selectedFile := None |},
     [MessageInput.Upload unit tt; MessageInput.Send unit (js "hello")])
  /\ trim (js "hello") = js "hello".
Proof.
  split; [reflexivity|].
  apply (proj1 (handleSend_sends_trimmed_text unit false true Returns
                  {| MessageInput.message := js "  hello  ";
                     MessageInput.selectedFile := Some tt |})
           (js "hello")).
  right. left. reflexivity.
Defined.

(** * Uploads and the session list *)

Section Uploads.

Import Rest.

(** X27. An upload works on the error banner and on its own notice only:
    transcript, loading flag, current session, trackers and active
    reference are as before.  It clears the banner when it starts; when it
    succeeds the notice shows success, when it fails the notice shows the
    failure and the banner the error's message, which for an answer that is
    not ok is ["Upload failed: <status>"].  Either way one more timer is
    left behind, and the notice is gone when a timer fires, also a timer
    left behind by an earlier upload while a later one is still running. *)
Theorem upload_works_on_banner_and_notice
    (name : jsstring) (net : Fetched UploadResponse) (c : Chat) :
  let run := Sessions.uploadFile name net c in
  setError (error (hook c)) (hook (fst run)) = hook c
  /\ clearTimers (fst run) = Datatypes.S (clearTimers c)
  /\ match snd run with
     | inr _ =>
         error (hook (fst run)) = None
         /\ uploadProgress (fst run)
            = Some {| upload_fileName := name; upload_status := success |}
     | inl e =>
         error (hook (fst run))
         = Some (messageOr (js "Failed to upload file") e)
         /\ uploadProgress (fst run)
            = Some {| upload_fileName := name; upload_status := failed |}
     end
  /\ (forall response, net = Resolved response ->
        upload_ok response = false ->
        snd run = inl (ErrorObject (js "Upload failed: "
                                    ++ digits (upload_code response))))
  /\ uploadProgress (timerFires (fst run)) = None
  /\ (clearTimers c <> 0%nat ->
      uploadProgress (timerFires (uploadFile_begin name c)) = None).
Proof.
  intros run. subst run. unfold Sessions.uploadFile.
  split; [|split; [|split; [|split; [|split]]]].
  - destruct (snd (Rest.uploadFile name net)); cbn; now destruct (hook c).
  - now destruct (snd (Rest.uploadFile name net)).
  - now destruct (snd (Rest.uploadFile name net)).
  - intros response -> Hok. unfold Rest.uploadFile. now rewrite Hok.
  - now destruct (snd (Rest.uploadFile name net)).
  - intros Hn. unfold timerFires, uploadFile_begin. cbn.
    now destruct (clearTimers c).
Qed.

End Uploads.

Section Selector.

Import Rest.

Variable Date_now : nat -> Z.
Variable lengthOfUndefined : jsstring.

(** X28. Confirming the deletion of a session closes the dialog in every
    case.  When the deletion succeeds, the session is gone from the list
    and the other sessions are where they were; the chat is asked to change
    session only if the deleted session is the current one, and then to
    none: the page clears the chat, so that transcript and current session
    are empty and no stream is active.  When the deletion fails, the list is
    unchanged and the chat is not asked for anything. *)
Theorem deleting_the_current_session_clears_the_chat
    (target : jsstring) (current : option jsstring) (deleted : Completion)
    (st : SessionSelector.State)
    (net : Fetched (HttpResponse MessagesResult)) (c : Chat) :
  SessionSelector.sessionToDelete st = Some target ->
  truthy target = true ->
  let result := SessionSelector.handleConfirmDelete current deleted st in
  SessionSelector.deleteDialogOpen (fst result) = false
  /\ SessionSelector.sessionToDelete (fst result) = None
  /\ SessionSelector.isDeleting (fst result) = None
  /\ match deleted with
     | Returns =>
         (target ∉ SessionSelector.sessions (fst result))
         /\ SessionSelector.sessions (fst result)
            = filter (fun id => id <> target) (SessionSelector.sessions st)
         /\ snd result = (if bool_decide (Some target = current)
                          then [None] else [])
     | Throws _ =>
         SessionSelector.sessions (fst result) = SessionSelector.sessions st
         /\ snd result = []
     end
  /\ (forall request, In request (snd result) ->
        request = None
        /\ current = Some target
        /\ (let c' := fst (ChatPage.handleSessionChange Date_now
                             lengthOfUndefined request net c) in
            c' = clearSession c
            /\ messages (hook c') = []
            /\ currentSessionId (hook c') = None
            /\ activeStreamRef (hook c') = None)).
Proof.
  intros Ht Htr result. subst result.
  unfold SessionSelector.handleConfirmDelete. rewrite Ht, Htr. cbn [negb].
  assert (Hclear : activeStreamRef (hook (clearSession c)) = None).
  { unfold clearSession. cbn. apply abortActive_frame. }
  destruct deleted as [|err]; cbn [fst snd SessionSelector.deleteDialogOpen
    SessionSelector.sessionToDelete SessionSelector.isDeleting
    SessionSelector.sessions];
    (split; [reflexivity|]); (split; [reflexivity|]);
    (split; [reflexivity|]); split.
  - split; [|split; reflexivity].
    intros Hin. apply list_elem_of_filter in Hin. now destruct Hin.
  - intros request Hin.
    destruct (bool_decide (Some target = current)) eqn:Hb; [|destruct Hin].
    destruct Hin as [<- | []]. apply bool_decide_eq_true_1 in Hb.
    split; [reflexivity|]. split; [now symmetry|].
    cbn [ChatPage.handleSessionChange fst].
    split; [reflexivity|]. split; [reflexivity|]. split; [reflexivity|].
    exact Hclear.
  - split; reflexivity.
  - intros request [].
Qed.

End Selector.

Lemma deleting_the_current_session_clears_the_chat_witness :
  let result := SessionSelector.handleConfirmDelete (Some (js "s1")) Returns
                  {| SessionSelector.sessions := [js "s0"; js "s1"; js "s2"];
                     SessionSelector.isDeleting := Some (js "s1");
                     SessionSelector.deleteDialogOpen := true;
                     SessionSelector.sessionToDelete := Some (js "s1") |} in
  SessionSelector.sessions (fst result) = [js "s0"; js "s2"]
  /\ snd result = [None].
Proof.
  destruct (deleting_the_current_session_clears_the_chat Samples.clock
              MoreSamples.typeError (js "s1") (Some (js "s1")) Returns
              {| SessionSelector.sessions := [js "s0"; js "s1"; js "s2"];
                 SessionSelector.isDeleting := Some (js "s1");
                 SessionSelector.deleteDialogOpen := true;
                 SessionSelector.sessionToDelete := Some (js "s1") |}
              (Rest.Rejected OtherValue) MoreSamples.chatting
              eq_refl eq_refl)
    as (_ & _ & _ & (_ & H2 & H3) & _).
  split; [rewrite H2 | rewrite H3]; reflexivity.
Defined.

(** * A turn as the sequence of its chunks *)

Section Whole.

Variable Date_now : nat -> Z.
Variable JSON_parse : jsstring -> option EventData.

Lemma sameButConsole_refl st : sameButConsole st st.
Proof. unfold sameButConsole. now repeat split. Qed.

Lemma sameButConsole_trans a b c :
  sameButConsole a b -> sameButConsole b c -> sameButConsole a c.
Proof.
  unfold sameButConsole.
  intros (-> & -> & -> & -> & -> & -> & ->) H. exact H.
Qed.

Lemma writeConsole_same e st : sameButConsole (writeConsole e st) st.
Proof. unfold sameButConsole. now repeat split. Qed.

Ltac same_states a b H :=
  destruct a as [sid msgs ld er trs act con clk];
  destruct b as [sid' msgs' ld' er' trs' act' con' clk'];
  unfold sameButConsole in H; cbn in H;
  destruct H as (<- & <- & <- & <- & <- & <- & <-).

Lemma onChunk_respects h chunk a b :
  sameButConsole a b ->
  sameButConsole (onChunk Date_now h chunk a) (onChunk Date_now h chunk b).
Proof.
  intros H. same_states a b H.
  unfold onChunk, isAborted. cbn.
  destruct (trs !! h) as [t|]; [destruct (aborted t)|];
    try (unfold sameButConsole; cbn; now repeat split).
  destruct (chunk_type chunk); cbn.
  - destruct (chunk_content chunk) as [c|];
      [|unfold sameButConsole; cbn; now repeat split].
    destruct (truthy c); [|unfold sameButConsole; cbn; now repeat split].
    destruct (splits c msgs); unfold sameButConsole; cbn; now repeat split.
  - destruct (bool_decide (act = Some h));
      unfold sameButConsole; cbn; now repeat split.
  - unfold sameButConsole; cbn; now repeat split.
Qed.

Lemma onCatch_respects h err a b :
  sameButConsole a b ->
  sameButConsole (onCatch h err a) (onCatch h err b).
Proof.
  intros H. same_states a b H. unfold onCatch, isAborted. cbn.
  destruct (trs !! h) as [t|]; [destruct (aborted t)|];
    unfold sameButConsole; cbn; now repeat split.
Qed.

Lemma onFinally_respects h a b :
  sameButConsole a b ->
  sameButConsole (onFinally h a) (onFinally h b).
Proof.
  intros H. same_states a b H. unfold onFinally, isAborted. cbn.
  destruct (trs !! h) as [t|]; [destruct (aborted t)|];
    unfold sameButConsole; cbn; now repeat split.
Qed.

Lemma chunks_respect h cs : forall a b,
  sameButConsole a b ->
  sameButConsole (fold_left (fun s c => onChunk Date_now h c s) cs a)
                 (fold_left (fun s c => onChunk Date_now h c s) cs b).
Proof.
  induction cs as [|c cs IH]; intros a b H; cbn [fold_left]; [exact H|].
  apply IH. now apply onChunk_respects.
Qed.

Lemma line_as_chunks h line a b :
  sameButConsole a b ->
  sameButConsole
    (handleLine JSON_parse writeConsole (onChunk Date_now h) line a)
    (fold_left (fun s c => onChunk Date_now h c s)
       (lineChunks JSON_parse line) b).
Proof.
  intros H. unfold lineChunks, handleLine.
  destruct (startsWith _ _); [|exact H].
  destruct (JSON_parse _) as [data|].
  - unfold handleEvent.
    repeat (destruct (type_is data _);
            [cbn [app fold_left]; now apply onChunk_respects|]).
    exact H.
  - cbn [fold_left].
    exact (sameButConsole_trans _ _ _ (writeConsole_same _ _) H).
Qed.

Lemma lines_as_chunks h lines : forall a b,
  sameButConsole a b ->
  sameButConsole
    (fold_left
       (fun s line =>
          handleLine JSON_parse writeConsole (onChunk Date_now h) line s)
       lines a)
    (fold_left (fun s c => onChunk Date_now h c s)
       (concat (map (lineChunks JSON_parse) lines)) b).
Proof.
  induction lines as [|l ls IH]; intros a b H; cbn [fold_left map concat].
  - exact H.
  - rewrite fold_left_app. apply IH. now apply line_as_chunks.
Qed.

Lemma events_of_chunks h cs st :
  applyEvents Date_now h (map Arrives cs) st
  = fold_left (fun s c => onChunk Date_now h c s) cs st.
Proof.
  unfold applyEvents. revert st.
  induction cs as [|c cs IH]; intros st; cbn; [reflexivity|]. apply IH.
Qed.

(** A turn against any network, as the events of its stream. *)
Lemma turn_as_events
    (userInput : jsstring) (sessionId : option jsstring) (net : FetchResult)
    (st st1 : Hook) (h : nat) (target : jsstring) :
  startStream Date_now userInput sessionId st = inr (h, target, st1) ->
  let run := UseChat.sendMessageStream Date_now JSON_parse
               userInput sessionId net st in
  snd run = snd (chunksDelivered JSON_parse net)
  /\ sameButConsole (fst run)
       (applyEvents Date_now h
          (map Arrives (fst (chunksDelivered JSON_parse net))
           ++ match snd (chunksDelivered JSON_parse net) with
              | Returns => [Leaves]
              | Throws err => [Fails err; Leaves]
              end)
          st1).
Proof.
  intros Hstart run. subst run.
  unfold UseChat.sendMessageStream. rewrite Hstart.
  unfold applyEvents. rewrite fold_left_app.
  fold (applyEvents Date_now h
          (map Arrives (fst (chunksDelivered JSON_parse net))) st1).
  rewrite events_of_chunks.
  destruct (requestFailure net) as [e|] eqn:Hfail.
  - rewrite (requestFailure_throws JSON_parse _ _ _ _ _ _ _ Hfail).
    unfold chunksDelivered.
    rewrite (requestFailure_throws JSON_parse _ _ _ _ _ _ _ Hfail).
    cbn [fst snd fold_left applyEvent]. split; [reflexivity|].
    apply onFinally_respects, onCatch_respects, writeConsole_same.
  - destruct net as [e | response]; [discriminate|].
    unfold requestFailure in Hfail.
    destruct response as [okay code [b|]];
      cbn [ok status body] in Hfail;
      destruct okay; cbn [negb] in Hfail; try discriminate.
    destruct b as [values e].
    rewrite chunksDelivered_of_body.
    unfold Api.sendMessageStream. cbn [ok negb body reads ending].
    pose proof (readLoop_frameLines
                  (handleLine JSON_parse writeConsole (onChunk Date_now h))
                  values (writeConsole (LogApiStart target) st1)) as Hloop.
    match goal with
    | |- context [readLoop ?f values ?x] =>
        destruct (readLoop f values x) as [r st2]
    end.
    cbn [snd] in Hloop. subst st2.
    pose proof (lines_as_chunks h (frameLines values) _ _
                  (writeConsole_same (LogApiStart target) st1)) as Hsame.
    destruct e as [|err]; cbn [fst snd fold_left applyEvent].
    + split; [reflexivity|]. apply onFinally_respects.
      rewrite fold_left_app. cbn [fold_left].
      now apply onChunk_respects.
    + split; [reflexivity|].
      now apply onFinally_respects, onCatch_respects.
Qed.

(** X29. A turn is what its chunks make of it: against any network, the
    hook ends where it would end if, after the start of the stream, the
    chunks the read loop delivers arrived at the callback one by one,
    followed by the catch block when the call throws and by the finally
    block in every case; only the console may differ (it also holds the
    lines of the read loop). *)
Theorem turn_is_its_chunks
    (userInput : jsstring) (sessionId : option jsstring) (net : FetchResult)
    (st st1 : Hook) (h : nat) (target : jsstring) :
  startStream Date_now userInput sessionId st = inr (h, target, st1) ->
  let run := UseChat.sendMessageStream Date_now JSON_parse
               userInput sessionId net st in
  snd run = snd (chunksDelivered JSON_parse net)
  /\ sameButConsole (fst run)
       (applyEvents Date_now h
          (map Arrives (fst (chunksDelivered JSON_parse net))
           ++ match snd (chunksDelivered JSON_parse net) with
              | Returns => [Leaves]
              | Throws err => [Fails err; Leaves]
              end)
          st1).
Proof. apply turn_as_events. Qed.

Lemma quiet_chunk_error h chunk st :
  chunk_type chunk <> T_error ->
  error (onChunk Date_now h chunk st) = error st.
Proof.
  intros Ht. unfold onChunk. destruct (isAborted h st); [reflexivity|].
  destruct (chunk_type chunk); [| |congruence]; cbn.
  - destruct (chunk_content chunk) as [c|]; [|reflexivity].
    destruct (truthy c); [|reflexivity].
    now destruct (splits c (messages st)).
  - now destruct (bool_decide _).
Qed.

Lemma quiet_chunks_error h cs : forall st,
  Forall (fun c => chunk_type c <> T_error) cs ->
  error (fold_left (fun s c => onChunk Date_now h c s) cs st) = error st.
Proof.
  induction cs as [|c cs IH]; intros st Hall; [reflexivity|].
  inversion Hall as [|? ? Hc Hcs]; subst. cbn [fold_left].
  now rewrite IH, quiet_chunk_error.
Qed.

Lemma done_chunks_messages h cs : forall st,
  Forall (fun c => chunk_type c = T_done) cs ->
  messages (fold_left (fun s c => onChunk Date_now h c s) cs st)
  = messages st.
Proof.
  induction cs as [|c cs IH]; intros st Hall; [reflexivity|].
  inversion Hall as [|? ? Hc Hcs]; subst. cbn [fold_left].
  rewrite IH by assumption. unfold onChunk.
  destruct (isAborted h st); [reflexivity|]. rewrite Hc. cbn.
  now destruct (bool_decide _).
Qed.

Lemma chunks_isAborted h cs : forall st,
  isAborted h (fold_left (fun s c => onChunk Date_now h c s) cs st)
  = isAborted h st.
Proof.
  induction cs as [|c cs IH]; intros st; [reflexivity|]. cbn [fold_left].
  now rewrite IH, onChunk_isAborted.
Qed.

(** X30. A turn whose stream delivers content chunks with text and without
    a tool-output match, and then done chunks only, ends with the
    transcript extended by the human message and one ai message holding the
    texts of the chunks in order; loading is over, no error is shown, and
    the call returns. *)
Theorem plain_answer_turn
    (userInput : jsstring) (sessionId : option jsstring) (net : FetchResult)
    (texts : list jsstring) (dones : list StreamChunk)
    (st st1 : Hook) (h : nat) (target : jsstring) :
  startStream Date_now userInput sessionId st = inr (h, target, st1) ->
  chunksDelivered JSON_parse net = (contentChunks texts ++ dones, Returns) ->
  Forall (fun c => truthy c = true /\ test c = false) texts ->
  Forall (fun c => chunk_type c = T_done) dones ->
  let run := UseChat.sendMessageStream Date_now JSON_parse
               userInput sessionId net st in
  snd run = Returns
  /\ messages (fst run)
     = messages st
       ++ [{| sender := human; content := userInput;
              timestamp := Some (Date_now (clockReads st)) |};
           {| sender := ai; content := concat texts;
              timestamp := Some (Date_now (Datatypes.S (clockReads st))) |}]
  /\ isLoading (fst run) = false
  /\ error (fst run) = None.
Proof.
  intros Hstart Hcs Hplain Hdone run. subst run.
  destruct (turn_as_events _ _ net _ _ _ _ Hstart) as [Hc Hsame].
  rewrite Hcs in Hc, Hsame. cbn [fst snd] in Hc, Hsame.
  split; [exact Hc|].
  destruct Hsame as (_ & -> & -> & -> & _).
  unfold applyEvents. rewrite fold_left_app, map_app, fold_left_app.
  fold (applyEvents Date_now h (map Arrives (contentChunks texts)) st1).
  rewrite events_of_chunks.
  set (s2 := fold_left (fun s c => onChunk Date_now h c s)
               (contentChunks texts) st1).
  fold (applyEvents Date_now h (map Arrives dones) s2).
  rewrite events_of_chunks.
  set (s3 := fold_left (fun s c => onChunk Date_now h c s) dones s2).
  cbn [fold_left applyEvent].
  pose proof (startStream_live _ _ _ _ _ _ _ Hstart) as Hlive.
  assert (Hlive3 : isAborted h s3 = false).
  { subst s3 s2. now rewrite !chunks_isAborted. }
  unfold onFinally. rewrite Hlive3. cbn [negb messages isLoading error
                                         setIsLoading].
  split; [|split; [reflexivity|]].
  - subst s3. rewrite done_chunks_messages by assumption. subst s2.
    rewrite (plain_chunks_fold Date_now h texts st1
               (messages st
                ++ [{| sender := human; content := userInput;
                       timestamp := Some (Date_now (clockReads st)) |}])
               {| sender := ai; content := [];
                  timestamp := Some (Date_now (Datatypes.S (clockReads st))) |}
               Hlive Hplain
               (startStream_messages _ _ _ _ _ _ _ Hstart) eq_refl).
    cbn [content timestamp app]. now rewrite <- app_assoc.
  - subst s3 s2. rewrite !quiet_chunks_error.
    + apply (startStream_effects _ _ _ _ _ _ _ Hstart).
    + unfold contentChunks. apply Forall_map.
      apply Forall_true. intros c. cbn. discriminate.
    + eapply Forall_impl; [exact Hdone|]. intros c ->. discriminate.
Qed.

End Whole.

Lemma turn_is_its_chunks_witness :
  let net := Samples.okResponse [Samples.pathLine]
               (ReadRejects (ErrorObject (js "network error"))) in
  let run := UseChat.sendMessageStream Samples.clock Samples.parseKnown
               (js "run report") None net Samples.idle in
  exists st1,
    startStream Samples.clock (js "run report") None Samples.idle
      = inr (0%nat, js "s1", st1)
    /\ sameButConsole (fst run)
         (applyEvents Samples.clock 0
            [Arrives (contentChunk (Some (js "{'path': '/tmp/out.csv'}")));
             Fails (ErrorObject (js "network error")); Leaves]
            st1).
Proof.
  eexists. split; [reflexivity|].
  exact (proj2 (turn_is_its_chunks Samples.clock Samples.parseKnown
                  (js "run report") None
                  (Samples.okResponse [Samples.pathLine]
                     (ReadRejects (ErrorObject (js "network error"))))
                  Samples.idle _ _ _ eq_refl)).
Defined.

Lemma plain_answer_turn_witness :
  let run := UseChat.sendMessageStream Samples.clock Samples.parseKnown
               (js "hello") None
               (Samples.okResponse Samples.helloReads EndOfStream)
               Samples.idle in
  messages (fst run)
  = [ {| sender := human; content := js "hello";
         timestamp := Some 1700000000000%Z |};
      {| sender := ai; content := js "Hi there";
         timestamp := Some 1700000000001%Z |} ]
  /\ isLoading (fst run) = false.
Proof.
  destruct (plain_answer_turn Samples.clock Samples.parseKnown
              (js "hello") None
              (Samples.okResponse Samples.helloReads EndOfStream)
              [js "Hi"; js " there"] [doneChunk; doneChunk]
              Samples.idle _ _ _ eq_refl)
    as (_ & H2 & H3 & _).
  - vm_compute. reflexivity.
  - repeat (apply List.Forall_cons; [split; reflexivity|]).
    apply List.Forall_nil.
  - repeat (apply List.Forall_cons; [reflexivity|]). apply List.Forall_nil.
  - split; [exact H2 | exact H3].
Defined.

Lemma error_chunk_keeps_partial_output_witness :
  let st' := onChunk Samples.clock 1 (errorChunk None) Samples.restarted in
  messages st' = messages Samples.restarted
  /\ error st' = Some (js "Stream error occurred").
Proof.
  destruct (error_chunk_keeps_partial_output Samples.clock 1
              (errorChunk None) Samples.restarted eq_refl eq_refl)
    as (H1 & _ & H3 & _).
  split; [exact H1 | exact H3].
Defined.

Lemma upload_works_on_banner_and_notice_witness :
  let run := Sessions.uploadFile (js "data.csv")
               (Rest.Resolved {| Rest.upload_ok := false;
                                 Rest.upload_code := 413;
                                 Rest.upload_body := inr [] |})
               MoreSamples.chatting in
  snd run = inl (ErrorObject (js "Upload failed: 413"))
  /\ clearTimers (fst run) = 2%nat.
Proof.
  destruct (upload_works_on_banner_and_notice (js "data.csv")
              (Rest.Resolved {| Rest.upload_ok := false;
                                Rest.upload_code := 413;
                                Rest.upload_body := inr [] |})
              MoreSamples.chatting)
    as (_ & H2 & _ & H4 & _).
  split; [exact (H4 _ eq_refl eq_refl) | exact H2].
Defined.

(** ** The human message of a turn and its placeholder *)

Section Pair.

Import Rest.

Variable Date_now : nat -> Z.







End Pair.


